(** * hagadias: derived properties of Caves of Qud objects

    A shallow embedding of [hagadias/qudobject_props.py] (class
    [QudObjectProps]) and statements about its attribute pipeline
    (raw value, boost, dice evaluation, rounding) and about the
    aggregated combat statistics (AV, DV, MA, quickness, charge use).

    Conventions of the embedding:
    - a Python property or method that may raise is a function into
      [result]; the implicit [return None] is [Ok None];
    - field values are the strings of the XML source; [int(...)] on them is
      [python_int];
    - a Python float is the rational it denotes, and every operation on
      floats rounds its result to the nearest binary64 number ([binary64]);
    - a string is a sequence of characters with codes below 256; [int()] and
      [isdigit()] are those of Python on all of them, the case conversions
      of the tile names on the ASCII letters;
    - reading a property goes through [property_access], where the attribute
      fallback of the class answers for a getter that raises
      [AttributeError];
    - Python dictionaries keep insertion order and are association lists. *)

From Stdlib Require Import ZArith QArith Qround Qabs List String Ascii Bool Lia Lqa.
From Stdlib Require Import Numbers.DecimalString.
Import ListNotations.

Open Scope string_scope.
Open Scope Z_scope.

(** ** Python results and exceptions *)

Inductive exn : Type :=
| TypeError
| ValueError
| KeyError
| IndexError
| AttributeError
| RecursionError
| MalformedExpression.

Definition exn_eqb (a b : exn) : bool :=
  match a, b with
  | TypeError, TypeError | ValueError, ValueError | KeyError, KeyError
  | IndexError, IndexError | AttributeError, AttributeError
  | RecursionError, RecursionError
  | MalformedExpression, MalformedExpression => true
  | _, _ => false
  end.

Inductive result (A : Type) : Type :=
| Ok (a : A)
| Raise (e : exn).

Arguments Ok {A} a.
Arguments Raise {A} e.

Definition bind {A B : Type} (c : result A) (k : A -> result B) : result B :=
  match c with
  | Ok a => k a
  | Raise e => Raise e
  end.

Notation "x <- c ;; k" := (bind c (fun x => k))
  (at level 61, c at next level, right associativity).
Notation "' pat <- c ;; k" := (bind c (fun x => match x with pat => k end))
  (at level 61, pat pattern, c at next level, right associativity).

(** [try: body except e: handler] *)
Definition try_except {A : Type} (body : result A) (e : exn) (handler : result A)
  : result A :=
  match body with
  | Ok a => Ok a
  | Raise e' => if exn_eqb e e' then handler else Raise e'
  end.

(** A [for] loop threading an accumulator, stopping at the first exception. *)
Fixpoint for_each {A S : Type} (step : S -> A -> result S) (l : list A) (s : S)
  : result S :=
  match l with
  | [] => Ok s
  | x :: l' => s' <- step s x ;; for_each step l' s'
  end.

(** ** Python strings and [int()] *)

(** The white space that [int()] strips. *)
Definition is_space (c : ascii) : bool :=
  let n := N_of_ascii c in
  ((n =? 32) || ((9 <=? n) && (n <=? 13)) || (n =? 133) || (n =? 160))%N.

Definition digit_of (c : ascii) : option Z :=
  let n := Z.of_N (N_of_ascii c) in
  if (48 <=? n) && (n <=? 57) then Some (n - 48) else None.

Fixpoint lstrip (s : string) : string :=
  match s with
  | String c s' => if is_space c then lstrip s' else s
  | EmptyString => EmptyString
  end.

Fixpoint rstrip (s : string) : string :=
  match s with
  | String c s' =>
      let r := rstrip s' in
      if is_space c && String.eqb r "" then "" else String c r
  | EmptyString => EmptyString
  end.

(** Decimal digits, single underscores allowed between two digits. *)
Fixpoint int_digits (acc : Z) (after_digit : bool) (s : string) : option Z :=
  match s with
  | EmptyString => if after_digit then Some acc else None
  | String c s' =>
      match digit_of c with
      | Some d => int_digits (10 * acc + d) true s'
      | None =>
          if Ascii.eqb c "_" && after_digit then int_digits acc false s' else None
      end
  end.

(** [int(s)] for a string [s] in base 10: surrounding white space is
    dropped, one sign is allowed; [None] stands for [ValueError]. *)
Definition python_int (s : string) : option Z :=
  match lstrip (rstrip s) with
  | String "+" r => int_digits 0 false r
  | String "-" r => option_map Z.opp (int_digits 0 false r)
  | t => int_digits 0 false t
  end.

(** [int(v)] where [v] is a field value: a string, or [None]. *)
Definition int_of_field (v : option string) : result Z :=
  match v with
  | None => Raise TypeError
  | Some s =>
      match python_int s with
      | Some n => Ok n
      | None => Raise ValueError
      end
  end.

(** Modelled from the spec: [hagadias.helpers.int_or_none] is not part of the
    sources at hand; it converts a present value with [int] and keeps an
    absent one absent ("integer-or-absent"). *)
Definition int_or_none (v : option string) : result (option Z) :=
  match v with
  | None => Ok None
  | Some s => n <- int_of_field (Some s) ;; Ok (Some n)
  end.

(** [s.split(sep)[0]] *)
Fixpoint split_first (sep : ascii) (s : string) : string :=
  match s with
  | EmptyString => EmptyString
  | String c s' => if Ascii.eqb c sep then "" else String c (split_first sep s')
  end.

(** The part of [s] after the first [sep], when there is one. *)
Fixpoint split_rest (sep : ascii) (s : string) : option string :=
  match s with
  | EmptyString => None
  | String c s' => if Ascii.eqb c sep then Some s' else split_rest sep s'
  end.

(** [c in s] for a one-character string [c]. *)
Fixpoint char_in (c : ascii) (s : string) : bool :=
  match s with
  | EmptyString => false
  | String c' s' => Ascii.eqb c c' || char_in c s'
  end.

(** [sub in s] *)
Definition contains (sub s : string) : bool :=
  match index 0 sub s with
  | Some _ => true
  | None => false
  end.

(** [str(n)] for an integer. *)
Definition str_of_int (n : Z) : string :=
  NilEmpty.string_of_int (Z.to_int n).

(** [sep.join(l)] *)
Fixpoint join (sep : string) (l : list string) : string :=
  match l with
  | [] => ""
  | [x] => x
  | x :: l' => x ++ sep ++ join sep l'
  end.

(** Truth value of a field: [None] and the empty string are false. *)
Definition truthy (v : option string) : bool :=
  match v with
  | Some (String _ _) => true
  | _ => false
  end.

(** [v == s] for a field value [v]. *)
Definition is_str (v : option string) (s : string) : bool :=
  match v with
  | Some s' => String.eqb s' s
  | None => false
  end.

Definition is_none {A : Type} (v : option A) : bool :=
  match v with
  | None => true
  | Some _ => false
  end.

(** ** Objects

    Modelled from the spec: the base class [QudObject] (the inheritance
    store) is not part of the sources at hand.  An object exposes its
    explicit attributes ([attributes]) and its attributes after
    nearest-ancestor fallback ([all_attributes]), both grouped by XML tag,
    then by the value of the [Name] attribute; the virtual attribute
    [tag_Name_Attr] is [field obj tag Name Attr]. *)

Definition attrs : Type := list (string * string).
Definition entries : Type := list (string * attrs).
Definition store : Type := list (string * entries).

Record QudObject : Type := {
  name : string;
  attributes : store;
  all_attributes : store;
  ancestors : list string
}.

Fixpoint assoc {A : Type} (k : string) (l : list (string * A)) : option A :=
  match l with
  | [] => None
  | (k', v) :: l' => if String.eqb k k' then Some v else assoc k l'
  end.

Definition lookup2 (st : store) (tag key : string) : option attrs :=
  match assoc tag st with
  | Some es => assoc key es
  | None => None
  end.

Definition lookup3 (st : store) (tag key attr : string) : option string :=
  match lookup2 st tag key with
  | Some a => assoc attr a
  | None => None
  end.

(** [self.<tag>], e.g. [self.mutation] *)
Definition group (obj : QudObject) (tag : string) : option entries :=
  assoc tag (all_attributes obj).

(** [self.<tag>_<key>], e.g. [self.part_Armor] *)
Definition entry (obj : QudObject) (tag key : string) : option attrs :=
  lookup2 (all_attributes obj) tag key.

(** [self.<tag>_<key>_<attr>], e.g. [self.part_Armor_AV] *)
Definition field (obj : QudObject) (tag key attr : string) : option string :=
  lookup3 (all_attributes obj) tag key attr.

(** [self.is_specified('<tag>_<key>')] *)
Definition is_specified2 (obj : QudObject) (tag key : string) : bool :=
  negb (is_none (lookup2 (attributes obj) tag key)).

(** [self.is_specified('<tag>_<key>_<attr>')] *)
Definition is_specified3 (obj : QudObject) (tag key attr : string) : bool :=
  negb (is_none (lookup3 (attributes obj) tag key attr)).

(** [self.inherits_from(n)] *)
Definition inherits_from (obj : QudObject) (n : string) : bool :=
  existsb (String.eqb n) (ancestors obj).

(** Truth value of a dictionary: [None] and the empty one are false. *)
Definition nonempty {A : Type} (d : option (list A)) : bool :=
  match d with
  | Some (_ :: _) => true
  | _ => false
  end.

Definition items {A : Type} (d : option (list A)) : list A :=
  match d with
  | Some l => l
  | None => []
  end.

(** ** Dice expressions

    Modelled from the spec: [hagadias.dicebag.DiceBag] is not part of the
    sources at hand.  A flat integer gives min = max = avg; ["N-M"] with
    N <= M gives min N, max M, avg (N+M)/2; ["AdB"], ["AdB+C"] and ["AdB-C"]
    give min A+C, max A*B+C, avg A*(B+1)/2+C; anything else is malformed. *)

Record DiceBag : Type := {
  minimum : Z;
  maximum : Z;
  average : Q
}.

Definition nat_lit (s : string) : option Z := int_digits 0 false s.

Definition dice_roll (a b c : Z) : result DiceBag :=
  if (1 <=? a) && (1 <=? b)
  then Ok {| minimum := a + c;
             maximum := a * b + c;
             average := inject_Z (a * (b + 1)) / inject_Z 2 + inject_Z c |}
  else Raise MalformedExpression.

Definition parse_dice (s : string) : result DiceBag :=
  match python_int s with
  | Some n => Ok {| minimum := n; maximum := n; average := inject_Z n |}
  | None =>
      match split_rest "d" s with
      | Some rest =>
          match nat_lit (split_first "d" s) with
          | None => Raise MalformedExpression
          | Some a =>
              match split_rest "+" rest, split_rest "-" rest with
              | Some c, _ =>
                  match nat_lit (split_first "+" rest), nat_lit c with
                  | Some b, Some c' => dice_roll a b c'
                  | _, _ => Raise MalformedExpression
                  end
              | None, Some c =>
                  match nat_lit (split_first "-" rest), nat_lit c with
                  | Some b, Some c' => dice_roll a b (- c')
                  | _, _ => Raise MalformedExpression
                  end
              | None, None =>
                  match nat_lit rest with
                  | Some b => dice_roll a b 0
                  | None => Raise MalformedExpression
                  end
              end
          end
      | None =>
          match split_rest "-" s with
          | Some hi =>
              match nat_lit (split_first "-" s), nat_lit hi with
              | Some n, Some m =>
                  if n <=? m
                  then Ok {| minimum := n; maximum := m;
                             average := inject_Z (n + m) / inject_Z 2 |}
                  else Raise MalformedExpression
              | _, _ => Raise MalformedExpression
              end
          | None => Raise MalformedExpression
          end
      end
  end.

(** ** Python floats

    A float is an IEEE 754 binary64 number and is modelled by the rational it
    denotes.  An operation on floats is the operation on rationals followed
    by [binary64], the rounding to the nearest binary64 number, ties going
    to the even significand.  The binary64 numbers are the multiples
    [m * 2 ^ s / 2 ^ 1074] with a significand [m] of at most 53 bits; the
    step [2 ^ s] at [n / d] is read off the integer part of
    [n * 2 ^ 1074 / d], and is 1 for the subnormal numbers.  Overflow to
    infinity is left out: the exponent has no upper bound here. *)

(** The integer nearest to [a / b], the even one of two that are equally
    near; [b] is positive. *)
Definition round_half_even (a b : Z) : Z :=
  let k := a / b in
  match 2 * (a mod b) ?= b with
  | Lt => k
  | Gt => k + 1
  | Eq => if Z.even k then k else k + 1
  end.

(** The binary64 number nearest to [n / d], in units of [2 ^ -1074]; [n] is
    not negative and [d] is positive. *)
Definition binary64_grid (n d : Z) : Z :=
  let N := (n * 2 ^ 1074) / d in
  let s := Z.max 0 (Z.log2 N - 52) in
  round_half_even (n * 2 ^ 1074) (d * 2 ^ s) * 2 ^ s.

Definition binary64 (x : Q) : Q :=
  let d := Zpos (Qden x) in
  if Qnum x <? 0
  then Qred (- binary64_grid (- Qnum x) d # 2 ^ 1074)
  else Qred (binary64_grid (Qnum x) d # 2 ^ 1074).

(** [float(n)] and the conversion of an [int] operand of a float operation *)
Definition float_of_int (n : Z) : Q := binary64 (inject_Z n).

(** [x * y], [x + y] and [x / y] on floats *)
Definition float_mul (x y : Q) : Q := binary64 (x * y).
Definition float_add (x y : Q) : Q := binary64 (x + y).
Definition float_div (x y : Q) : Q := binary64 (x / y).

(** The rationals that are binary64 numbers. *)
Definition is_float (x : Q) : Prop := (binary64 x == x)%Q.

(** [int(x)] for a float [x]: truncation toward zero. *)
Definition int_of_float (x : Q) : Z := Z.quot (Qnum x) (Zpos (Qden x)).

(** [math.ceil(x)] *)
Definition ceil (x : Q) : Z := Qceiling x.

(** ** External collaborators

    The constant tables of [hagadias.constants] and
    [hagadias.character_codes], the level-scaled value resolver
    [hagadias.svalue.sValue] and the object index [qindex] are used by the
    properties but defined elsewhere; they are taken as they come. *)

Record Env : Type := {
  STAT_NAMES : list string;
  HARDCODED_CHARGE_USE : list (string * Z);
  CHARGE_USE_REASONS : list (string * string);
  (** [str(sValue(spec, level=level))] *)
  sValue : string -> Z -> string;
  qindex : list (string * QudObject)
}.

(** [self.qindex[name]] *)
Definition qindex_get (E : Env) (n : string) : result QudObject :=
  match assoc n (qindex E) with
  | Some o => Ok o
  | None => Raise KeyError
  end.

Definition ACTIVE_CHAR : Z := 1.
Definition INACTIVE_CHAR : Z := 2.

(** ** Property helpers *)

Definition active_or_inactive_character (obj : QudObject) : Z :=
  if (is_str (field obj "part" "Physics" "Takeable") "false"
      || is_str (field obj "part" "Physics" "Takeable") "False")
     && is_none (entry obj "part" "Gas")
  then
    if negb (is_none (entry obj "part" "Combat"))
       && negb (is_none (entry obj "part" "Brain"))
    then 1
    else 2
  else 0.

Definition lv (obj : QudObject) : option string :=
  match field obj "stat" "Level" "sValue" with
  | None => field obj "stat" "Level" "Value"
  | Some level => Some level
  end.

Definition role (obj : QudObject) : option string :=
  field obj "property" "Role" "Value".

(** The idiom shared by [attribute_helper] and [tier]:
    [try: level = int(self.lv)]
    [except ValueError: level = int(self.lv.split('-')[0])] *)
Definition level_of_lv (l : option string) : result Z :=
  try_except (int_of_field l) ValueError
    (match l with
     | Some s => int_of_field (Some (split_first "-" s))
     | None => Raise AttributeError
     end).

Definition attribute_helper (E : Env) (obj : QudObject) (attr : string)
  : result (option string) :=
  if active_or_inactive_character obj =? ACTIVE_CHAR then
    if truthy (field obj "stat" attr "sValue") then
      level <- level_of_lv (lv obj) ;;
      match field obj "stat" attr "sValue" with
      | Some spec => Ok (Some (sValue E spec level))
      | None => Ok None
      end
    else if truthy (field obj "stat" attr "Value") then
      Ok (field obj "stat" attr "Value")
    else Ok None
  else if inherits_from obj "Armor" then
    Ok (field obj "part" "Armor" attr)
  else Ok None.

(** The literal [0.25] is a binary64 number; [0.20] is not, and stands for
    the binary64 number nearest to 1/5. *)
Definition attribute_boost_factor (E : Env) (obj : QudObject) (attr : string)
  : result (option Q) :=
  if active_or_inactive_character obj =? ACTIVE_CHAR then
    boost <- int_or_none (field obj "stat" attr "Boost") ;;
    match boost with
    | Some boost =>
        if truthy (field obj "stat" attr "sValue") then
          let boost :=
            if is_str (role obj) "Minion" && existsb (String.eqb attr) (STAT_NAMES E)
            then boost - 1 else boost in
          if boost >? 0
          then Ok (Some (float_add (float_mul (25 # 100) (float_of_int boost)) 1))
          else Ok (Some (float_add (float_mul (binary64 (20 # 100))
                                              (float_of_int boost)) 1))
        else Ok None
    | None => Ok None
    end
  else Ok None.

(** The Boost tier after [if self.role == 'Minion' and attr in STAT_NAMES:
    boost -= 1], named for the statements below. *)
Definition effective_boost (E : Env) (obj : QudObject) (attr : string) (t : Z) : Z :=
  if is_str (role obj) "Minion" && existsb (String.eqb attr) (STAT_NAMES E)
  then t - 1 else t.

Definition attribute_helper_min_max_or_avg
  (E : Env) (obj : QudObject) (attr mode : string) : result (option Z) :=
  val_str <- attribute_helper E obj attr ;;
  match val_str with
  | Some val_str =>
      boost_factor <- attribute_boost_factor E obj attr ;;
      dice <- parse_dice val_str ;;
      match boost_factor with
      | None =>
          if String.eqb mode "min" then Ok (Some (minimum dice))
          else if String.eqb mode "max" then Ok (Some (maximum dice))
          else Ok (Some (int_of_float (average dice)))
      | Some boost_factor =>
          let min_val := ceil (float_mul (float_of_int (minimum dice)) boost_factor) in
          if String.eqb mode "min" then Ok (Some min_val)
          else
            let max_val := ceil (float_mul (float_of_int (maximum dice)) boost_factor) in
            if String.eqb mode "max" then Ok (Some max_val)
            else
              let avg_val := float_div (float_of_int (min_val + max_val)) 2 in
              Ok (Some (int_of_float avg_val))
      end
  | None => Ok None
  end.

Definition attribute_helper_avg (E : Env) (obj : QudObject) (attr : string) :=
  attribute_helper_min_max_or_avg E obj attr "avg".

Definition attribute_helper_min (E : Env) (obj : QudObject) (attr : string) :=
  attribute_helper_min_max_or_avg E obj attr "min".

Definition attribute_helper_max (E : Env) (obj : QudObject) (attr : string) :=
  attribute_helper_min_max_or_avg E obj attr "max".

Definition attribute_helper_mod
  (E : Env) (obj : QudObject) (attr statmode : string) : result (option Z) :=
  val <- (if String.eqb statmode "min" then attribute_helper_min E obj attr
          else if String.eqb statmode "max" then attribute_helper_max E obj attr
          else attribute_helper_avg E obj attr) ;;
  match val with
  | Some val => Ok (Some ((val - 16) / 2))
  | None => Ok None
  end.

(** [acc += x] where [x] may be [None]. *)
Definition add_opt (acc : Z) (x : option Z) : result Z :=
  match x with
  | Some n => Ok (acc + n)
  | None => Raise TypeError
  end.

Definition projectile_parts : list string :=
  ["BioAmmoLoader"; "AmmoArrow"; "MagazineAmmoLoader"; "EnergyAmmoLoader";
   "LiquidAmmoLoader"].

(** The loop of [projectile_object], called without [part_attr]. *)
Fixpoint projectile_loop (E : Env) (obj : QudObject) (parts : list string)
  : result (option QudObject) :=
  match parts with
  | [] => Ok None
  | part :: parts' =>
      match field obj "part" part "ProjectileObject" with
      | Some (String c s) => item <- qindex_get E (String c s) ;; Ok (Some item)
      | _ => projectile_loop E obj parts'
      end
  end.

Definition projectile_object (E : Env) (obj : QudObject)
  : result (option QudObject) :=
  if negb (is_none (entry obj "part" "MissileWeapon"))
     || is_specified2 obj "part" "AmmoArrow"
  then projectile_loop E obj projectile_parts
  else Ok None.

(** ** Properties *)

(** Modelled from the spec: the generic attribute access of
    [hagadias.qudobject.QudObject] ([__getattr__]) is not part of the sources
    at hand; it resolves a composed key name such as [part_Armor_AV] in the
    fields of the object and yields [None] where it finds nothing, as every
    test [self.part_X is None] of the source expects.  Python calls it as
    well when the getter of a property raises [AttributeError], with the name
    of the property, which is the name of no group of fields: reading the
    property then yields [None].  Every other exception of a getter reaches
    the reader.  The getters below that can raise [AttributeError] are named
    [..._getter], and the property is the getter read through
    [property_access]; for the other getters reading changes nothing, and
    the property is the getter. *)
Definition property_access {A : Type} (getter : result (option A))
  : result (option A) :=
  try_except getter AttributeError (Ok None).

(** [int(info['Level'])] *)
Definition mutation_level (info : attrs) : result Z :=
  match assoc "Level" info with
  | Some s => int_of_field (Some s)
  | None => Raise KeyError
  end.

Definition wornon (obj : QudObject) : option string :=
  let wornon := None in
  let wornon :=
    if truthy (field obj "part" "Shield" "WornOn")
    then field obj "part" "Shield" "WornOn" else wornon in
  let wornon :=
    if truthy (field obj "part" "Armor" "WornOn")
    then field obj "part" "Armor" "WornOn" else wornon in
  if String.eqb (name obj) "Hooks" then Some "Feet" else wornon.

(** [name[0] in '*#@'] *)
Definition is_placeholder (n : string) : result bool :=
  match n with
  | String c _ => Ok (char_in c "*#@")
  | EmptyString => Raise IndexError
  end.

(** Truth value of an integer-or-absent result such as [item.av]. *)
Definition truthy_int (v : option Z) : bool :=
  match v with
  | Some n => negb (n =? 0)
  | None => false
  end.

(** One turn of the mutation loop of [av], on [(av, applied_body_av)]. *)
Definition av_mutation (st : Z * bool) (m : string * attrs) : result (Z * bool) :=
  let '(mutation, info) := m in
  st <- (if String.eqb mutation "Carapace"
         then l <- mutation_level info ;; Ok (fst st + (l / 2 + 3), true)
         else Ok st) ;;
  st <- (if String.eqb mutation "Quills"
         then l <- mutation_level info ;; Ok (fst st + (l / 3 + 2), true)
         else Ok st) ;;
  st <- (if String.eqb mutation "Horns"
         then l <- mutation_level info ;; Ok (fst st + ((l - 1) / 3 + 1), snd st)
         else Ok st) ;;
  st <- (if String.eqb mutation "MultiHorns"
         then l <- mutation_level info ;; Ok (fst st + (l + 1) / 4, snd st)
         else Ok st) ;;
  if String.eqb mutation "SlogGlands" then Ok (fst st + 1, snd st) else Ok st.

(** One turn of the inventory loop of [av]; [item_av] is the property [av]
    of the objects of the index. *)
Definition av_inventory
  (E : Env) (item_av : QudObject -> result (option Z)) (applied_body_av : bool)
  (av : Z) (n : string) : result Z :=
  skip <- is_placeholder n ;;
  if skip then Ok av
  else
    item <- qindex_get E n ;;
    item_av_val <- item_av item ;;
    if truthy_int item_av_val
       && (negb applied_body_av || negb (is_str (wornon item) "Body"))
    then add_opt av item_av_val
    else Ok av.

Definition av_body
  (E : Env) (item_av : QudObject -> result (option Z)) (obj : QudObject)
  : result (option Z) :=
  let av := None in
  let av :=
    if truthy (field obj "part" "Armor" "AV")
    then field obj "part" "Armor" "AV" else av in
  let av :=
    if truthy (field obj "part" "Shield" "AV")
    then field obj "part" "Shield" "AV" else av in
  if active_or_inactive_character obj >? 0 then
    av <- int_of_field (field obj "stat" "AV" "Value") ;;
    st <- (if nonempty (group obj "mutation")
           then for_each av_mutation (items (group obj "mutation")) (av, false)
           else Ok (av, false)) ;;
    av <- (if nonempty (group obj "inventoryobject")
           then for_each (av_inventory E item_av (snd st))
                  (map fst (items (group obj "inventoryobject"))) (fst st)
           else Ok (fst st)) ;;
    Ok (Some av)
  else int_or_none av.

(** The property [av]; [fuel] bounds the depth of the calls [item.av] through
    the index, as the interpreter's stack does. *)
Fixpoint av (E : Env) (fuel : nat) (obj : QudObject) : result (option Z) :=
  match fuel with
  | O => Raise RecursionError
  | S fuel' => av_body E (av E fuel') obj
  end.

Definition dv_mutation (st : Z * bool) (m : string * attrs) : result (Z * bool) :=
  if String.eqb (fst m) "Carapace" then Ok (fst st - 2, true) else Ok st.

Definition dv_inventory
  (E : Env) (item_dv : QudObject -> result (option Z)) (applied_body_dv : bool)
  (dv : Z) (n : string) : result Z :=
  skip <- is_placeholder n ;;
  if skip then Ok dv
  else
    item <- qindex_get E n ;;
    item_dv_val <- item_dv item ;;
    if truthy_int item_dv_val
       && (negb applied_body_dv || negb (is_str (wornon item) "Body"))
    then add_opt dv item_dv_val
    else Ok dv.

Definition dv_body
  (E : Env) (item_dv : QudObject -> result (option Z)) (obj : QudObject)
  : result (option Z) :=
  dv <- int_or_none (field obj "part" "Armor" "DV") ;;
  match field obj "part" "Shield" "DV" with
  | Some s => int_or_none (Some s)
  | None =>
      let char_type := active_or_inactive_character obj in
      if char_type =? INACTIVE_CHAR then Ok (Some (-10))
      else if char_type =? ACTIVE_CHAR then
        if is_specified3 obj "part" "Brain" "Mobile"
           && (is_str (field obj "part" "Brain" "Mobile") "false"
               || is_str (field obj "part" "Brain" "Mobile") "False")
        then Ok (Some (-10))
        else
          let dv := 6 in
          dv <- (match field obj "stat" "DV" "Value" with
                 | Some s => n <- int_of_field (Some s) ;; Ok (dv + n)
                 | None => Ok dv
                 end) ;;
          let dv := if truthy (field obj "skill" "Acrobatics" "Dodge")
                    then dv + 2 else dv in
          let dv := if truthy (field obj "skill" "Acrobatics" "Tumble")
                    then dv + 1 else dv in
          agility_mod <- attribute_helper_mod E obj "Agility" "avg" ;;
          dv <- add_opt dv agility_mod ;;
          st <- (if nonempty (group obj "mutation")
                 then for_each dv_mutation (items (group obj "mutation")) (dv, false)
                 else Ok (dv, false)) ;;
          dv <- (if nonempty (group obj "inventoryobject")
                 then for_each (dv_inventory E item_dv (snd st))
                        (map fst (items (group obj "inventoryobject"))) (fst st)
                 else Ok (fst st)) ;;
          Ok (Some dv)
      else Ok dv
  end.

Fixpoint dv (E : Env) (fuel : nat) (obj : QudObject) : result (option Z) :=
  match fuel with
  | O => Raise RecursionError
  | S fuel' => dv_body E (dv E fuel') obj
  end.

Definition hasmentalshield (obj : QudObject) : option bool :=
  if active_or_inactive_character obj =? ACTIVE_CHAR then
    if negb (is_none (entry obj "part" "MentalShield"))
       || contains "Mechanical" (name obj)
       || (nonempty (entry obj "part" "Roboticized")
           && is_str (field obj "part" "Roboticized" "ChanceOneIn") "1")
    then Some true
    else None
  else None.

Definition ma (E : Env) (obj : QudObject) : result (option Z) :=
  match hasmentalshield obj with
  | Some true => Ok None
  | _ =>
      let char_type := active_or_inactive_character obj in
      if char_type =? INACTIVE_CHAR then Ok (Some 0)
      else if char_type =? ACTIVE_CHAR then
        let ma := 4 in
        ma <- (if truthy (field obj "stat" "MA" "Value")
               then n <- int_of_field (field obj "stat" "MA" "Value") ;; Ok (ma + n)
               else Ok ma) ;;
        willpower_mod <- attribute_helper_mod E obj "Willpower" "avg" ;;
        ma <- add_opt ma willpower_mod ;;
        Ok (Some ma)
      else Ok None
  end.

Definition quickness_mutation (mutation_val : Z) (m : string * attrs) : result Z :=
  let '(mutation, info) := m in
  let mutation_val :=
    if String.eqb mutation "ColdBlooded" then mutation_val - 10 else mutation_val in
  if String.eqb mutation "HeightenedSpeed"
  then l <- mutation_level info ;; Ok (mutation_val + (l * 2 + 13))
  else Ok mutation_val.

(** The conditional expression binds weaker than [+]:
    [(mutation_val + 100) if self.stat_Speed_Value is None
     else int(self.stat_Speed_Value)]. *)
Definition quickness (obj : QudObject) : result (option Z) :=
  if active_or_inactive_character obj =? ACTIVE_CHAR then
    mutation_val <- (if nonempty (group obj "mutation")
                     then for_each quickness_mutation (items (group obj "mutation")) 0
                     else Ok 0) ;;
    if negb (mutation_val =? 0) then
      match field obj "stat" "Speed" "Value" with
      | None => Ok (Some (mutation_val + 100))
      | Some s => n <- int_of_field (Some s) ;; Ok (Some n)
      end
    else int_or_none (field obj "stat" "Speed" "Value")
  else if nonempty (entry obj "part" "Armor") then
    int_or_none (field obj "part" "Armor" "SpeedBonus")
  else Ok None.

(** [projectile.is_specified(...)] on a projectile that is [None] raises
    [AttributeError]. *)
Definition omniphaseprojectile_getter (E : Env) (obj : QudObject)
  : result (option bool) :=
  projectile <- projectile_object E obj ;;
  match projectile with
  | Some projectile =>
      if is_specified2 projectile "part" "OmniphaseProjectile"
         || is_specified2 projectile "tag" "Omniphase"
      then Ok (Some true)
      else Ok None
  | None => Raise AttributeError
  end.

Definition omniphaseprojectile (E : Env) (obj : QudObject) : result (option bool) :=
  property_access (omniphaseprojectile_getter E obj).

(** [self.all_attributes['part']], iterated in insertion order. *)
Definition part_names (obj : QudObject) : result (list string) :=
  match assoc "part" (all_attributes obj) with
  | Some es => Ok (map fst es)
  | None => Raise KeyError
  end.

(** One turn of the loop of [chargeused]. *)
Definition chargeused_part (obj : QudObject) (charge : Z) (part : string)
  : result Z :=
  if String.eqb part "ProgrammableRecoiler" then Ok charge
  else
    match field obj "part" part "ChargeUse" with
    | Some chg =>
        n <- int_of_field (Some chg) ;;
        if n >? 0 then Ok (charge + n) else Ok charge
    | None => Ok charge
    end.

Definition chargeused (E : Env) (obj : QudObject) : result (option Z) :=
  parts <- part_names obj ;;
  charge <- for_each (chargeused_part obj) parts 0 ;;
  let charge :=
    match assoc (name obj) (HARDCODED_CHARGE_USE E) with
    | Some c => c
    | None => charge
    end in
  if charge >? 0 then Ok (Some charge) else Ok None.

(** The label of a part that uses charge. *)
Definition charge_func (obj : QudObject) (part : string) : string :=
  if String.eqb part "StunOnHit" then "Stun effect"
  else if String.eqb part "EnergyAmmoLoader" || String.eqb part "Gaslight"
  then "Weapon Power"
  else if String.eqb part "VibroWeapon" then "Adaptive Penetration"
  else if String.eqb part "MechanicalWings" then "Flight"
  else if String.eqb part "RocketSkates" then "Power Skate"
  else if String.eqb part "GeomagneticDisc" then "Throw Effect"
  else if String.eqb part "Teleporter" then "Teleportation"
  else if String.eqb part "EquipStatBoost" then "Stat Boost"
  else if String.eqb part "PartsGas" then "Gas Dispersion"
  else if String.eqb part "ReduceCooldowns" then "Cooldown Reduction"
  else if String.eqb part "RealityStabilization" then "Reality Stabilization"
  else if String.eqb part "LatchesOn" then "Latch Effect"
  else if String.eqb part "Toolbox" then "Tinker Bonus"
  else if String.eqb part "ConversationScript" then "Audio Processing"
  else
    match field obj "part" part "NameForStatus" with
    | Some status => status
    | None => if String.eqb part "Chair" then "Chair Effect" else part
    end.

(** [func + ' [' + chg + ']'] *)
Definition detailed (func chg : string) : string :=
  func ++ " [" ++ chg ++ "]".

(** One turn of the loop of [chargefunction], on [(funcs, detailedfuncs)]. *)
Definition chargefunction_part
  (obj : QudObject) (st : list string * list string) (part : string)
  : result (list string * list string) :=
  if String.eqb part "ProgrammableRecoiler" then Ok st
  else
    match field obj "part" part "ChargeUse" with
    | Some chg =>
        n <- int_of_field (Some chg) ;;
        if n >? 0 then
          let func := charge_func obj part in
          Ok (app (fst st) [func], app (snd st) [detailed func chg])
        else Ok st
    | None => Ok st
    end.

Definition chargefunction (E : Env) (obj : QudObject) : result (option string) :=
  parts <- part_names obj ;;
  st <- for_each (chargefunction_part obj) parts ([], []) ;;
  let st :=
    match assoc (name obj) (CHARGE_USE_REASONS E) with
    | Some func =>
        (app (fst st) [func],
         match assoc (name obj) (HARDCODED_CHARGE_USE E) with
         | Some c => app (snd st) [detailed func (str_of_int c)]
         | None => app (snd st) [func]
         end)
    | None => st
    end in
  match fst st with
  | [] => Ok None
  | [func] => Ok (Some func)
  | _ => Ok (Some (join ", " (snd st)))
  end.

(** [s[-1]] *)
Fixpoint last_char (s : string) : option ascii :=
  match s with
  | EmptyString => None
  | String c EmptyString => Some c
  | String _ s' => last_char s'
  end.

(** [c.isdigit()] for one character: true of the ten decimal digits and,
    among the code points below 256, of the superscript digits two, three
    and one (178, 179 and 185), which [int] does not read. *)
Definition isdigit (c : ascii) : bool :=
  let n := N_of_ascii c in
  (((48 <=? n) && (n <=? 57)) || (n =? 178) || (n =? 179) || (n =? 185))%N.

Definition tier (obj : QudObject) : result (option Z) :=
  let inherited := int_or_none (field obj "tag" "Tier" "Value") in
  if negb (is_specified3 obj "tag" "Tier" "Value") then
    if is_specified3 obj "part" "TinkerItem" "Bits" then
      match field obj "part" "TinkerItem" "Bits" with
      | None => Raise TypeError
      | Some bits =>
          match last_char bits with
          | None => Raise IndexError
          | Some val =>
              if isdigit val then
                n <- int_of_field (Some (String val "")) ;;
                Ok (Some n)
              else Ok (Some 0)
          end
      end
    else if negb (is_none (lv obj)) then
      level <- level_of_lv (lv obj) ;;
      Ok (Some (level / 5))
    else inherited
  else inherited.

(** The idiom shared by [xpvalue] and [xptier]:
    [try: level = int_or_none(level)]
    [except ValueError: level = None] *)
Definition level_or_none (l : option string) : result (option Z) :=
  try_except (int_or_none l) ValueError (Ok None).

Definition xpvalue (obj : QudObject) : result (option Z) :=
  level <- level_or_none (lv obj) ;;
  match level with
  | None => Ok None
  | Some level =>
      let xp_value := field obj "stat" "XPValue" "sValue" in
      let xp_value :=
        if negb (truthy xp_value) then field obj "stat" "XPValue" "Value"
        else xp_value in
      if negb (truthy xp_value) then Ok None
      else
        if is_str xp_value "*XP" then
          let role := match role obj with None => "Minion" | Some r => r end in
          if String.eqb role "Minion" then Ok (Some (level * 10))
          else if String.eqb role "Leader" then Ok (Some (level * 50))
          else if String.eqb role "Hero" then Ok (Some (level * 100))
          else Ok (Some (level * 25))
        else int_or_none xp_value
  end.

Definition xptier (obj : QudObject) : result (option Z) :=
  level <- level_or_none (lv obj) ;;
  match level with
  | Some level => Ok (Some (level / 5))
  | None => Ok None
  end.

(** ** Further properties of the catalog *)

(** A Python value that is a string or an integer, as the local [val] of
    [resistance] is. *)
Inductive pyval : Type :=
| VStr (s : string)
| VInt (n : Z).

(** [int(v)] *)
Definition int_of_pyval (v : pyval) : result Z :=
  match v with
  | VStr s => int_of_field (Some s)
  | VInt n => Ok n
  end.

Definition pyval_of_field (v : option string) : option pyval :=
  option_map VStr v.

(** [self.part_Roboticized and self.part_Roboticized_ChanceOneIn == '1'] *)
Definition roboticized (obj : QudObject) : bool :=
  nonempty (entry obj "part" "Roboticized")
  && is_str (field obj "part" "Roboticized" "ChanceOneIn") "1".

(** One turn of the mutation loop of [resistance]. *)
Definition resistance_mutation (element : string) (val : option pyval)
  (m : string * attrs) : result (option pyval) :=
  let '(mutation, info) := m in
  val <- (if String.eqb mutation "Carapace"
             && (String.eqb element "Heat" || String.eqb element "Cold")
          then
            v <- (match val with
                  | None => Ok 0
                  | Some x => int_of_pyval x
                  end) ;;
            l <- mutation_level info ;;
            Ok (Some (VInt (v + (l * 5 + 5))))
          else Ok val) ;;
  if String.eqb mutation "SlogGlands" && String.eqb element "Acid"
  then Ok (Some (VInt 100))
  else Ok val.

Definition resistance (obj : QudObject) (element : string) : result (option Z) :=
  let val := pyval_of_field (field obj "stat" (element ++ "Resistance") "Value") in
  let armored := nonempty (entry obj "part" "Armor") in
  let element :=
    if armored && String.eqb element "Electric" then "Elec" else element in
  let val :=
    if armored then pyval_of_field (field obj "part" "Armor" element) else val in
  let val :=
    if roboticized obj then
      if String.eqb element "Heat" || String.eqb element "Cold" then Some (VInt 25)
      else if String.eqb element "Electric" then Some (VInt (-50))
      else val
    else val in
  val <- (if nonempty (group obj "mutation")
          then for_each (resistance_mutation element) (items (group obj "mutation")) val
          else Ok val) ;;
  match val with
  | Some v => n <- int_of_pyval v ;; Ok (Some n)
  | None => Ok None
  end.

Definition acid (obj : QudObject) := resistance obj "Acid".
Definition cold (obj : QudObject) := resistance obj "Cold".
Definition electric (obj : QudObject) := resistance obj "Electric".
Definition heat (obj : QudObject) := resistance obj "Heat".

(** [projectile_object(part_attr)] with a part attribute: the attribute of
    the projectile, [getattr(item, part_attr, None)]. *)
Definition projectile_field (E : Env) (obj : QudObject) (tag key attr : string)
  : result (option string) :=
  item <- projectile_object E obj ;;
  match item with
  | Some item => Ok (field item tag key attr)
  | None => Ok None
  end.

(** [d.get(k, default)] *)
Definition get_default (d : attrs) (k default : string) : string :=
  match assoc k d with
  | Some v => v
  | None => default
  end.

(** One turn of the loop of [inventory]. *)
Definition inventory_entry (inv : entries)
  (ret : list (string * string * string * string)) (n : string)
  : result (list (string * string * string * string)) :=
  skip <- is_placeholder n ;;
  if skip then Ok ret
  else
    match assoc n inv with
    | Some data =>
        let count := get_default data "Number" "1" in
        let equipped := "no" in
        let chance := get_default data "Chance" "100" in
        Ok (app ret [(n, count, equipped, chance)])
    | None => Raise KeyError
    end.

Definition inventory (obj : QudObject)
  : result (option (list (string * string * string * string))) :=
  match group obj "inventoryobject" with
  | Some inv =>
      ret <- for_each (inventory_entry inv) (map fst inv) [] ;;
      Ok (Some ret)
  | None => Ok None
  end.

(** [self.part_Roboticized is None or self.part_Roboticized_ChanceOneIn != '1'] *)
Definition leaves_corpse (obj : QudObject) : bool :=
  is_none (entry obj "part" "Roboticized")
  || negb (is_str (field obj "part" "Roboticized" "ChanceOneIn") "1").

Definition corpse (obj : QudObject) : result (option string) :=
  match field obj "part" "Corpse" "CorpseBlueprint" with
  | Some blueprint =>
      chance <- int_of_field (field obj "part" "Corpse" "CorpseChance") ;;
      if (chance >? 0) && leaves_corpse obj then Ok (Some blueprint) else Ok None
  | None => Ok None
  end.

Definition corpsechance (obj : QudObject) : result (option Z) :=
  match field obj "part" "Corpse" "CorpseChance" with
  | Some chance =>
      n <- int_of_field (Some chance) ;;
      if (n >? 0) && leaves_corpse obj
      then n' <- int_of_field (Some chance) ;; Ok (Some n')
      else Ok None
  | None => Ok None
  end.

Definition canbuild (obj : QudObject) : option bool :=
  if is_str (field obj "part" "TinkerItem" "CanBuild") "true" then Some true
  else if is_str (field obj "part" "TinkerItem" "CanDisassemble") "true"
  then Some false
  else None.

Definition candisassemble (obj : QudObject) : option bool :=
  if is_str (field obj "part" "TinkerItem" "CanDisassemble") "true" then Some true
  else if is_str (field obj "part" "TinkerItem" "CanBuild") "true"
  then Some false
  else None.

(** One turn of the loop of [mutations]. *)
Definition mutations_entry (ms : list (string * Z)) (m : string * attrs)
  : result (list (string * Z)) :=
  let '(mutation, data) := m in
  let postfix := get_default data "GasObject" "" in
  level <- (match assoc "Level" data with
            | Some l => int_of_field (Some l)
            | None => Ok 0
            end) ;;
  Ok (app ms [(mutation ++ postfix, level)]).

Definition sees_in_the_dark (mu : string) : bool :=
  String.eqb mu "NightVision" || String.eqb mu "DarkVision".

Definition mutations (obj : QudObject) : result (option (list (string * Z))) :=
  ms <- (match group obj "mutation" with
         | Some d => for_each mutations_entry d []
         | None => Ok []
         end) ;;
  let ms :=
    if roboticized obj then
      if match group obj "mutation" with
         | None => true
         | Some d => negb (existsb sees_in_the_dark (map fst d))
         end
      then app ms [("DarkVision", 12)]
      else ms
    else ms in
  match ms with
  | [] => Ok None
  | _ => Ok (Some ms)
  end.

(** [a == b] for two integer-or-absent values. *)
Definition opt_Z_eqb (a b : option Z) : bool :=
  match a, b with
  | Some x, Some y => x =? y
  | None, None => true
  | _, _ => false
  end.

(** [a - b] where either may be [None]. *)
Definition sub_opt (a b : option Z) : result Z :=
  match a, b with
  | Some x, Some y => Ok (x - y)
  | _, _ => Raise TypeError
  end.

Definition marange (E : Env) (obj : QudObject) : result (option string) :=
  match hasmentalshield obj with
  | Some true => Ok None
  | _ =>
      let char_type := active_or_inactive_character obj in
      if char_type =? INACTIVE_CHAR then Ok None
      else if char_type =? ACTIVE_CHAR then
        let ma := 4 in
        ma <- (if truthy (field obj "stat" "MA" "Value")
               then n <- int_of_field (field obj "stat" "MA" "Value") ;; Ok (ma + n)
               else Ok ma) ;;
        minmod <- attribute_helper_mod E obj "Willpower" "min" ;;
        maxmod <- attribute_helper_mod E obj "Willpower" "max" ;;
        if opt_Z_eqb minmod maxmod then
          lo <- add_opt ma minmod ;;
          Ok (Some (str_of_int lo))
        else
          lo <- add_opt ma minmod ;;
          width <- sub_opt maxmod minmod ;;
          Ok (Some (str_of_int (lo - 1) ++ "+1d" ++ str_of_int (width + 1)))
      else Ok None
  end.

(** The level of a mutation, when it has one, is an integer. *)
Definition level_readable (m : string * attrs) : bool :=
  match assoc "Level" (snd m) with
  | Some l => negb (is_none (python_int l))
  | None => true
  end.

Definition is_carapace (m : string * attrs) : bool :=
  String.eqb (fst m) "Carapace".

(** [s.split(sep)]: the segments of [s] between the separators; never an
    empty list. *)
Fixpoint split (sep : ascii) (s : string) : list string :=
  match s with
  | EmptyString => [""]
  | String c s' =>
      if Ascii.eqb c sep then "" :: split sep s'
      else
        match split sep s' with
        | h :: t => String c h :: t
        | [] => [String c ""]
        end
  end.

(** [[f(x) for x in l]], stopping at the first exception. *)
Fixpoint map_result {A B : Type} (f : A -> result B) (l : list A)
  : result (list B) :=
  match l with
  | [] => Ok []
  | x :: l' => y <- f x ;; ys <- map_result f l' ;; Ok (y :: ys)
  end.

(** [self.part.keys()]; for an object without parts [self.part] is [None],
    which has no [keys]. *)
Definition part_keys (obj : QudObject) : result (list string) :=
  match group obj "part" with
  | Some ps => Ok (map fst ps)
  | None => Raise AttributeError
  end.

(** [key.startswith('Mod')] *)
Definition is_mod (key : string) : bool := prefix "Mod" key.

Definition modcount_getter (obj : QudObject) : result (option Z) :=
  let val := 0 in
  let val :=
    match field obj "part" "AddMod" "Mods" with
    | Some m => val + Z.of_nat (List.length (split "," m))
    | None => val
    end in
  keys <- part_keys obj ;;
  let val := fold_left (fun v key => if is_mod key then v + 1 else v) keys val in
  if val >? 0 then Ok (Some val) else Ok None.

Definition modcount (obj : QudObject) : result (option Z) :=
  property_access (modcount_getter obj).

(** One turn of the loop of [mods] over the parts. *)
Definition mods_part (obj : QudObject) (ms : list (string * Z)) (key : string)
  : result (list (string * Z)) :=
  if is_mod key then
    match entry obj "part" key with
    | Some data =>
        match assoc "Tier" data with
        | Some t => n <- int_of_field (Some t) ;; Ok (app ms [(key, n)])
        | None => Ok (app ms [(key, 1)])
        end
    | None => Raise KeyError
    end
  else Ok ms.

Definition mods_getter (obj : QudObject) : result (option (list (string * Z))) :=
  ms <- (match field obj "part" "AddMod" "Mods" with
         | Some m =>
             let names := split "," m in
             tiers <- (match field obj "part" "AddMod" "Tiers" with
                       | Some t =>
                           map_result (fun tier => int_of_field (Some tier))
                                      (split "," t)
                       | None => Ok (repeat 1 (List.length names))
                       end) ;;
             Ok (combine names tiers)
         | None => Ok []
         end) ;;
  keys <- part_keys obj ;;
  ms <- for_each (mods_part obj) keys ms ;;
  match ms with
  | [] => Ok None
  | _ => Ok (Some ms)
  end.

Definition mods (obj : QudObject) : result (option (list (string * Z))) :=
  property_access (mods_getter obj).

(** The table [ITEM_MOD_PROPS] of [hagadias.constants]: for each mod whether
    it counts only on an item that is already complex, and its complexity. *)
Definition mod_props : Type := list (string * (bool * Z)).

(** The body shared by the two loops of [complexity]. *)
Definition add_mod_complexity (modprops : mod_props) (val : Z) (m : string) : Z :=
  match assoc m modprops with
  | Some (ifcomplex, c) => if ifcomplex && (val <=? 0) then val else val + c
  | None => val
  end.

Definition complexity_getter (modprops : mod_props) (obj : QudObject)
  : result (option Z) :=
  val <- (match field obj "part" "Examiner" "Complexity" with
          | None => Ok 0
          | Some s => int_of_field (Some s)
          end) ;;
  let val :=
    match field obj "part" "AddMod" "Mods" with
    | Some m => fold_left (add_mod_complexity modprops) (split "," m) val
    | None => val
    end in
  keys <- part_keys obj ;;
  let val :=
    fold_left (fun v key => if is_mod key then add_mod_complexity modprops v key
                            else v) keys val in
  if (val >? 0) || match canbuild obj with Some true => true | _ => false end
  then Ok (Some val)
  else Ok None.

Definition complexity (modprops : mod_props) (obj : QudObject) : result (option Z) :=
  property_access (complexity_getter modprops obj).

Definition unknownname (modprops : mod_props) (obj : QudObject)
  : result (option string) :=
  complexity <- complexity modprops obj ;;
  match complexity with
  | Some complexity =>
      if complexity >? 0 then
        hidden <- (match field obj "part" "Examiner" "Understanding" with
                   | None => Ok true
                   | Some u => n <- int_of_field (Some u) ;; Ok (n <? complexity)
                   end) ;;
        if hidden then
          let unknown_name :=
            match field obj "part" "Examiner" "UnknownDisplayName" with
            | None => "weird artifact"
            | Some n => n
            end in
          if negb (String.eqb unknown_name "*med") then Ok (Some unknown_name)
          else Ok None
        else Ok None
      else Ok None
  | None => Ok None
  end.

Definition unknownaltname (modprops : mod_props) (obj : QudObject)
  : result (option string) :=
  complexity <- complexity modprops obj ;;
  match complexity with
  | Some complexity =>
      if complexity >? 0 then
        hidden <- (match field obj "part" "Examiner" "Understanding" with
                   | None => Ok true
                   | Some u => n <- int_of_field (Some u) ;; Ok (n <? complexity)
                   end) ;;
        if hidden then
          let alt_name :=
            match field obj "part" "Examiner" "AlternateDisplayName" with
            | None => "device"
            | Some n => n
            end in
          if negb (String.eqb alt_name "*med") then Ok (Some alt_name)
          else Ok None
        else Ok None
      else Ok None
  | None => Ok None
  end.

Definition pv (E : Env) (obj : QudObject) : result (option Z) :=
  pv <- (if inherits_from obj "MeleeWeapon" || is_specified2 obj "part" "MeleeWeapon"
         then
           match field obj "part" "Gaslight" "ChargedPenetrationBonus" with
           | Some s => n <- int_of_field (Some s) ;; Ok (Some (4 + n))
           | None =>
               match field obj "part" "MeleeWeapon" "PenBonus" with
               | Some s => n <- int_of_field (Some s) ;; Ok (Some (4 + n))
               | None => Ok (Some 4)
               end
           end
         else Ok None) ;;
  missilepv <- projectile_field E obj "part" "Projectile" "BasePenetration" ;;
  pv <- (match missilepv with
         | Some s => n <- int_of_field (Some s) ;; Ok (Some (n + 4))
         | None => Ok pv
         end) ;;
  if negb (is_none (entry obj "part" "ThrownWeapon")) then
    thrown <- int_or_none (field obj "part" "ThrownWeapon" "Penetration") ;;
    Ok (Some (match thrown with Some n => n | None => 1 end + 4))
  else Ok pv.

Definition maxpv (E : Env) (obj : QudObject) : result (option Z) :=
  pv <- pv E obj ;;
  match pv with
  | Some pv =>
      if inherits_from obj "MeleeWeapon" || is_specified2 obj "part" "MeleeWeapon"
      then
        match field obj "part" "MeleeWeapon" "MaxStrengthBonus" with
        | Some s => n <- int_of_field (Some s) ;; Ok (Some (pv + n))
        | None => Ok (Some pv)
        end
      else Ok (Some pv)
  | None => Ok None
  end.

(** ** Tiles ([hagadias/qudtile.py]) *)

(** [c.lower()] and [c.upper()] for one character, on ASCII letters. *)
Definition lower_char (c : ascii) : ascii :=
  let n := N_of_ascii c in
  if ((65 <=? n) && (n <=? 90))%N then ascii_of_N (n + 32) else c.

Definition upper_char (c : ascii) : ascii :=
  let n := N_of_ascii c in
  if ((97 <=? n) && (n <=? 122))%N then ascii_of_N (n - 32) else c.

(** [s.lower()] *)
Fixpoint lower (s : string) : string :=
  match s with
  | EmptyString => EmptyString
  | String c s' => String (lower_char c) (lower s')
  end.

(** [s[n:]] *)
Fixpoint drop (n : nat) (s : string) : string :=
  match n, s with
  | O, _ => s
  | S n', String _ s' => drop n' s'
  | S _, EmptyString => EmptyString
  end.

(** [s.replace(old, new, 1)] for one-character strings [old] and [new]. *)
Fixpoint replace_first (old new : ascii) (s : string) : string :=
  match s with
  | EmptyString => EmptyString
  | String c s' =>
      if Ascii.eqb c old then String new s' else String c (replace_first old new s')
  end.

Definition fix_filename (filename : string) : result string :=
  let filename :=
    if prefix "assets_content_textures" (lower filename)
    then replace_first "_" "/" (drop 24 filename)
    else filename in
  match filename with
  | String c rest => Ok (String (upper_char c) rest)
  | EmptyString => Raise IndexError
  end.

(** A name whose seventh character is an underscore, with no slash before
    it: the shape of a name that starts with [assets_]. *)
Definition underscore_at_6 (s : string) : Prop :=
  match s with
  | String c0 (String c1 (String c2 (String c3 (String c4 (String c5
      (String c6 _)))))) =>
      c0 <> "/"%char /\ c1 <> "/"%char /\ c2 <> "/"%char /\ c3 <> "/"%char
      /\ c4 <> "/"%char /\ c5 <> "/"%char /\ c6 = "_"%char
  | _ => False
  end.






(** [faction, value = part.split(sep)]: exactly two segments, or a
    [ValueError]. *)
Definition unpack2 (l : list string) : result (string * string) :=
  match l with
  | [a; b] => Ok (a, b)
  | _ => Raise ValueError
  end.

(** One turn of the loop of [reputationbonus]. *)
Definition reputation_entry (obj : QudObject) (part : string)
  : result (string * Z) :=
  fv <- (if char_in ":" part then
           p <- unpack2 (split ":" part) ;; Ok (fst p, Some (snd p))
         else Ok (part, field obj "part" "AddsRep" "Value")) ;;
  value <- int_of_field (snd fv) ;;
  Ok (fst fv, value).

(** [self.part_AddsRep_Faction.split(',')] on a faction list that is [None]
    raises [AttributeError]. *)
Definition reputationbonus_getter (obj : QudObject)
  : result (option (list (string * Z))) :=
  if nonempty (entry obj "part" "AddsRep") then
    match field obj "part" "AddsRep" "Faction" with
    | Some factions =>
        reps <- map_result (reputation_entry obj) (split "," factions) ;;
        Ok (Some reps)
    | None => Raise AttributeError
    end
  else Ok None.

Definition reputationbonus (obj : QudObject)
  : result (option (list (string * Z))) :=
  property_access (reputationbonus_getter obj).

(** One turn of the loop of [faction]; a segment without a dash is reported
    on the standard output and skipped. *)
Definition faction_entry (ret : list (string * Z)) (part : string)
  : result (list (string * Z)) :=
  if char_in "-" part then
    p <- unpack2 (split "-" part) ;;
    value <- int_of_field (Some (snd p)) ;;
    Ok (app ret [(fst p, value)])
  else Ok ret.

Definition faction (obj : QudObject) : result (option (list (string * Z))) :=
  if truthy (field obj "part" "Brain" "Factions") then
    match field obj "part" "Brain" "Factions" with
    | Some factions =>
        ret <- for_each faction_entry (split "," factions) [] ;;
        Ok (Some ret)
    | None => Ok None
    end
  else Ok None.

(** ** The aggregation rules in the words of the specification *)

Definition sum_Z (l : list Z) : Z := fold_right Z.add 0 l.

(** A mutation that applies to the body slot. *)
Definition body_mutation (m : string * attrs) : bool :=
  String.eqb (fst m) "Carapace" || String.eqb (fst m) "Quills".

(** What an inventory entry adds to the armor value of its wearer: nothing
    for a placeholder, nothing for an item worn on the body when a body
    mutation was counted, the armor value of the item otherwise. *)
Definition av_contribution
  (E : Env) (item_av : QudObject -> result (option Z)) (applied_body_av : bool)
  (n : string) : Z :=
  match is_placeholder n with
  | Ok false =>
      match qindex_get E n with
      | Ok item =>
          match item_av item with
          | Ok (Some v) =>
              if applied_body_av && is_str (wornon item) "Body" then 0 else v
          | _ => 0
          end
      | Raise _ => 0
      end
  | _ => 0
  end.

(** An inventory entry is a placeholder, or names an object of the index
    whose armor value can be computed. *)
Definition entry_resolves
  (E : Env) (item_av : QudObject -> result (option Z)) (n : string) : bool :=
  match is_placeholder n with
  | Ok true => true
  | Ok false =>
      match qindex_get E n with
      | Ok item => match item_av item with Ok _ => true | Raise _ => false end
      | Raise _ => false
      end
  | Raise _ => false
  end.

(** What a part adds to the charge used. *)
Definition charge_of (obj : QudObject) (part : string) : Z :=
  if String.eqb part "ProgrammableRecoiler" then 0
  else
    match field obj "part" part "ChargeUse" with
    | Some chg =>
        match python_int chg with
        | Some n => if n >? 0 then n else 0
        | None => 0
        end
    | None => 0
    end.

(** The parts that contribute to the charge used, and the text of their
    charge use. *)
Definition uses_charge (obj : QudObject) (part : string) : bool :=
  0 <? charge_of obj part.

Definition charge_text (obj : QudObject) (part : string) : string :=
  match field obj "part" part "ChargeUse" with
  | Some chg => chg
  | None => ""
  end.

(** The charge use of a part, when it has one, is an integer. *)
Definition charge_readable (obj : QudObject) (part : string) : bool :=
  String.eqb part "ProgrammableRecoiler"
  || match field obj "part" part "ChargeUse" with
     | Some chg => negb (is_none (python_int chg))
     | None => true
     end.

(** What an inventory entry adds to the dodge value of its wearer: the rule
    of the armor value, on the dodge value of the item. *)
Definition dv_contribution
  (E : Env) (item_dv : QudObject -> result (option Z)) (applied_body_dv : bool)
  : string -> Z :=
  av_contribution E item_dv applied_body_dv.

(** ** Sample objects *)

(** An object whose attributes are all explicit. *)
Definition mk_object (n : string) (st : store) : QudObject :=
  {| name := n; attributes := st; all_attributes := st; ancestors := [] |}.

Definition character_parts : entries :=
  [("Physics", [("Takeable", "false")]); ("Combat", []); ("Brain", [])].

Definition stationary_parts : entries :=
  [("Physics", [("Takeable", "false")])].

(** A world with no overrides whose level-scaled values do not depend on the
    level. *)
Definition plain_env (index : list (string * QudObject)) : Env :=
  {| STAT_NAMES :=
       ["Strength"; "Agility"; "Toughness"; "Intelligence"; "Willpower"; "Ego"];
     HARDCODED_CHARGE_USE := [];
     CHARGE_USE_REASONS := [];
     sValue := fun spec _ => spec;
     qindex := index |}.

(** A level 10 creature with one level-scaled attribute and a Boost tier. *)
Definition boosted (attr spec boost : string) (extra : list (string * attrs))
  : QudObject :=
  mk_object "boosted creature"
    [("part", character_parts);
     ("stat", [("Level", [("Value", "10")]);
               (attr, [("sValue", spec); ("Boost", boost)])] ++ extra)%list].

Definition strong_ape : QudObject := boosted "Strength" "14-18" "2" [].
Definition weak_ape : QudObject := boosted "Strength" "14-18" "-1" [].
Definition feeble_ape : QudObject := boosted "Strength" "5-10" "-6" [].
Definition frail_ape : QudObject := boosted "Strength" "1d6-11" "-3" [].
Definition slight_ape : QudObject := boosted "Strength" "5" "-1" [].

Definition minion_ape : QudObject :=
  mk_object "minion"
    [("part", character_parts);
     ("property", [("Role", [("Value", "Minion")])]);
     ("stat", [("Level", [("Value", "10")]);
               ("Strength", [("sValue", "14-18"); ("Boost", "2")])])].

(** A creature with a flat Strength and Willpower. *)
Definition flat_creature (v : string) : QudObject :=
  mk_object "flat creature"
    [("part", character_parts);
     ("stat", [("Strength", [("Value", v)]); ("Willpower", [("Value", v)]);
               ("MA", [("Value", "2")])])].

(** Pieces of armor and a creature that wears them over its carapace. *)
Definition leather_armor : QudObject :=
  mk_object "Leather Armor"
    [("part", [("Armor", [("AV", "2"); ("WornOn", "Body")])])].

Definition iron_helmet : QudObject :=
  mk_object "Iron Helmet"
    [("part", [("Armor", [("AV", "1"); ("WornOn", "Head")])])].

Definition armory : list (string * QudObject) :=
  [("Leather Armor", leather_armor); ("Iron Helmet", iron_helmet)].

Definition crab (mutations : entries) : QudObject :=
  mk_object "crab"
    [("part", character_parts);
     ("stat", [("AV", [("Value", "3")])]);
     ("mutation", mutations);
     ("inventoryobject",
      [("*Junk 1", []); ("Leather Armor", []); ("Iron Helmet", [])])].

Definition shelled_crab : QudObject := crab [("Carapace", [("Level", "4")])].
Definition horned_crab : QudObject := crab [("Horns", [("Level", "4")])].

(** Characters for the mental armor. *)
Definition robot : QudObject :=
  mk_object "robot"
    [("part", (character_parts ++ [("MentalShield", [])])%list);
     ("stat", [("Willpower", [("Value", "18")]); ("MA", [("Value", "2")])])].

Definition statue : QudObject :=
  mk_object "statue" [("part", stationary_parts)].

(** A character that defines no stat at all. *)
Definition statless : QudObject :=
  mk_object "statless" [("part", character_parts)].

(** A creature whose level is a range. *)
Definition tinker_at (level : string) : QudObject :=
  mk_object "Barathrumite Tinker"
    [("part", character_parts);
     ("stat", [("Level", [("sValue", level)]);
               ("Strength", [("sValue", "14-18")]);
               ("XPValue", [("sValue", "*XP")])])].

Definition tinker : QudObject := tinker_at "18-29".

(** An item with two parts that use charge. *)
Definition stun_teleporter : QudObject :=
  mk_object "stun teleporter"
    [("part", [("Physics", [("Takeable", "true")]);
               ("StunOnHit", [("ChargeUse", "5")]);
               ("Teleporter", [("ChargeUse", "10")])])].

(** Creatures with a speed mutation. *)
Definition runner (speed : list (string * attrs)) (mutations : entries)
  : QudObject :=
  mk_object "runner"
    [("part", character_parts); ("stat", speed); ("mutation", mutations)].

Definition quick_runner : QudObject :=
  runner [("Speed", [("Value", "100")])] [("HeightenedSpeed", [("Level", "1")])].
Definition cold_runner : QudObject :=
  runner [("Speed", [("Value", "100")])] [("ColdBlooded", [])].
Definition quick_runner_no_speed : QudObject :=
  runner [] [("HeightenedSpeed", [("Level", "1")])].
Definition cold_runner_no_speed : QudObject :=
  runner [] [("ColdBlooded", [])].

(** A missile weapon, its projectile, and an item that is no weapon. *)
Definition phase_bolt : QudObject :=
  mk_object "ProjectilePhaseBolt"
    [("part", [("Projectile", []); ("OmniphaseProjectile", [])])].

Definition lead_slug : QudObject :=
  mk_object "ProjectileLeadSlug" [("part", [("Projectile", [])])].

Definition rifle (projectile : string) : QudObject :=
  mk_object "rifle"
    [("part", [("MissileWeapon", []);
               ("MagazineAmmoLoader", [("ProjectileObject", projectile)])])].

Definition ammunition : list (string * QudObject) :=
  [("ProjectilePhaseBolt", phase_bolt); ("ProjectileLeadSlug", lead_slug)].

Definition bandage : QudObject :=
  mk_object "Bandage" [("part", [("Physics", [("Takeable", "true")])])].

(** Sample objects for the further properties. *)
Definition two_loader_rifle : QudObject :=
  mk_object "two loader rifle"
    [("part", [("MissileWeapon", []);
               ("MagazineAmmoLoader", [("ProjectileObject", "ProjectileLeadSlug")]);
               ("BioAmmoLoader", [("ProjectileObject", "ProjectilePhaseBolt")])])].

Definition slog : QudObject :=
  mk_object "slog"
    [("part", (character_parts ++ [("Roboticized", [("ChanceOneIn", "1")])])%list);
     ("stat", [("AcidResistance", [("Value", "-20")]);
               ("HeatResistance", [("Value", "10")])]);
     ("mutation", [("Carapace", [("Level", "2")]); ("SlogGlands", [])])].

Definition chrome_idol : QudObject :=
  mk_object "chrome idol"
    [("part", (character_parts ++ [("Roboticized", [("ChanceOneIn", "1")])])%list);
     ("stat", [("HeatResistance", [("Value", "100")]);
               ("ElectricResistance", [("Value", "100")])])].

Definition chrome_plate : QudObject :=
  mk_object "chrome plate"
    [("part", [("Armor", [("AV", "3"); ("Elec", "15")]);
               ("Roboticized", [("ChanceOneIn", "1")])])].

Definition fire_crab : QudObject :=
  mk_object "fire crab"
    [("part", character_parts);
     ("stat", [("HeatResistance", [("Value", "10")])]);
     ("mutation", [("Carapace", [("Level", "2")])])].

Definition pack_rat : QudObject :=
  mk_object "pack rat"
    [("part", character_parts);
     ("inventoryobject",
      [("*Junk 1", []); ("Dagger", [("Number", "2")]);
       ("@Food", [("Chance", "50")]); ("Torch", [("Chance", "75")])])].

Definition boar : QudObject :=
  mk_object "boar"
    [("part", (character_parts
               ++ [("Corpse", [("CorpseBlueprint", "Boar Corpse");
                               ("CorpseChance", "60")])])%list)].

Definition grenade : QudObject :=
  mk_object "grenade"
    [("part", [("TinkerItem", [("CanBuild", "true"); ("CanDisassemble", "false")])])].

Definition chrome_bat : QudObject :=
  mk_object "chrome bat"
    [("part", (character_parts ++ [("Roboticized", [("ChanceOneIn", "1")])])%list);
     ("mutation", [("Wings", [("Level", "3")]);
                   ("GasGeneration", [("Level", "2"); ("GasObject", "Sleep")])])].

Definition wise_creature : QudObject :=
  mk_object "wise creature"
    [("part", character_parts);
     ("stat", [("Willpower", [("Value", "17-20")]); ("MA", [("Value", "2")])])].

Definition spry_crab : QudObject :=
  mk_object "spry crab"
    [("part", character_parts);
     ("stat", [("DV", [("Value", "1")]); ("Agility", [("Value", "20")])]);
     ("skill", [("Acrobatics", [("Dodge", "1")])]);
     ("mutation", [("Carapace", [("Level", "4")])]);
     ("inventoryobject",
      [("*Junk 1", []); ("Leather Armor", []); ("Iron Helmet", [])])].

Definition padded_armor : QudObject :=
  mk_object "Leather Armor"
    [("part", [("Armor", [("AV", "2"); ("DV", "-1"); ("WornOn", "Body")])])].

Definition light_helmet : QudObject :=
  mk_object "Iron Helmet"
    [("part", [("Armor", [("AV", "1"); ("DV", "1"); ("WornOn", "Head")])])].

Definition wardrobe : list (string * QudObject) :=
  [("Leather Armor", padded_armor); ("Iron Helmet", light_helmet)].

Definition buckler_statue : QudObject :=
  mk_object "buckler statue"
    [("part", (stationary_parts ++ [("Shield", [("DV", "-2")])])%list)].

Definition fixit_spray : QudObject :=
  mk_object "fix-it spray" [("part", [("TinkerItem", [("Bits", "0034")])])].

Definition level_12 : QudObject :=
  mk_object "level 12"
    [("part", character_parts);
     ("stat", [("Level", [("Value", "12")])])].

Definition svensword : QudObject :=
  mk_object "Svensword"
    [("part", [("Examiner", [("Complexity", "1"); ("Understanding", "0")]);
               ("AddMod", [("Mods", "ModCounterweighted,ModElectrified");
                           ("Tiers", "5,7")]);
               ("ModMasterwork", [])])].

Definition plain_sword : QudObject :=
  mk_object "plain sword"
    [("part", [("Examiner", [("Complexity", "0")]);
               ("AddMod", [("Mods", "ModCounterweighted,ModElectrified")]);
               ("ModMasterwork", [])])].

Definition sample_mod_props : mod_props :=
  [("ModCounterweighted", (true, 0)); ("ModElectrified", (false, 1));
   ("ModMasterwork", (true, 0))].

Definition complex_only_props : mod_props :=
  [("ModCounterweighted", (true, 1)); ("ModElectrified", (true, 1));
   ("ModMasterwork", (true, 2))].

Definition boulder : QudObject :=
  mk_object "Boulder"
    [("part", [("ThrownWeapon", []); ("MeleeWeapon", [("PenBonus", "3")])])].

Definition fungal_ring : QudObject :=
  mk_object "fungal ring"
    [("part", [("AddsRep", [("Faction", "Fungi:200,Consortium:-200,Apes");
                            ("Value", "50")])])].

Definition villager (factions : string) : QudObject :=
  mk_object "villager"
    [("part", [("Physics", [("Takeable", "false")]); ("Combat", []);
               ("Brain", [("Factions", factions)])])].

(** * Properties of the attribute pipeline *)

Lemma bind_ok {A B : Type} (c : result A) (k : A -> result B) (a : A) :
  c = Ok a -> bind c k = k a.
Proof. intros ->. reflexivity. Qed.

Lemma bind_raise {A B : Type} (c : result A) (k : A -> result B) (e : exn) :
  c = Raise e -> bind c k = Raise e.
Proof. intros ->. reflexivity. Qed.

(** Reading a property: what the getter returns is what is read, and a
    reading has a value only if the getter returned it. *)
Lemma property_access_ok {A : Type} (getter : result (option A)) (r : option A) :
  getter = Ok r -> property_access getter = Ok r.
Proof. intros ->. reflexivity. Qed.

Lemma property_access_inv {A : Type} (getter : result (option A)) (r : option A) :
  property_access getter = Ok r ->
  getter = Ok r \/ (getter = Raise AttributeError /\ r = None).
Proof.
  destruct getter as [a | e]; cbn [property_access try_except].
  - intros H. left. exact H.
  - destruct e; cbn [exn_eqb]; intros H; try discriminate H.
    injection H as <-. right. split; reflexivity.
Qed.

Lemma property_access_raise {A : Type} (getter : result (option A)) (e : exn) :
  getter = Raise e -> e <> AttributeError -> property_access getter = Raise e.
Proof.
  intros -> He. destruct e; try reflexivity. contradiction.
Qed.

(** ** Rounding to binary64

    [binary64] is monotone, leaves the numbers with a significand of at most
    53 bits as they are, and moves no number by more than half a unit in the
    last place. *)

Lemma floor_monotone a1 b1 a2 b2 :
  0 < b1 -> 0 < b2 -> a1 * b2 <= a2 * b1 -> a1 / b1 <= a2 / b2.
Proof.
  intros H1 H2 H.
  apply Z.div_le_lower_bound; [lia|].
  pose proof (Z.mul_div_le a1 b1 H1).
  pose proof (Z.mod_pos_bound a1 b1 H1).
  pose proof (Z.div_mod a1 b1 ltac:(lia)).
  nia.
Qed.

Lemma round_half_even_bounds a b :
  0 < b -> a / b <= round_half_even a b <= a / b + 1.
Proof.
  intros Hb. unfold round_half_even.
  destruct (2 * (a mod b) ?= b); [destruct (Z.even (a / b))| |]; lia.
Qed.

Lemma round_half_even_ge a b K :
  0 < b -> K * b <= a -> K <= round_half_even a b.
Proof.
  intros Hb H.
  pose proof (round_half_even_bounds a b Hb).
  assert (K <= a / b) by (apply Z.div_le_lower_bound; lia).
  lia.
Qed.

Lemma round_half_even_le a b K :
  0 < b -> a <= K * b -> round_half_even a b <= K.
Proof.
  intros Hb H. unfold round_half_even.
  pose proof (Z.mod_pos_bound a b Hb).
  pose proof (Z.div_mod a b ltac:(lia)).
  assert (a / b <= K) by (apply Z.div_le_upper_bound; lia).
  assert (a mod b = 0 \/ a / b < K) by nia.
  destruct (2 * (a mod b) ?= b) eqn:C;
    [apply Z.compare_eq_iff in C|rewrite Z.compare_lt_iff in C|rewrite Z.compare_gt_iff in C];
    try destruct (Z.even (a / b)); lia.
Qed.

Lemma round_half_even_exact K b : 0 < b -> round_half_even (K * b) b = K.
Proof.
  intros Hb. unfold round_half_even.
  rewrite Z.mod_mul, Z.div_mul by lia.
  destruct (Z.compare_spec (2 * 0) b); try lia; reflexivity.
Qed.

Lemma round_half_even_monotone a1 b1 a2 b2 :
  0 < b1 -> 0 < b2 -> a1 * b2 <= a2 * b1 ->
  round_half_even a1 b1 <= round_half_even a2 b2.
Proof.
  intros H1 H2 H.
  pose proof (floor_monotone a1 b1 a2 b2 H1 H2 H) as Hk.
  pose proof (round_half_even_bounds a1 b1 H1) as B1.
  pose proof (round_half_even_bounds a2 b2 H2) as B2.
  destruct (Z.eq_dec (a1 / b1) (a2 / b2)) as [E|NE]; [|lia].
  pose proof (Z.mod_pos_bound a1 b1 H1).
  pose proof (Z.mod_pos_bound a2 b2 H2).
  pose proof (Z.div_mod a1 b1 ltac:(lia)) as D1.
  pose proof (Z.div_mod a2 b2 ltac:(lia)) as D2.
  assert (Hr : (a1 mod b1) * b2 <= (a2 mod b2) * b1) by (rewrite E in D1; nia).
  unfold round_half_even. rewrite E.
  destruct (2 * (a1 mod b1) ?= b1) eqn:C1;
    [apply Z.compare_eq_iff in C1|rewrite Z.compare_lt_iff in C1|rewrite Z.compare_gt_iff in C1];
  (destruct (2 * (a2 mod b2) ?= b2) eqn:C2;
    [apply Z.compare_eq_iff in C2|rewrite Z.compare_lt_iff in C2|rewrite Z.compare_gt_iff in C2]);
  try destruct (Z.even (a2 / b2)); try lia; exfalso; nia.
Qed.

Lemma binary64_grid_nonneg n d : 0 <= n -> 0 < d -> 0 <= binary64_grid n d.
Proof.
  intros Hn Hd. unfold binary64_grid.
  set (P := 2 ^ 1074). assert (HP : 0 < P) by (apply Z.pow_pos_nonneg; lia).
  set (s := Z.max 0 (Z.log2 (n * P / d) - 52)).
  assert (Hs : 0 < 2 ^ s) by (apply Z.pow_pos_nonneg; lia).
  apply Z.mul_nonneg_nonneg; [|lia].
  apply (round_half_even_ge _ _ 0); nia.
Qed.

Lemma binary64_grid_monotone n1 d1 n2 d2 :
  0 <= n1 -> 0 < d1 -> 0 < d2 -> n1 * d2 <= n2 * d1 ->
  binary64_grid n1 d1 <= binary64_grid n2 d2.
Proof.
  intros Hn H1 H2 H. unfold binary64_grid.
  set (P := 2 ^ 1074). assert (HP : 0 < P) by (apply Z.pow_pos_nonneg; lia).
  set (N1 := n1 * P / d1). set (N2 := n2 * P / d2).
  assert (HN : N1 <= N2) by (apply floor_monotone; nia).
  assert (HN1 : 0 <= N1) by (apply Z.div_pos; nia).
  pose proof (Z.log2_le_mono N1 N2 HN) as HL.
  pose proof (Z.log2_nonneg N1) as HL1.
  set (s1 := Z.max 0 (Z.log2 N1 - 52)). set (s2 := Z.max 0 (Z.log2 N2 - 52)).
  assert (Hs1 : 0 < 2 ^ s1) by (apply Z.pow_pos_nonneg; lia).
  assert (Hs2 : 0 < 2 ^ s2) by (apply Z.pow_pos_nonneg; lia).
  destruct (Z.eq_dec s1 s2) as [E|NE].
  - rewrite E. apply Z.mul_le_mono_nonneg_r; [lia|].
    apply round_half_even_monotone; nia.
  - assert (Hlt : s1 < s2) by lia.
    assert (HN2 : 0 < N2).
    { destruct (Z.eq_dec N2 0) as [Z0|]; [|lia].
      assert (Z.log2 N2 = 0) by (rewrite Z0; reflexivity). lia. }
    assert (Hup : N1 < 2 ^ (53 + s1)).
    { destruct (Z.eq_dec N1 0) as [Z0|NZ].
      - rewrite Z0. apply Z.pow_pos_nonneg; lia.
      - apply Z.log2_lt_pow2; lia. }
    assert (Hlo : 2 ^ (52 + s2) <= N2).
    { replace (52 + s2) with (Z.log2 N2) by lia. apply Z.log2_spec; lia. }
    rewrite Z.pow_add_r in Hup, Hlo by lia.
    pose proof (Z.mul_div_le (n2 * P) d2 H2) as M2. fold N2 in M2.
    pose proof (Z.mod_pos_bound (n1 * P) d1 H1) as R1.
    pose proof (Z.div_mod (n1 * P) d1 ltac:(lia)) as D1. fold N1 in D1.
    apply Z.le_trans with (2 ^ 53 * 2 ^ s1).
    { apply Z.mul_le_mono_nonneg_r; [lia|].
      apply round_half_even_le; [nia|]. nia. }
    apply Z.le_trans with (2 ^ 52 * 2 ^ s2).
    { rewrite <- !Z.pow_add_r by lia. apply Z.pow_le_mono_r; lia. }
    apply Z.mul_le_mono_nonneg_r; [lia|].
    apply round_half_even_ge; [nia|]. nia.
Qed.

Lemma binary64_grid_exact z k :
  0 <= z < 2 ^ 53 -> 0 <= k <= 1074 ->
  binary64_grid z (2 ^ k) = z * 2 ^ (1074 - k).
Proof.
  intros Hz Hk. unfold binary64_grid.
  assert (Hpk : 0 < 2 ^ k) by (apply Z.pow_pos_nonneg; lia).
  assert (HP : 2 ^ 1074 = 2 ^ (1074 - k) * 2 ^ k).
  { rewrite <- Z.pow_add_r by lia. f_equal. lia. }
  rewrite HP, Z.mul_assoc, Z.div_mul by lia.
  set (s := Z.max 0 (Z.log2 (z * 2 ^ (1074 - k)) - 52)).
  assert (Hs : 0 <= s <= 1074 - k).
  { subst s. destruct (Z.eq_dec z 0) as [->|NZ].
    { rewrite Z.mul_0_l. change (Z.log2 0) with 0. lia. }
    rewrite Z.log2_mul_pow2 by lia.
    assert (Z.log2 z < 53) by (apply Z.log2_lt_pow2; lia).
    lia. }
  assert (Hps : 0 < 2 ^ s) by (apply Z.pow_pos_nonneg; lia).
  assert (Hsplit : 2 ^ (1074 - k) = 2 ^ (1074 - k - s) * 2 ^ s).
  { rewrite <- Z.pow_add_r by lia. f_equal. lia. }
  rewrite Hsplit.
  replace (z * (2 ^ (1074 - k - s) * 2 ^ s) * 2 ^ k)
    with (z * 2 ^ (1074 - k - s) * (2 ^ k * 2 ^ s)) by ring.
  rewrite round_half_even_exact by nia. ring.
Qed.

Lemma Qle_same_den (a b : Z) (p : positive) : a <= b -> (a # p <= b # p)%Q.
Proof. intros H. unfold Qle. cbn [Qnum Qden]. apply Z.mul_le_mono_nonneg_r; lia. Qed.

Lemma binary64_monotone (x y : Q) : (x <= y)%Q -> (binary64 x <= binary64 y)%Q.
Proof.
  destruct x as [n1 d1], y as [n2 d2]. intros H. unfold Qle in H. unfold binary64.
  cbn [Qnum Qden] in *.
  destruct (Z.ltb_spec n1 0) as [N1|N1], (Z.ltb_spec n2 0) as [N2|N2];
    rewrite !Qred_correct; apply Qle_same_den.
  - apply -> Z.opp_le_mono. apply binary64_grid_monotone; lia.
  - pose proof (binary64_grid_nonneg (- n1) (Zpos d1)).
    pose proof (binary64_grid_nonneg n2 (Zpos d2)). lia.
  - exfalso. nia.
  - apply binary64_grid_monotone; lia.
Qed.

Lemma binary64_proper (x y : Q) : (x == y)%Q -> (binary64 x == binary64 y)%Q.
Proof.
  intros H. apply Qle_antisym; apply binary64_monotone; rewrite H; apply Qle_refl.
Qed.

Lemma binary64_exact (x : Q) (z k : Z) :
  Z.abs z < 2 ^ 53 -> 0 <= k <= 1074 ->
  (x == z # Z.to_pos (2 ^ k))%Q -> (binary64 x == x)%Q.
Proof.
  intros Hz Hk Hx.
  assert (Hpk : 0 < 2 ^ k) by (apply Z.pow_pos_nonneg; lia).
  assert (HP : Zpos (2 ^ 1074) = 2 ^ (1074 - k) * 2 ^ k).
  { rewrite <- Z.pow_add_r by lia. replace (1074 - k + k) with 1074 by lia. reflexivity. }
  rewrite (binary64_proper _ _ Hx), Hx.
  unfold binary64. cbn [Qnum Qden]. rewrite Z2Pos.id by lia.
  destruct (Z.ltb_spec z 0) as [N|N]; rewrite Qred_correct, binary64_grid_exact by lia;
    unfold Qeq; cbn [Qnum Qden]; rewrite Z2Pos.id, HP by lia; ring.
Qed.

Lemma binary64_integer (n : Z) : Z.abs n < 2 ^ 53 -> (binary64 (inject_Z n) == inject_Z n)%Q.
Proof.
  intros H. apply (binary64_exact _ n 0); [lia|lia|reflexivity].
Qed.

Lemma round_half_even_near a b :
  0 < b -> Z.abs (2 * (round_half_even a b * b) - 2 * a) <= b.
Proof.
  intros Hb. unfold round_half_even.
  pose proof (Z.mod_pos_bound a b Hb).
  pose proof (Z.div_mod a b ltac:(lia)).
  destruct (2 * (a mod b) ?= b) eqn:C;
    [apply Z.compare_eq_iff in C|rewrite Z.compare_lt_iff in C|rewrite Z.compare_gt_iff in C];
    try destruct (Z.even (a / b)); nia.
Qed.

Lemma binary64_grid_near n d :
  0 <= n -> 0 < d ->
  2 ^ 54 * Z.abs (binary64_grid n d * d - n * 2 ^ 1074)
  <= 2 * (n * 2 ^ 1074) + 2 ^ 53 * d.
Proof.
  intros Hn Hd. unfold binary64_grid.
  set (P := 2 ^ 1074). assert (HP : 0 < P) by (apply Z.pow_pos_nonneg; lia).
  set (N := n * P / d).
  assert (HN : 0 <= N) by (apply Z.div_pos; nia).
  pose proof (Z.mul_div_le (n * P) d Hd) as M. fold N in M.
  set (s := Z.max 0 (Z.log2 N - 52)).
  assert (Hs : 0 < 2 ^ s) by (apply Z.pow_pos_nonneg; lia).
  pose proof (round_half_even_near (n * P) (d * 2 ^ s) ltac:(nia)) as R.
  set (m := round_half_even (n * P) (d * 2 ^ s)) in *.
  assert (Hstep : 2 ^ 52 * (2 ^ s * d) <= n * P + 2 ^ 52 * d).
  { destruct (Z.eq_dec s 0) as [E|NE].
    - rewrite E. change (2 ^ 0) with 1. nia.
    - assert (HN0 : 0 < N).
      { destruct (Z.eq_dec N 0) as [Z0|]; [|lia].
        assert (Z.log2 N = 0) by (rewrite Z0; reflexivity). lia. }
      assert (2 ^ (52 + s) <= N).
      { replace (52 + s) with (Z.log2 N) by lia. apply Z.log2_spec; lia. }
      rewrite Z.pow_add_r in * by lia. nia. }
  replace (m * 2 ^ s * d) with (m * (d * 2 ^ s)) by ring.
  change (2 ^ 54) with (2 * 2 ^ 53). change (2 ^ 53) with (2 * 2 ^ 52) in *.
  lia.
Qed.

Lemma binary64_near_nonneg (n : Z) (d : positive) :
  0 <= n ->
  (Qabs ((binary64_grid n (Zpos d) # 2 ^ 1074) - (n # d))
   <= (n # d) * (1 # 2 ^ 53) + (1 # 2 ^ 1075))%Q.
Proof.
  intros Hn.
  pose proof (binary64_grid_near n (Zpos d) Hn eq_refl) as G.
  assert (HP : 2 ^ 1074 = Zpos (2 ^ 1074)) by reflexivity.
  rewrite HP in G.
  replace (2 ^ 1075)%positive with (2 * 2 ^ 1074)%positive by reflexivity.
  change (2 ^ 53)%positive with 9007199254740992%positive.
  change (2 ^ 54) with 18014398509481984 in G.
  change (2 ^ 53) with 9007199254740992 in G.
  generalize dependent (binary64_grid n (Zpos d)). intros g G.
  generalize dependent (2 ^ 1074)%positive. intros P _ G.
  apply Qabs_Qle_condition.
  unfold Qle, Qminus, Qplus, Qopp, Qmult. cbn [Qnum Qden].
  rewrite !Pos2Z.inj_mul.
  set (D := g * Z.pos d + - n * Z.pos P).
  replace (g * Z.pos d - n * Z.pos P) with D in G by (subst D; ring).
  set (A := n * 1 * (2 * Z.pos P) + 1 * (Z.pos d * 9007199254740992)).
  replace (2 * (n * Z.pos P) + 9007199254740992 * Z.pos d) with A in G by (subst A; ring).
  set (K := Z.pos P * Z.pos d). assert (HK : 0 < K) by (subst K; lia).
  replace (D * (Z.pos d * 9007199254740992 * (2 * Z.pos P)))
    with (18014398509481984 * D * K) by (subst K; ring).
  clearbody D A K. nia.
Qed.

Lemma binary64_near (x : Q) :
  (Qabs (binary64 x - x) <= Qabs x * (1 # 2 ^ 53) + (1 # 2 ^ 1075))%Q.
Proof.
  destruct x as [n d]. unfold binary64. cbn [Qnum Qden].
  destruct (Z.ltb_spec n 0) as [N|N]; rewrite Qred_correct.
  - pose proof (binary64_near_nonneg (- n) d ltac:(lia)) as H.
    assert (E1 : ((- binary64_grid (- n) (Z.pos d) # 2 ^ 1074) - (n # d)
                  == - ((binary64_grid (- n) (Z.pos d) # 2 ^ 1074) - (- n # d)))%Q).
    { unfold Qeq, Qminus, Qplus, Qopp. cbn [Qnum Qden]. ring. }
    assert (E2 : (Qabs (n # d) == (- n # d))%Q).
    { unfold Qabs. cbn [Qnum Qden]. rewrite Z.abs_neq by lia. reflexivity. }
    rewrite E1, Qabs_opp, E2. exact H.
  - pose proof (binary64_near_nonneg n d N) as H.
    assert (E2 : (Qabs (n # d) == (n # d))%Q).
    { unfold Qabs. cbn [Qnum Qden]. rewrite Z.abs_eq by lia. reflexivity. }
    rewrite E2. exact H.
Qed.

Lemma float_of_int_exact (n : Z) :
  Z.abs n < 2 ^ 53 -> (float_of_int n == inject_Z n)%Q.
Proof. apply binary64_integer. Qed.

(** A product with a factor that is a multiple of 1/4 is exact. *)
Lemma float_mul_quarters (m k : Z) (f : Q) :
  (f == k # 4)%Q -> Z.abs m < 2 ^ 53 -> Z.abs (m * k) < 2 ^ 53 ->
  (float_mul (float_of_int m) f == inject_Z m * f)%Q.
Proof.
  intros Hf Hm Hmk. unfold float_mul.
  assert (E : (float_of_int m * f == inject_Z m * f)%Q)
    by (rewrite (float_of_int_exact m Hm); reflexivity).
  rewrite (binary64_proper _ _ E).
  apply (binary64_exact _ (m * k) 2); [assumption | lia |].
  rewrite Hf. unfold Qeq, Qmult, inject_Z. cbn [Qnum Qden].
  change (Z.pos (Z.to_pos (2 ^ 2))) with 4. change (Z.pos (1 * 4)) with 4. ring.
Qed.

Lemma binary64_fifth : binary64 (20 # 100) = 3602879701896397 # 18014398509481984.
Proof. vm_compute. reflexivity. Qed.

Lemma smallest_half_small : (0 <= 1 # 2 ^ 1075 <= 1 # 2 ^ 60)%Q.
Proof.
  split; unfold Qle; cbn [Qnum Qden]; apply Z.leb_le; vm_compute; reflexivity.
Qed.

Lemma negative_tier_factor_near (t : Z) :
  - 2 ^ 50 < t <= 0 ->
  (Qabs (float_add (float_mul (binary64 (20 # 100)) (float_of_int t)) 1
         - (1 - (1 # 5) * inject_Z (Z.abs t)))
   <= inject_Z (Z.abs t + 1) * (1 # 2 ^ 52))%Q.
Proof.
  intros Ht.
  assert (HT : (- inject_Z (2 ^ 50) <= inject_Z t <= 0)%Q).
  { split.
    - rewrite <- inject_Z_opp. rewrite <- Zle_Qle. lia.
    - change 0%Q with (inject_Z 0). rewrite <- Zle_Qle. lia. }
  assert (Habs : (inject_Z (Z.abs t) == - inject_Z t)%Q).
  { rewrite Z.abs_neq by lia. rewrite inject_Z_opp. reflexivity. }
  assert (Habs1 : (inject_Z (Z.abs t + 1) == - inject_Z t + 1)%Q).
  { rewrite inject_Z_plus, Habs. reflexivity. }
  rewrite Habs, Habs1.
  unfold float_add, float_mul.
  pose proof (float_of_int_exact t ltac:(lia)) as Hfb.
  rewrite binary64_fifth.
  set (c := 3602879701896397 # 18014398509481984).
  assert (Hp : (c * float_of_int t == c * inject_Z t)%Q) by (rewrite Hfb; reflexivity).
  pose proof (binary64_near (c * float_of_int t)) as N1.
  set (q := binary64 (c * float_of_int t)) in *.
  pose proof (binary64_near (q + 1)) as N2.
  set (f := binary64 (q + 1)) in *.
  rewrite Hp in N1.
  pose proof smallest_half_small as [He0 He1].
  set (eps := 1 # 2 ^ 1075) in *.
  change (2 ^ 53)%positive with 9007199254740992%positive in *.
  change (2 ^ 52)%positive with 4503599627370496%positive.
  change (2 ^ 60)%positive with 1152921504606846976%positive in *.
  change (inject_Z (2 ^ 50)) with (1125899906842624 # 1)%Q in HT.
  set (T := inject_Z t) in *.
  assert (Ap : (Qabs (c * T) == - (c * T))%Q).
  { apply Qabs_neg. subst c. lra. }
  rewrite Ap in N1.
  apply Qabs_Qle_condition in N1.
  assert (Ar : (Qabs (q + 1) <= 1 - c * T + (- (c * T) * (1 # 9007199254740992) + eps))%Q).
  { apply Qabs_Qle_condition. subst c. lra. }
  apply Qabs_Qle_condition in N2.
  apply Qabs_Qle_condition.
  set (a := Qabs (q + 1)) in *.
  clearbody f q a eps T. subst c. lra.
Qed.

Lemma binary64_grid_fixed (n d m s : Z) :
  0 < d -> 0 <= m < 2 ^ 53 -> 0 <= s ->
  n * 2 ^ 1074 = m * 2 ^ s * d ->
  binary64_grid n d = m * 2 ^ s.
Proof.
  intros Hd Hm Hs H. unfold binary64_grid. rewrite H.
  rewrite Z.div_mul by lia.
  set (s' := Z.max 0 (Z.log2 (m * 2 ^ s) - 52)).
  assert (Hs' : 0 <= s' <= s).
  { subst s'. destruct (Z.eq_dec m 0) as [->|NZ].
    { rewrite Z.mul_0_l. change (Z.log2 0) with 0. lia. }
    rewrite Z.log2_mul_pow2 by lia.
    assert (Z.log2 m < 53) by (apply Z.log2_lt_pow2; lia).
    lia. }
  assert (Hps : 0 < 2 ^ s') by (apply Z.pow_pos_nonneg; lia).
  assert (Hsplit : 2 ^ s = 2 ^ (s - s') * 2 ^ s').
  { rewrite <- Z.pow_add_r by lia. f_equal. lia. }
  rewrite Hsplit.
  replace (m * (2 ^ (s - s') * 2 ^ s') * d)
    with (m * 2 ^ (s - s') * (d * 2 ^ s')) by ring.
  rewrite round_half_even_exact by nia. ring.
Qed.

Lemma binary64_grid_form (n d : Z) :
  0 <= n -> 0 < d ->
  exists m s, 0 <= m < 2 ^ 53 /\ 0 <= s /\ binary64_grid n d = m * 2 ^ s.
Proof.
  intros Hn Hd. unfold binary64_grid.
  set (P := 2 ^ 1074). assert (HP : 0 < P) by (apply Z.pow_pos_nonneg; lia).
  set (N := n * P / d).
  assert (HN : 0 <= N) by (apply Z.div_pos; nia).
  set (s := Z.max 0 (Z.log2 N - 52)).
  assert (Hs : 0 < 2 ^ s) by (apply Z.pow_pos_nonneg; lia).
  assert (Hup : N < 2 ^ (53 + s)).
  { destruct (Z.eq_dec N 0) as [Z0|NZ].
    - rewrite Z0. apply Z.pow_pos_nonneg; lia.
    - apply Z.log2_lt_pow2; lia. }
  rewrite Z.pow_add_r in Hup by lia.
  pose proof (Z.mod_pos_bound (n * P) d Hd) as R1.
  pose proof (Z.div_mod (n * P) d ltac:(lia)) as D1. fold N in D1.
  assert (Hle : round_half_even (n * P) (d * 2 ^ s) <= 2 ^ 53).
  { apply round_half_even_le; [nia|]. nia. }
  assert (Hge : 0 <= round_half_even (n * P) (d * 2 ^ s)).
  { apply round_half_even_ge; nia. }
  set (r := round_half_even (n * P) (d * 2 ^ s)) in *.
  destruct (Z.eq_dec r (2 ^ 53)) as [E|NE].
  - exists (2 ^ 52), (s + 1). split; [lia|]. split; [lia|].
    rewrite E, Z.pow_add_r by lia. change (2 ^ 53) with (2 ^ 52 * 2 ^ 1). ring.
  - exists r, s. split; [lia|]. split; [lia|]. reflexivity.
Qed.

Lemma binary64_fixed (x : Q) (m s : Z) :
  Z.abs m < 2 ^ 53 -> 0 <= s ->
  (x == m * 2 ^ s # 2 ^ 1074)%Q -> is_float x.
Proof.
  intros Hm Hs Hx. unfold is_float.
  rewrite (binary64_proper _ _ Hx), Hx.
  unfold binary64. cbn [Qnum Qden].
  assert (Hp : 0 < 2 ^ s) by (apply Z.pow_pos_nonneg; lia).
  assert (HP : Z.pos (2 ^ 1074) = 2 ^ 1074) by reflexivity.
  destruct (Z.ltb_spec (m * 2 ^ s) 0) as [N|N]; rewrite Qred_correct.
  - rewrite (binary64_grid_fixed _ _ (- m) s); [| lia | nia | lia | rewrite HP; ring].
    unfold Qeq. cbn [Qnum Qden]. ring.
  - rewrite (binary64_grid_fixed _ _ m s); [| lia | nia | lia | rewrite HP; ring].
    reflexivity.
Qed.

Lemma binary64_form (x : Q) :
  exists m s, Z.abs m < 2 ^ 53 /\ 0 <= s /\ (binary64 x == m * 2 ^ s # 2 ^ 1074)%Q.
Proof.
  destruct x as [n d]. unfold binary64. cbn [Qnum Qden].
  destruct (Z.ltb_spec n 0) as [N|N].
  - destruct (binary64_grid_form (- n) (Zpos d) ltac:(lia) eq_refl)
      as (m & s & Hm & Hs & E).
    exists (- m), s. split; [lia|]. split; [lia|].
    rewrite Qred_correct, E. unfold Qeq. cbn [Qnum Qden]. ring.
  - destruct (binary64_grid_form n (Zpos d) N eq_refl) as (m & s & Hm & Hs & E).
    exists m, s. split; [lia|]. split; [lia|].
    rewrite Qred_correct, E. reflexivity.
Qed.

Lemma binary64_is_float (x : Q) : is_float (binary64 x).
Proof.
  destruct (binary64_form x) as (m & s & Hm & Hs & E).
  exact (binary64_fixed _ m s Hm Hs E).
Qed.

Lemma is_float_proper (x y : Q) : (x == y)%Q -> is_float x -> is_float y.
Proof.
  unfold is_float. intros E H. rewrite <- (binary64_proper _ _ E), H. exact E.
Qed.

Lemma is_float_form (x : Q) :
  is_float x ->
  exists m s, Z.abs m < 2 ^ 53 /\ 0 <= s /\ (x == m * 2 ^ s # 2 ^ 1074)%Q.
Proof.
  intros H. destruct (binary64_form x) as (m & s & Hm & Hs & E).
  exists m, s. split; [exact Hm|]. split; [exact Hs|].
  rewrite <- E. symmetry. exact H.
Qed.

Lemma is_float_integer (n : Z) : Z.abs n < 2 ^ 53 -> is_float (inject_Z n).
Proof. apply binary64_integer. Qed.

(** The ceiling of a float is a float. *)
Lemma ceiling_is_float (x : Q) : is_float x -> is_float (inject_Z (Qceiling x)).
Proof.
  intros H. destruct (is_float_form x H) as (m & s & Hm & Hs & E).
  assert (HP : Z.pos (2 ^ 1074) = 2 ^ 1074) by reflexivity.
  destruct (Z.le_gt_cases 1074 s) as [Hbig | Hsmall].
  - assert (Ex : (x == inject_Z (m * 2 ^ (s - 1074)))%Q).
    { rewrite E. unfold Qeq, inject_Z. cbn [Qnum Qden]. rewrite HP.
      replace (2 ^ s) with (2 ^ (s - 1074) * 2 ^ 1074)
        by (rewrite <- Z.pow_add_r by lia; f_equal; lia).
      ring. }
    rewrite (Qceiling_comp _ _ Ex), Qceiling_Z.
    apply (is_float_proper x); assumption.
  - apply is_float_integer.
    assert (Hpow : 2 * 2 ^ s <= 2 ^ 1074).
    { change (2 * 2 ^ s) with (2 ^ 1 * 2 ^ s). rewrite <- Z.pow_add_r by lia.
      apply Z.pow_le_mono_r; lia. }
    assert (Hps : 0 < 2 ^ s) by (apply Z.pow_pos_nonneg; lia).
    assert (Hlo : (inject_Z (- 2 ^ 52) <= x)%Q).
    { rewrite E. unfold Qle, inject_Z. cbn [Qnum Qden]. rewrite HP.
      change (2 ^ 52) with 4503599627370496. change (2 ^ 53) with 9007199254740992 in Hm.
      nia. }
    assert (Hhi : (x <= inject_Z (2 ^ 52))%Q).
    { rewrite E. unfold Qle, inject_Z. cbn [Qnum Qden]. rewrite HP.
      change (2 ^ 52) with 4503599627370496. change (2 ^ 53) with 9007199254740992 in Hm.
      nia. }
    apply Qceiling_resp_le in Hlo, Hhi. rewrite Qceiling_Z in Hlo, Hhi.
    change (2 ^ 52) with 4503599627370496 in *. change (2 ^ 53) with 9007199254740992.
    lia.
Qed.

(** Twice an integer float is a float. *)
Lemma double_is_float (n : Z) : is_float (inject_Z n) -> is_float (inject_Z (n + n)).
Proof.
  intros H. destruct (is_float_form _ H) as (m & s & Hm & Hs & E).
  apply (binary64_fixed _ m (s + 1)); [assumption | lia |].
  rewrite Z.pow_add_r by lia. change (2 ^ 1) with 2.
  unfold Qeq, inject_Z in *. cbn [Qnum Qden] in *. lia.
Qed.

Lemma int_of_float_between (a b : Z) (q : Q) :
  (inject_Z a <= q)%Q -> (q <= inject_Z b)%Q -> a <= int_of_float q <= b.
Proof.
  destruct q as [n d]. unfold Qle, int_of_float, inject_Z. cbn [Qnum Qden].
  rewrite !Z.mul_1_r. intros Ha Hb.
  destruct (Z.le_gt_cases 0 n) as [Hn | Hn].
  - rewrite Z.quot_div_nonneg by lia. split.
    + apply Z.div_le_lower_bound; lia.
    + apply Z.div_le_upper_bound; lia.
  - replace n with (- (- n)) by lia.
    rewrite Z.quot_opp_l by lia. rewrite Z.quot_div_nonneg by lia.
    assert (H1 : (- n) / Z.pos d <= - a) by (apply Z.div_le_upper_bound; lia).
    assert (H2 : - b <= (- n) / Z.pos d) by (apply Z.div_le_lower_bound; lia).
    lia.
Qed.

(** [int()] of a float that is half an integer. *)
Lemma int_of_float_half_eq (x : Q) (n : Z) :
  (x == inject_Z n / inject_Z 2)%Q -> int_of_float x = Z.quot n 2.
Proof.
  destruct x as [a d]. unfold Qeq, Qdiv, Qmult, Qinv, inject_Z, int_of_float.
  cbn [Qnum Qden]. rewrite !Z.mul_1_r. change (Z.pos (1 * 2)) with 2.
  intros H.
  assert (Hpos : forall a n : Z, 0 <= a -> a * 2 = n * Z.pos d ->
                   a / Z.pos d = n / 2).
  { intros a' n' Ha' H'. assert (0 <= n') by nia.
    symmetry. apply Z.div_unique with (r := a' - Z.pos d * (n' / 2)); [| ring].
    pose proof (Z.div_mod n' 2 ltac:(lia)).
    pose proof (Z.mod_pos_bound n' 2 ltac:(lia)).
    left. nia. }
  destruct (Z.le_gt_cases 0 a) as [Ha | Ha].
  - assert (0 <= n) by nia.
    rewrite !Z.quot_div_nonneg by lia. apply Hpos; assumption.
  - assert (n < 0) by nia.
    replace a with (- (- a)) by lia. replace n with (- (- n)) by lia.
    rewrite (Z.quot_opp_l (- a)), (Z.quot_opp_l (- n)) by lia. f_equal.
    rewrite !Z.quot_div_nonneg by lia. apply Hpos; lia.
Qed.

(** [int((a + b) / 2.0)] for integers whose sum is below [2 ^ 53]. *)
Lemma float_half_exact (n : Z) :
  Z.abs n < 2 ^ 53 ->
  int_of_float (float_div (float_of_int n) 2) = Z.quot n 2.
Proof.
  intros Hn. apply int_of_float_half_eq. unfold float_div, float_of_int.
  assert (E : (binary64 (inject_Z n) / inject_Z 2 == inject_Z n / inject_Z 2)%Q)
    by (rewrite (binary64_integer n Hn); reflexivity).
  rewrite (binary64_proper _ _ E).
  apply (binary64_exact _ n 1); [assumption | lia |].
  change (Z.to_pos (2 ^ 1)) with 2%positive.
  unfold Qeq, Qdiv, Qmult, Qinv, inject_Z. cbn [Qnum Qden].
  change (Z.pos (1 * 2)) with 2. ring.
Qed.

(** [int((a + b) / 2.0)] lies between two floats [a <= b]. *)
Lemma float_half_between (a b : Z) :
  a <= b -> is_float (inject_Z a) -> is_float (inject_Z b) ->
  a <= int_of_float (float_div (float_of_int (a + b)) 2) <= b.
Proof.
  intros Hab Ha Hb.
  pose proof (double_is_float a Ha) as Ha2. pose proof (double_is_float b Hb) as Hb2.
  unfold is_float in Ha, Hb, Ha2, Hb2.
  assert (Hlo : (inject_Z (a + a) <= float_of_int (a + b))%Q).
  { rewrite <- Ha2. apply binary64_monotone. rewrite <- Zle_Qle. lia. }
  assert (Hhi : (float_of_int (a + b) <= inject_Z (b + b))%Q).
  { rewrite <- Hb2. apply binary64_monotone. rewrite <- Zle_Qle. lia. }
  rewrite inject_Z_plus in Hlo, Hhi.
  apply int_of_float_between.
  - rewrite <- Ha. unfold float_div. apply binary64_monotone.
    set (x := float_of_int (a + b)) in *. set (A := inject_Z a) in *.
    clearbody x A. unfold Qdiv. change (/ 2)%Q with (1 # 2)%Q. lra.
  - rewrite <- Hb. unfold float_div. apply binary64_monotone.
    set (x := float_of_int (a + b)) in *. set (B := inject_Z b) in *.
    clearbody x B. unfold Qdiv. change (/ 2)%Q with (1 # 2)%Q. lra.
Qed.

(** The factor of a positive tier is exact. *)
Lemma positive_tier_factor_exact (t : Z) :
  0 < t < 2 ^ 50 ->
  (float_add (float_mul (25 # 100) (float_of_int t)) 1 == (1 # 4) * inject_Z t + 1)%Q.
Proof.
  intros Ht. unfold float_add, float_mul.
  assert (E1 : ((25 # 100) * float_of_int t == t # 4)%Q).
  { rewrite (float_of_int_exact t ltac:(lia)).
    unfold Qeq, Qmult, inject_Z. cbn [Qnum Qden]. lia. }
  assert (E2 : (binary64 ((25 # 100) * float_of_int t) == t # 4)%Q).
  { rewrite (binary64_proper _ _ E1).
    apply (binary64_exact _ t 2); [lia | lia | reflexivity]. }
  assert (E3 : (binary64 ((25 # 100) * float_of_int t) + 1 == (t + 4) # 4)%Q).
  { rewrite E2. unfold Qeq, Qplus. cbn [Qnum Qden]. lia. }
  rewrite (binary64_proper _ _ E3).
  rewrite (binary64_exact _ (t + 4) 2); [| lia | lia | reflexivity].
  unfold Qeq, Qplus, Qmult, inject_Z. cbn [Qnum Qden]. lia.
Qed.

(** The factor of a negative tier is below one. *)
Lemma negative_tier_factor_below_one (t : Z) :
  - 2 ^ 50 < t < 0 ->
  (float_add (float_mul (binary64 (20 # 100)) (float_of_int t)) 1 < 1)%Q.
Proof.
  intros Ht.
  pose proof (negative_tier_factor_near t ltac:(lia)) as H.
  apply Qabs_Qle_condition in H. destruct H as [_ H].
  assert (HT : (inject_Z (Z.abs t) == - inject_Z t)%Q).
  { rewrite Z.abs_neq by lia. rewrite inject_Z_opp. reflexivity. }
  assert (HT1 : (inject_Z (Z.abs t + 1) == - inject_Z t + 1)%Q).
  { rewrite inject_Z_plus, HT. reflexivity. }
  rewrite HT, HT1 in H.
  assert (Hneg : (inject_Z t <= - (1))%Q).
  { change (- (1))%Q with (inject_Z (-1)). rewrite <- Zle_Qle. lia. }
  change (2 ^ 52)%positive with 4503599627370496%positive in H.
  set (f := float_add _ _) in *. set (T := inject_Z t) in *.
  clearbody f T. lra.
Qed.

(** The views of an attribute that has a boost factor. *)
Lemma boosted_views (E : Env) (obj : QudObject) (attr mode val_str : string)
      (dice : DiceBag) (f : Q) :
  attribute_helper E obj attr = Ok (Some val_str) ->
  parse_dice val_str = Ok dice ->
  attribute_boost_factor E obj attr = Ok (Some f) ->
  attribute_helper_min_max_or_avg E obj attr mode =
    let min_val := ceil (float_mul (float_of_int (minimum dice)) f) in
    let max_val := ceil (float_mul (float_of_int (maximum dice)) f) in
    if String.eqb mode "min" then Ok (Some min_val)
    else if String.eqb mode "max" then Ok (Some max_val)
    else Ok (Some (int_of_float (float_div (float_of_int (min_val + max_val)) 2))).
Proof.
  intros Hval Hdice Hboost. unfold attribute_helper_min_max_or_avg.
  rewrite Hval. cbn [bind]. rewrite Hboost. cbn [bind].
  rewrite Hdice. reflexivity.
Qed.

(** C1 (as amended): for an attribute that resolves to a raw dice value and
    has a boost factor [f], the minimum and the maximum are the ceilings of
    the float products [rawMin * f] and [rawMax * f], each rounded up on its
    own, and the average is their float midpoint truncated toward zero by
    [int()]: the quotient of their sum by 2 toward zero, for sums below
    [2 ^ 53] in magnitude, which is the floor whenever the two boosted ends
    do not sum to a negative number.  Where [f] is a multiple of 1/4, as the
    factors of the positive tiers are, the products are exact and the two
    ends are [ceil(rawMin * f)] and [ceil(rawMax * f)] of exact
    arithmetic. *)
Theorem boosted_average_truncates
        (E : Env) (obj : QudObject) (attr val_str : string)
        (dice : DiceBag) (f : Q) :
  attribute_helper E obj attr = Ok (Some val_str) ->
  parse_dice val_str = Ok dice ->
  attribute_boost_factor E obj attr = Ok (Some f) ->
  let boosted_min := ceil (float_mul (float_of_int (minimum dice)) f) in
  let boosted_max := ceil (float_mul (float_of_int (maximum dice)) f) in
  attribute_helper_min E obj attr = Ok (Some boosted_min) /\
  attribute_helper_max E obj attr = Ok (Some boosted_max) /\
  attribute_helper_avg E obj attr
    = Ok (Some (int_of_float
                  (float_div (float_of_int (boosted_min + boosted_max)) 2))) /\
  (Z.abs (boosted_min + boosted_max) < 2 ^ 53 ->
   attribute_helper_avg E obj attr
     = Ok (Some (Z.quot (boosted_min + boosted_max) 2))) /\
  (0 <= boosted_min + boosted_max < 2 ^ 53 ->
   attribute_helper_avg E obj attr
     = Ok (Some (Qfloor (inject_Z (boosted_min + boosted_max) / inject_Z 2)))) /\
  (forall k : Z,
     (f == k # 4)%Q ->
     Z.abs (minimum dice) < 2 ^ 53 -> Z.abs (minimum dice * k) < 2 ^ 53 ->
     Z.abs (maximum dice) < 2 ^ 53 -> Z.abs (maximum dice * k) < 2 ^ 53 ->
     boosted_min = ceil (inject_Z (minimum dice) * f) /\
     boosted_max = ceil (inject_Z (maximum dice) * f)).
Proof.
  intros Hval Hdice Hboost boosted_min boosted_max.
  unfold attribute_helper_min, attribute_helper_max, attribute_helper_avg.
  rewrite !(boosted_views E obj attr _ val_str dice f Hval Hdice Hboost).
  cbn [String.eqb Ascii.eqb Bool.eqb]. cbv zeta.
  fold boosted_min boosted_max.
  split; [reflexivity |]. split; [reflexivity |]. split; [reflexivity |].
  split; [| split].
  - intros Hsum. rewrite (float_half_exact _ Hsum). reflexivity.
  - intros Hsum.
    assert (Habs : Z.abs (boosted_min + boosted_max) < 2 ^ 53) by lia.
    rewrite (float_half_exact _ Habs), <- Zdiv_Qdiv.
    rewrite Z.quot_div_nonneg by lia. reflexivity.
  - intros k Hk Hmin Hmink Hmax Hmaxk. subst boosted_min boosted_max. unfold ceil.
    split; apply Qceiling_comp; apply (float_mul_quarters _ k); assumption.
Qed.

(** The scenario of the specification: raw range 14-18 at Boost tier 2, where
    the factor is 1.5, gives 21, 27 and 24. *)
Lemma boosted_average_truncates_witness :
  attribute_boost_factor (plain_env []) strong_ape "Strength" = Ok (Some (3 # 2)) /\
  attribute_helper_min (plain_env []) strong_ape "Strength" = Ok (Some 21) /\
  attribute_helper_max (plain_env []) strong_ape "Strength" = Ok (Some 27) /\
  attribute_helper_avg (plain_env []) strong_ape "Strength" = Ok (Some 24) /\
  21 = ceil (inject_Z 14 * (3 # 2)) /\ 27 = ceil (inject_Z 18 * (3 # 2)).
Proof.
  assert (Hf : attribute_boost_factor (plain_env []) strong_ape "Strength"
               = Ok (Some (3 # 2))) by (vm_compute; reflexivity).
  destruct (boosted_average_truncates (plain_env []) strong_ape "Strength" "14-18"
              {| minimum := 14; maximum := 18; average := 32 # 2 |}
              (3 # 2) eq_refl eq_refl Hf)
    as (Hmin & Hmax & _ & Havg & _ & Hexact).
  specialize (Havg ltac:(reflexivity)).
  destruct (Hexact 6 ltac:(reflexivity) ltac:(reflexivity) ltac:(reflexivity)
              ltac:(reflexivity) ltac:(reflexivity)) as [Elo Ehi].
  split; [exact Hf |].
  split; [exact Hmin |]. split; [exact Hmax |]. split; [exact Havg |].
  split; [exact Elo | exact Ehi].
Defined.

(** C1 (as stated) fails where the boosted ends sum to a negative odd number:
    at Boost tier -6 the factor is -0.20000000000000018, the raw range 5-10
    becomes -1 and -2, and [int(-1.5)] is -1 while the floor of the midpoint
    is -2.  It fails as well where a float product is not the exact one: at
    tier -3 the factor is 0.3999999999999999 and the raw minimum -10 becomes
    -3, where [ceil(-10 * 0.4)] is -4; at tier -1 the factor is the float
    0.8, a little above 4/5, and the raw value 5 becomes 4, the product
    being rounded to 4.0, where the ceiling of the exact product is 5. *)
Lemma boosted_average_not_floor :
  (attribute_helper (plain_env []) feeble_ape "Strength" = Ok (Some "5-10") /\
   attribute_boost_factor (plain_env []) feeble_ape "Strength"
     = Ok (Some (- 225179981368525 # 1125899906842624)) /\
   attribute_helper_min (plain_env []) feeble_ape "Strength" = Ok (Some (-1)) /\
   attribute_helper_max (plain_env []) feeble_ape "Strength" = Ok (Some (-2)) /\
   attribute_helper_avg (plain_env []) feeble_ape "Strength" = Ok (Some (-1)) /\
   Qfloor (inject_Z (-1 + -2) / inject_Z 2) = -2 /\
   attribute_helper_avg (plain_env []) feeble_ape "Strength"
     <> Ok (Some (Qfloor (inject_Z (-1 + -2) / inject_Z 2)))) /\
  (attribute_helper (plain_env []) frail_ape "Strength" = Ok (Some "1d6-11") /\
   parse_dice "1d6-11"
     = Ok {| minimum := -10; maximum := -5; average := (7 # 2) + inject_Z (-11) |} /\
   attribute_boost_factor (plain_env []) frail_ape "Strength"
     = Ok (Some (900719925474099 # 2251799813685248)) /\
   attribute_helper_min (plain_env []) frail_ape "Strength" = Ok (Some (-3)) /\
   attribute_helper_max (plain_env []) frail_ape "Strength" = Ok (Some (-1)) /\
   attribute_helper_avg (plain_env []) frail_ape "Strength" = Ok (Some (-2)) /\
   ceil (inject_Z (-10) * (1 - (1 # 5) * inject_Z 3)) = -4) /\
  (attribute_boost_factor (plain_env []) slight_ape "Strength"
     = Ok (Some (3602879701896397 # 4503599627370496)) /\
   attribute_helper_min (plain_env []) slight_ape "Strength" = Ok (Some 4) /\
   ceil (inject_Z 5 * (3602879701896397 # 4503599627370496)) = 5).
Proof.
  vm_compute. repeat split; discriminate.
Qed.

(** C2: the modifier of an attribute is [(v - 16) // 2], rounded toward
    minus infinity, where [v] is the value resolved in the given statmode;
    so 16 gives 0, 15 gives -1, 18 gives 1 and 0 gives -8. *)
Theorem attribute_modifier_floor
        (E : Env) (obj : QudObject) (attr statmode : string) (v : Z) :
  In statmode ["min"; "max"; "avg"] ->
  attribute_helper_min_max_or_avg E obj attr statmode = Ok (Some v) ->
  exists m : Z,
    attribute_helper_mod E obj attr statmode = Ok (Some m) /\
    m = (v - 16) / 2 /\
    2 * m <= v - 16 < 2 * m + 2 /\
    (v = 16 -> m = 0) /\ (v = 15 -> m = -1) /\
    (v = 18 -> m = 1) /\ (v = 0 -> m = -8).
Proof.
  intros Hmode Hv. exists ((v - 16) / 2).
  split.
  - unfold attribute_helper_mod, attribute_helper_min, attribute_helper_max,
      attribute_helper_avg.
    destruct Hmode as [<- | [<- | [<- | []]]];
      cbn [String.eqb Ascii.eqb Bool.eqb]; rewrite Hv; reflexivity.
  - split; [reflexivity |].
    split.
    + pose proof (Z.div_mod (v - 16) 2 ltac:(lia)) as Hdiv.
      pose proof (Z.mod_pos_bound (v - 16) 2 ltac:(lia)) as Hmod.
      lia.
    + repeat split; intros ->; reflexivity.
Qed.

Lemma attribute_modifier_floor_witness :
  (exists m, attribute_helper_mod (plain_env []) (flat_creature "15") "Strength" "avg"
             = Ok (Some m) /\ m = -1) /\
  (exists m, attribute_helper_mod (plain_env []) strong_ape "Strength" "min"
             = Ok (Some m) /\ m = 2) /\
  (exists m, attribute_helper_mod (plain_env []) (flat_creature "0") "Strength" "max"
             = Ok (Some m) /\ m = -8).
Proof.
  split; [| split].
  - destruct (attribute_modifier_floor (plain_env []) (flat_creature "15")
                "Strength" "avg" 15 (or_intror (or_intror (or_introl eq_refl)))
                eq_refl) as (m & Hm & _ & _ & _ & H15 & _).
    exists m. exact (conj Hm (H15 eq_refl)).
  - destruct (attribute_modifier_floor (plain_env []) strong_ape
                "Strength" "min" 21 (or_introl eq_refl) eq_refl)
      as (m & Hm & Heq & _).
    exists m. exact (conj Hm Heq).
  - destruct (attribute_modifier_floor (plain_env []) (flat_creature "0")
                "Strength" "max" 0 (or_intror (or_introl eq_refl)) eq_refl)
      as (m & Hm & _ & _ & _ & _ & _ & H0).
    exists m. exact (conj Hm (H0 eq_refl)).
Defined.

(** C3 (as amended): for an active character with integer Boost tier [t] on
    an attribute that has a level-scaled value, the factor is the float
    [0.25 * t' + 1.0] when [t' > 0] and the float [0.20 * t' + 1.0]
    otherwise, where [t'] is [t] lowered by one for a minion's core
    attribute.  For a positive tier the float is exactly [1 + t' / 4]; for a
    tier that is zero or negative it is [1 - 0.20 * |t'|], a reduction, up
    to the rounding of binary64 (tiers below [2 ^ 50] in magnitude).
    Without a level-scaled value there is no factor. *)
Theorem boost_factor_by_tier (E : Env) (obj : QudObject) (attr : string) (t : Z) :
  active_or_inactive_character obj = ACTIVE_CHAR ->
  int_or_none (field obj "stat" attr "Boost") = Ok (Some t) ->
  (truthy (field obj "stat" attr "sValue") = true ->
   exists f : Q,
     attribute_boost_factor E obj attr = Ok (Some f) /\
     (0 < effective_boost E obj attr t ->
      f = float_add (float_mul (25 # 100)
                               (float_of_int (effective_boost E obj attr t))) 1 /\
      (effective_boost E obj attr t < 2 ^ 50 ->
       (f == (1 # 4) * inject_Z (effective_boost E obj attr t) + 1)%Q)) /\
     (effective_boost E obj attr t <= 0 ->
      f = float_add (float_mul (binary64 (20 # 100))
                               (float_of_int (effective_boost E obj attr t))) 1 /\
      (- 2 ^ 50 < effective_boost E obj attr t ->
       (Qabs (f - (1 - (1 # 5) * inject_Z (Z.abs (effective_boost E obj attr t))))
        <= inject_Z (Z.abs (effective_boost E obj attr t) + 1) * (1 # 2 ^ 52))%Q /\
       (effective_boost E obj attr t < 0 -> (f < 1)%Q)))) /\
  (truthy (field obj "stat" attr "sValue") = false ->
   attribute_boost_factor E obj attr = Ok None).
Proof.
  intros Hactive Hboost. unfold attribute_boost_factor.
  rewrite Hactive, Hboost. cbn [Z.eqb ACTIVE_CHAR Pos.eqb bind].
  split; intros ->; [| reflexivity].
  fold (effective_boost E obj attr t).
  set (b := effective_boost E obj attr t).
  destruct (b >? 0) eqn:Hb.
  - eexists. split; [reflexivity |]. split; intros Hsign.
    + split; [reflexivity |]. intros Hbound.
      apply positive_tier_factor_exact. lia.
    + apply Z.gtb_lt in Hb. lia.
  - eexists. split; [reflexivity |]. split; intros Hsign.
    + rewrite Z.gtb_ltb in Hb. apply Z.ltb_ge in Hb. lia.
    + split; [reflexivity |]. intros Hbound.
      pose proof (negative_tier_factor_near b ltac:(lia)) as Hnear.
      split; [exact Hnear |]. intros Hneg.
      apply (negative_tier_factor_below_one b); lia.
Qed.

Lemma boost_factor_by_tier_witness :
  (exists f : Q,
     attribute_boost_factor (plain_env []) minion_ape "Strength" = Ok (Some f) /\
     (f == (1 # 4) * inject_Z 1 + 1)%Q) /\
  (exists f : Q,
     attribute_boost_factor (plain_env []) weak_ape "Strength" = Ok (Some f) /\
     (Qabs (f - (1 - (1 # 5) * inject_Z 1)) <= inject_Z 2 * (1 # 2 ^ 52))%Q /\
     (f < 1)%Q).
Proof.
  split.
  - destruct (boost_factor_by_tier (plain_env []) minion_ape "Strength" 2
                eq_refl eq_refl) as [Hs _].
    destruct (Hs eq_refl) as (f & Hf & Hpos & _).
    exists f. split; [exact Hf | exact (proj2 (Hpos eq_refl) eq_refl)].
  - destruct (boost_factor_by_tier (plain_env []) weak_ape "Strength" (-1)
                eq_refl eq_refl) as [Hs _].
    destruct (Hs eq_refl) as (f & Hf & _ & Hneg).
    destruct (Hneg ltac:(discriminate)) as [_ Hnear].
    destruct (Hnear eq_refl) as [Hn Hlt].
    exists f. split; [exact Hf |]. split; [exact Hn | exact (Hlt eq_refl)].
Defined.

(** C3 (as stated) fails at a negative tier: at tier -1 the factor is the
    float [0.20 * (-1.0) + 1.0 = 0.8], not [0.20 * |-1| + 1.0 = 1.2]. *)
Lemma boost_factor_negative_tier_shrinks :
  int_or_none (field weak_ape "stat" "Strength" "Boost") = Ok (Some (-1)) /\
  attribute_boost_factor (plain_env []) weak_ape "Strength"
    = Ok (Some (3602879701896397 # 4503599627370496)) /\
  (3602879701896397 # 4503599627370496 < 1)%Q /\
  (1 < float_add (float_mul (binary64 (20 # 100)) (float_of_int (Z.abs (-1)))) 1)%Q /\
  attribute_boost_factor (plain_env []) weak_ape "Strength"
    <> Ok (Some (float_add (float_mul (binary64 (20 # 100))
                                      (float_of_int (Z.abs (-1)))) 1)).
Proof. vm_compute. repeat split; discriminate. Qed.

(** * Properties of the aggregated statistics *)

(** The guard [if d:] around a loop over [d] changes nothing. *)
Lemma guarded_loop {A S : Type} (step : S -> A -> result S)
      (d : option (list A)) (s : S) :
  (if nonempty d then for_each step (items d) s else Ok s)
  = for_each step (items d) s.
Proof. destruct d as [[| x l] |]; reflexivity. Qed.

Lemma guarded_loop_map {A B S : Type} (step : S -> B -> result S) (g : A -> B)
      (d : option (list A)) (s : S) :
  (if nonempty d then for_each step (map g (items d)) s else Ok s)
  = for_each step (map g (items d)) s.
Proof. destruct d as [[| x l] |]; reflexivity. Qed.

(** The flag [applied_body_av] is raised by Carapace and Quills only. *)
Lemma av_mutation_flag (st st' : Z * bool) (m : string * attrs) :
  av_mutation st m = Ok st' -> snd st' = snd st || body_mutation m.
Proof.
  destruct m as [mutation info], st as [a fl]. unfold av_mutation, body_mutation.
  cbn [fst snd].
  destruct (mutation_level info) as [l | e],
    (String.eqb mutation "Carapace"), (String.eqb mutation "Quills"),
    (String.eqb mutation "Horns"), (String.eqb mutation "MultiHorns"),
    (String.eqb mutation "SlogGlands");
    cbn [bind fst snd]; intros H; try discriminate H; injection H as <-;
    cbn [snd orb]; rewrite ?orb_true_r, ?orb_false_r; reflexivity.
Qed.

Lemma av_mutations_flag (ms : entries) :
  forall st st' : Z * bool,
    for_each av_mutation ms st = Ok st' ->
    snd st' = snd st || existsb body_mutation ms.
Proof.
  induction ms as [| m ms IH]; intros st st' H; cbn [for_each existsb] in *.
  - injection H as <-. rewrite orb_false_r. reflexivity.
  - destruct (av_mutation st m) as [st1 |] eqn:Hm; cbn [bind] in H;
      [| discriminate H].
    rewrite (IH _ _ H), (av_mutation_flag _ _ _ Hm), orb_assoc. reflexivity.
Qed.

(** One entry of the inventory adds its contribution. *)
Lemma av_inventory_adds (E : Env) (item_av : QudObject -> result (option Z))
      (applied : bool) (acc : Z) (n : string) :
  entry_resolves E item_av n = true ->
  av_inventory E item_av applied acc n
  = Ok (acc + av_contribution E item_av applied n).
Proof.
  unfold entry_resolves, av_inventory, av_contribution.
  destruct (is_placeholder n) as [[|] |]; cbn [bind]; intros H;
    try discriminate H; [rewrite Z.add_0_r; reflexivity |].
  destruct (qindex_get E n) as [item |]; cbn [bind]; [| discriminate H].
  destruct (item_av item) as [[v |] |]; cbn [bind truthy_int andb];
    [| rewrite Z.add_0_r; reflexivity | discriminate H].
  destruct (v =? 0) eqn:Hv; cbn [negb andb].
  - apply Z.eqb_eq in Hv. subst v.
    destruct (applied && is_str (wornon item) "Body"); rewrite Z.add_0_r;
      reflexivity.
  - destruct applied, (is_str (wornon item) "Body"); cbn [negb orb andb add_opt];
      rewrite ?Z.add_0_r; reflexivity.
Qed.

Lemma av_inventory_loop (E : Env) (item_av : QudObject -> result (option Z))
      (applied : bool) (names : list string) :
  forall acc : Z,
    forallb (entry_resolves E item_av) names = true ->
    for_each (av_inventory E item_av applied) names acc
    = Ok (acc + sum_Z (map (av_contribution E item_av applied) names)).
Proof.
  induction names as [| n names IH]; intros acc H; cbn [for_each map sum_Z fold_right].
  - rewrite Z.add_0_r. reflexivity.
  - cbn [forallb] in H. apply andb_true_iff in H as [Hn Hrest].
    rewrite (av_inventory_adds _ _ _ _ _ Hn). cbn [bind].
    rewrite (IH _ Hrest). fold (sum_Z (map (av_contribution E item_av applied) names)).
    f_equal. lia.
Qed.

Lemma is_str_neq (v : option string) (s : string) :
  v <> Some s -> is_str v s = false.
Proof.
  destruct v as [s' |]; cbn [is_str]; intros H; [| reflexivity].
  apply String.eqb_neq. intros ->. apply H. reflexivity.
Qed.

(** C4: the armor value of a character is its intrinsic value with the
    mutation bonuses, plus what each inventory entry contributes: a
    placeholder entry (name starting with one of [*#@]) contributes nothing;
    when a body-slot mutation (Carapace, Quills) fired, an item worn on
    ["Body"] contributes nothing; an item worn elsewhere contributes its own
    armor value whether or not the mutation fired. *)
Theorem av_counts_body_slot_once
        (E : Env) (fuel : nat) (obj : QudObject) (base bonus : Z) (applied : bool) :
  (active_or_inactive_character obj >? 0) = true ->
  int_of_field (field obj "stat" "AV" "Value") = Ok base ->
  for_each av_mutation (items (group obj "mutation")) (base, false)
    = Ok (bonus, applied) ->
  forallb (entry_resolves E (av E fuel))
          (map fst (items (group obj "inventoryobject"))) = true ->
  av E (S fuel) obj
    = Ok (Some (bonus + sum_Z (map (av_contribution E (av E fuel) applied)
                                   (map fst (items (group obj "inventoryobject"))))))
  /\ applied = existsb body_mutation (items (group obj "mutation"))
  /\ (forall n, is_placeholder n = Ok true ->
                av_contribution E (av E fuel) applied n = 0)
  /\ (forall n item v,
         is_placeholder n = Ok false ->
         qindex_get E n = Ok item ->
         av E fuel item = Ok (Some v) ->
         (applied = true -> wornon item = Some "Body" ->
          av_contribution E (av E fuel) applied n = 0)
         /\ (wornon item <> Some "Body" ->
             av_contribution E (av E fuel) applied n = v)).
Proof.
  intros Hchar Hbase Hmut Hinv. split; [| split; [| split]].
  - cbn [av]. unfold av_body. rewrite Hchar, Hbase. cbn [bind].
    rewrite guarded_loop, Hmut. cbn [bind fst snd].
    rewrite guarded_loop_map, (av_inventory_loop _ _ _ _ _ Hinv).
    reflexivity.
  - apply av_mutations_flag in Hmut. exact Hmut.
  - intros n Hn. unfold av_contribution. rewrite Hn. reflexivity.
  - intros n item v Hn Hitem Hav. unfold av_contribution.
    rewrite Hn, Hitem, Hav. split.
    + intros -> ->. reflexivity.
    + intros Hslot. rewrite (is_str_neq _ _ Hslot), andb_false_r. reflexivity.
Qed.

(** A crab with a carapace (level 4), a junk placeholder, a leather armor
    worn on the body and a helmet: 3 + (4 // 2 + 3) + 0 + 0 + 1. *)
Lemma av_counts_body_slot_once_witness :
  av (plain_env armory) 2 shelled_crab = Ok (Some 9).
Proof.
  exact (proj1 (av_counts_body_slot_once (plain_env armory) 1 shelled_crab
                  3 8 true eq_refl eq_refl eq_refl eq_refl)).
Defined.

(** Without a body-slot mutation the leather armor counts as well. *)
Example av_horned_crab : av (plain_env armory) 2 horned_crab = Ok (Some 8).
Proof. reflexivity. Qed.

(** An attribute with neither a level-scaled nor a flat field is absent, and
    so is its modifier. *)
Lemma attribute_modifier_absent (E : Env) (obj : QudObject) (attr statmode : string) :
  active_or_inactive_character obj = ACTIVE_CHAR ->
  truthy (field obj "stat" attr "sValue") = false ->
  truthy (field obj "stat" attr "Value") = false ->
  attribute_helper_mod E obj attr statmode = Ok None.
Proof.
  intros Hactive Hs Hv.
  assert (Hnone : forall mode,
             attribute_helper_min_max_or_avg E obj attr mode = Ok None).
  { intros mode. unfold attribute_helper_min_max_or_avg, attribute_helper.
    rewrite Hactive, Hs, Hv. reflexivity. }
  unfold attribute_helper_mod, attribute_helper_min, attribute_helper_max,
    attribute_helper_avg.
  destruct (String.eqb statmode "min"), (String.eqb statmode "max");
    rewrite Hnone; reflexivity.
Qed.

(** C5 (the code departs from it): a mentally shielded entity has no mental
    armor, whatever its MA and Willpower fields; an inactive character has
    mental armor 0; an active character without shield has 4 plus its MA
    stat field (when it has one) plus its Willpower modifier when it has
    one; without a Willpower stat the modifier is absent and [ma] adds
    [None] to an integer, which raises a [TypeError] where the claim expects
    a value or an absent result. *)
Theorem ma_by_character_kind (E : Env) (obj : QudObject) :
  (hasmentalshield obj = Some true -> ma E obj = Ok None)
  /\ (active_or_inactive_character obj = INACTIVE_CHAR ->
      hasmentalshield obj = None /\ ma E obj = Ok (Some 0))
  /\ (forall stat w : Z,
         active_or_inactive_character obj = ACTIVE_CHAR ->
         hasmentalshield obj <> Some true ->
         (if truthy (field obj "stat" "MA" "Value")
          then int_of_field (field obj "stat" "MA" "Value")
          else Ok 0) = Ok stat ->
         attribute_helper_mod E obj "Willpower" "avg" = Ok (Some w) ->
         ma E obj = Ok (Some (4 + stat + w)))
  /\ (forall stat : Z,
         active_or_inactive_character obj = ACTIVE_CHAR ->
         hasmentalshield obj <> Some true ->
         (if truthy (field obj "stat" "MA" "Value")
          then int_of_field (field obj "stat" "MA" "Value")
          else Ok 0) = Ok stat ->
         truthy (field obj "stat" "Willpower" "sValue") = false ->
         truthy (field obj "stat" "Willpower" "Value") = false ->
         attribute_helper_mod E obj "Willpower" "avg" = Ok None
         /\ ma E obj = Raise TypeError).
Proof.
  split; [| split; [| split]]; cycle 3.
  - intros stat Hkind Hshield Hstat Hs Hv.
    pose proof (attribute_modifier_absent E obj "Willpower" "avg" Hkind Hs Hv)
      as Hmod.
    split; [exact Hmod |]. unfold ma.
    destruct (hasmentalshield obj) as [[|] |]; try contradiction;
      rewrite Hkind; cbn [Z.eqb Pos.eqb INACTIVE_CHAR ACTIVE_CHAR];
      destruct (truthy (field obj "stat" "MA" "Value"));
      rewrite ?Hstat, Hmod; reflexivity.
  - intros Hshield. unfold ma. rewrite Hshield. reflexivity.
  - intros Hkind. unfold ma, hasmentalshield. rewrite Hkind.
    split; reflexivity.
  - intros stat w Hkind Hshield Hstat Hmod. unfold ma.
    destruct (hasmentalshield obj) as [[|] |]; try contradiction;
      rewrite Hkind; cbn [Z.eqb Pos.eqb INACTIVE_CHAR ACTIVE_CHAR];
      destruct (truthy (field obj "stat" "MA" "Value"));
      rewrite ?Hstat, Hmod; cbn [bind add_opt];
      try (injection Hstat as <-); rewrite ?Z.add_0_r; reflexivity.
Qed.

Lemma ma_by_character_kind_witness :
  ma (plain_env []) robot = Ok None
  /\ ma (plain_env []) statue = Ok (Some 0)
  /\ ma (plain_env []) (flat_creature "18") = Ok (Some 7)
  /\ (attribute_helper_mod (plain_env []) statless "Willpower" "avg" = Ok None
      /\ ma (plain_env []) statless = Raise TypeError).
Proof.
  split; [| split; [| split]]; cycle 3.
  - refine (proj2 (proj2 (proj2 (ma_by_character_kind (plain_env []) statless)))
              0 eq_refl _ eq_refl eq_refl eq_refl).
    discriminate.
  - exact (proj1 (ma_by_character_kind (plain_env []) robot) eq_refl).
  - exact (proj2 (proj1 (proj2 (ma_by_character_kind (plain_env []) statue))
                    eq_refl)).
  - refine (proj1 (proj2 (proj2 (ma_by_character_kind (plain_env [])
                                    (flat_creature "18"))))
              2 1 eq_refl _ eq_refl eq_refl).
    discriminate.
Defined.

(** * Properties of the catalog entries *)

(** A level given as a range is read as its first number by the idiom of
    [attribute_helper] and [tier], and as absent by that of [xpvalue]. *)
Lemma level_of_lv_range (l : string) (n : Z) :
  python_int l = None ->
  python_int (split_first "-" l) = Some n ->
  level_of_lv (Some l) = Ok n /\ level_or_none (Some l) = Ok None.
Proof.
  intros Hl Hn. unfold level_of_lv, level_or_none, int_or_none, int_of_field.
  rewrite Hl, Hn. split; reflexivity.
Qed.

(** C6 (as amended): when the level is a range string, attribute resolution
    and the tier take the first number of the range as the level, while the
    XP value and the XP tier are absent; none of them raises on it. *)
Theorem range_level_recovery (E : Env) (obj : QudObject) (l : string) (n : Z) :
  lv obj = Some l ->
  python_int l = None ->
  python_int (split_first "-" l) = Some n ->
  (forall attr spec,
      active_or_inactive_character obj = ACTIVE_CHAR ->
      field obj "stat" attr "sValue" = Some spec ->
      spec <> "" ->
      attribute_helper E obj attr = Ok (Some (sValue E spec n)))
  /\ (is_specified3 obj "tag" "Tier" "Value" = false ->
      is_specified3 obj "part" "TinkerItem" "Bits" = false ->
      tier obj = Ok (Some (n / 5)))
  /\ xpvalue obj = Ok None
  /\ xptier obj = Ok None.
Proof.
  intros Hlv Hl Hn.
  destruct (level_of_lv_range l n Hl Hn) as [Hfirst Hnone].
  split; [| split; [| split]].
  - intros attr spec Hactive Hspec Hne. unfold attribute_helper.
    rewrite Hactive, Hspec, Hlv, Hfirst. cbn [Z.eqb Pos.eqb ACTIVE_CHAR].
    destruct spec as [| c spec']; [contradiction |]. reflexivity.
  - intros Htier Hbits. unfold tier.
    rewrite Htier, Hbits, Hlv, Hfirst. reflexivity.
  - unfold xpvalue. rewrite Hlv, Hnone. reflexivity.
  - unfold xptier. rewrite Hlv, Hnone. reflexivity.
Qed.

Lemma range_level_recovery_witness :
  attribute_helper (plain_env []) tinker "Strength"
    = Ok (Some (sValue (plain_env []) "14-18" 18))
  /\ tier tinker = Ok (Some 3)
  /\ xpvalue tinker = Ok None
  /\ xptier tinker = Ok None.
Proof.
  destruct (range_level_recovery (plain_env []) tinker "18-29" 18
              eq_refl eq_refl eq_refl) as (Hattr & Htier & Hxp & Hxptier).
  split; [| split; [| split]].
  - apply Hattr; [reflexivity | reflexivity | discriminate].
  - exact (Htier eq_refl eq_refl).
  - exact Hxp.
  - exact Hxptier.
Defined.

(** C6 (as stated) fails for the XP value: with level ["18-29"] it is absent,
    while the level 18 would give 18 * 10. *)
Lemma xpvalue_absent_on_range_level :
  lv tinker = Some "18-29"
  /\ xpvalue tinker = Ok None
  /\ xpvalue (tinker_at "18") = Ok (Some 180)
  /\ xpvalue tinker <> xpvalue (tinker_at "18").
Proof. repeat split. discriminate. Qed.

Lemma chargeused_part_adds (obj : QudObject) (acc : Z) (part : string) :
  charge_readable obj part = true ->
  chargeused_part obj acc part = Ok (acc + charge_of obj part).
Proof.
  unfold charge_readable, chargeused_part, charge_of, int_of_field.
  destruct (String.eqb part "ProgrammableRecoiler"); cbn [orb].
  - intros _. rewrite Z.add_0_r. reflexivity.
  - destruct (field obj "part" part "ChargeUse") as [chg |].
    + destruct (python_int chg) as [n |]; cbn [is_none negb bind];
        [| discriminate].
      intros _. destruct (n >? 0); rewrite ?Z.add_0_r; reflexivity.
    + intros _. rewrite Z.add_0_r. reflexivity.
Qed.

Lemma chargeused_loop (obj : QudObject) (parts : list string) :
  forall acc : Z,
    forallb (charge_readable obj) parts = true ->
    for_each (chargeused_part obj) parts acc
    = Ok (acc + sum_Z (map (charge_of obj) parts)).
Proof.
  induction parts as [| p parts IH]; intros acc H;
    cbn [for_each map sum_Z fold_right].
  - rewrite Z.add_0_r. reflexivity.
  - cbn [forallb] in H. apply andb_true_iff in H as [Hp Hrest].
    rewrite (chargeused_part_adds _ _ _ Hp). cbn [bind].
    rewrite (IH _ Hrest). fold (sum_Z (map (charge_of obj) parts)).
    f_equal. lia.
Qed.

Lemma chargefunction_part_appends
      (obj : QudObject) (st : list string * list string) (part : string) :
  charge_readable obj part = true ->
  chargefunction_part obj st part
  = Ok (if uses_charge obj part
        then (app (fst st) [charge_func obj part],
              app (snd st) [detailed (charge_func obj part) (charge_text obj part)])
        else st).
Proof.
  unfold charge_readable, chargefunction_part, uses_charge, charge_of,
    charge_text, int_of_field.
  destruct (String.eqb part "ProgrammableRecoiler"); cbn [orb];
    [reflexivity |].
  destruct (field obj "part" part "ChargeUse") as [chg |]; [| reflexivity].
  destruct (python_int chg) as [n |]; cbn [is_none negb bind]; [| discriminate].
  intros _. rewrite Z.gtb_ltb. destruct (0 <? n) eqn:Hn; [rewrite Hn |];
    reflexivity.
Qed.

Lemma chargefunction_loop (obj : QudObject) (parts : list string) :
  forall st : list string * list string,
    forallb (charge_readable obj) parts = true ->
    for_each (chargefunction_part obj) parts st
    = Ok (app (fst st) (map (charge_func obj) (filter (uses_charge obj) parts)),
          app (snd st)
              (map (fun p => detailed (charge_func obj p) (charge_text obj p))
                   (filter (uses_charge obj) parts))).
Proof.
  induction parts as [| p parts IH]; intros st H; cbn [for_each filter].
  - cbn [map]. rewrite !app_nil_r. destruct st. reflexivity.
  - cbn [forallb] in H. apply andb_true_iff in H as [Hp Hrest].
    rewrite (chargefunction_part_appends _ _ _ Hp). cbn [bind].
    rewrite (IH _ Hrest).
    destruct (uses_charge obj p); cbn [fst snd map]; [| reflexivity].
    rewrite <- !app_assoc. reflexivity.
Qed.

Lemma charge_of_nonneg (obj : QudObject) (part : string) : 0 <= charge_of obj part.
Proof.
  unfold charge_of.
  destruct (String.eqb part "ProgrammableRecoiler"); [lia |].
  destruct (field obj "part" part "ChargeUse") as [chg |]; [| lia].
  destruct (python_int chg) as [n |]; [| lia].
  destruct (n >? 0) eqn:Hn; [apply Z.gtb_lt in Hn |]; lia.
Qed.

(** Only the parts that use charge count in the sum. *)
Lemma charge_sum_filter (obj : QudObject) (parts : list string) :
  sum_Z (map (charge_of obj) parts)
  = sum_Z (map (charge_of obj) (filter (uses_charge obj) parts)).
Proof.
  induction parts as [| p parts IH]; [reflexivity |].
  cbn [map filter]. destruct (uses_charge obj p) eqn:Hp.
  - cbn [map sum_Z fold_right]. fold sum_Z. unfold sum_Z in IH |- *.
    rewrite IH. reflexivity.
  - unfold uses_charge in Hp. apply Z.ltb_ge in Hp.
    pose proof (charge_of_nonneg obj p) as Hnn.
    unfold sum_Z in IH |- *. cbn [fold_right]. rewrite IH. lia.
Qed.

(** C7: the charge used is the sum of the positive charge uses of the parts,
    [ProgrammableRecoiler] left out, replaced by the override of the object's
    name when the table has one, and absent when it is not positive; with two
    contributing parts using 5 and 10 and no override it is 15, and the
    charge function lists both parts with their amounts in brackets. *)
Theorem chargeused_sums_parts (E : Env) (obj : QudObject) (parts : list string) :
  part_names obj = Ok parts ->
  forallb (charge_readable obj) parts = true ->
  chargeused E obj
    = (let total :=
         match assoc (name obj) (HARDCODED_CHARGE_USE E) with
         | Some c => c
         | None => sum_Z (map (charge_of obj) parts)
         end in
       Ok (if total >? 0 then Some total else None))
  /\ charge_of obj "ProgrammableRecoiler" = 0
  /\ (forall p1 p2 : string,
         filter (uses_charge obj) parts = [p1; p2] ->
         charge_of obj p1 = 5 ->
         charge_of obj p2 = 10 ->
         assoc (name obj) (HARDCODED_CHARGE_USE E) = None ->
         chargeused E obj = Ok (Some 15)
         /\ chargefunction E obj
            = Ok (Some (join ", "
                          (detailed (charge_func obj p1) (charge_text obj p1)
                           :: detailed (charge_func obj p2) (charge_text obj p2)
                           :: match assoc (name obj) (CHARGE_USE_REASONS E) with
                              | Some reason => [reason]
                              | None => []
                              end)))).
Proof.
  intros Hparts Hread.
  assert (Hused : chargeused E obj
    = (let total :=
         match assoc (name obj) (HARDCODED_CHARGE_USE E) with
         | Some c => c
         | None => sum_Z (map (charge_of obj) parts)
         end in
       Ok (if total >? 0 then Some total else None))).
  { unfold chargeused. rewrite Hparts. cbn [bind].
    rewrite (chargeused_loop _ _ _ Hread). cbn [bind]. rewrite Z.add_0_l.
    cbv zeta. destruct (assoc (name obj) (HARDCODED_CHARGE_USE E)) as [c |];
      destruct (_ >? 0); reflexivity. }
  split; [exact Hused |]. split; [reflexivity |].
  intros p1 p2 Hcontrib H1 H2 Hover. split.
  - rewrite Hused, Hover, charge_sum_filter, Hcontrib.
    cbn [map sum_Z fold_right]. rewrite H1, H2. reflexivity.
  - unfold chargefunction. rewrite Hparts. cbn [bind].
    rewrite (chargefunction_loop _ _ _ Hread), Hcontrib.
    cbn [bind fst snd app map]. rewrite Hover.
    destruct (assoc (name obj) (CHARGE_USE_REASONS E)) as [reason |];
      reflexivity.
Qed.

Lemma chargeused_sums_parts_witness :
  chargeused (plain_env []) stun_teleporter = Ok (Some 15)
  /\ chargefunction (plain_env []) stun_teleporter
     = Ok (Some "Stun effect [5], Teleportation [10]").
Proof.
  exact (proj2 (proj2 (chargeused_sums_parts (plain_env []) stun_teleporter
                         ["Physics"; "StunOnHit"; "Teleporter"] eq_refl eq_refl))
           "StunOnHit" "Teleporter" eq_refl eq_refl eq_refl eq_refl).
Defined.

(** C8 (the code departs from it): for a character without an AV stat field
    [av] evaluates [int(None)], and for an active character without an
    Agility stat [dv] adds [None] to an integer; both raise a [TypeError]
    where the claim expects an absent result. *)
Theorem av_dv_raise_without_stat (E : Env) (fuel : nat) (obj : QudObject) :
  ((active_or_inactive_character obj >? 0) = true ->
   field obj "stat" "AV" "Value" = None ->
   av E (S fuel) obj = Raise TypeError)
  /\ (forall armor_dv stat_dv : option Z,
         active_or_inactive_character obj = ACTIVE_CHAR ->
         int_or_none (field obj "part" "Armor" "DV") = Ok armor_dv ->
         field obj "part" "Shield" "DV" = None ->
         is_specified3 obj "part" "Brain" "Mobile" = false ->
         int_or_none (field obj "stat" "DV" "Value") = Ok stat_dv ->
         truthy (field obj "stat" "Agility" "sValue") = false ->
         truthy (field obj "stat" "Agility" "Value") = false ->
         dv E (S fuel) obj = Raise TypeError).
Proof.
  split.
  - intros Hchar Hav. cbn [av]. unfold av_body. rewrite Hchar, Hav. reflexivity.
  - intros armor_dv stat_dv Hactive Harmor Hshield Hmobile Hstat Hs Hv.
    cbn [dv]. unfold dv_body.
    rewrite Harmor, Hshield, Hactive, Hmobile. cbn [bind Z.eqb Pos.eqb
      INACTIVE_CHAR ACTIVE_CHAR andb].
    rewrite (attribute_modifier_absent E obj "Agility" "avg" Hactive Hs Hv).
    unfold int_or_none in Hstat.
    destruct (field obj "stat" "DV" "Value") as [s |]; [| reflexivity].
    destruct (int_of_field (Some s)) as [n | e]; [reflexivity | discriminate].
Qed.

Lemma av_dv_raise_without_stat_witness :
  av (plain_env []) 1 statless = Raise TypeError
  /\ av (plain_env []) 1 statue = Raise TypeError
  /\ dv (plain_env []) 1 statless = Raise TypeError.
Proof.
  split; [| split].
  - exact (proj1 (av_dv_raise_without_stat (plain_env []) 0 statless)
             eq_refl eq_refl).
  - exact (proj1 (av_dv_raise_without_stat (plain_env []) 0 statue)
             eq_refl eq_refl).
  - exact (proj2 (av_dv_raise_without_stat (plain_env []) 0 statless)
             None None eq_refl eq_refl eq_refl eq_refl eq_refl eq_refl eq_refl).
Defined.

(** C9 (the code departs from it): when a mutation changes the quickness and
    the Speed stat is present, the property returns the Speed stat alone;
    the mutation counts only over the base 100 of an absent Speed stat. *)
Theorem quickness_drops_mutation_bonus (obj : QudObject) (mutation_val : Z) :
  active_or_inactive_character obj = ACTIVE_CHAR ->
  for_each quickness_mutation (items (group obj "mutation")) 0 = Ok mutation_val ->
  mutation_val <> 0 ->
  (forall (s : string) (speed : Z),
      field obj "stat" "Speed" "Value" = Some s ->
      python_int s = Some speed ->
      quickness obj = Ok (Some speed))
  /\ (field obj "stat" "Speed" "Value" = None ->
      quickness obj = Ok (Some (mutation_val + 100))).
Proof.
  intros Hactive Hmut Hne.
  assert (Hq : quickness obj
               = match field obj "stat" "Speed" "Value" with
                 | None => Ok (Some (mutation_val + 100))
                 | Some s => n <- int_of_field (Some s) ;; Ok (Some n)
                 end).
  { unfold quickness. rewrite Hactive. cbn [Z.eqb Pos.eqb ACTIVE_CHAR].
    rewrite guarded_loop, Hmut. cbn [bind].
    apply Z.eqb_neq in Hne. rewrite Hne. reflexivity. }
  split.
  - intros s speed Hs Hspeed. rewrite Hq, Hs. unfold int_of_field.
    rewrite Hspeed. reflexivity.
  - intros Hs. rewrite Hq, Hs. reflexivity.
Qed.

(** Speed 100 with HeightenedSpeed at level 1 gives 100, not 100 + 15; with
    ColdBlooded it gives 100, not 90. *)
Lemma quickness_drops_mutation_bonus_witness :
  quickness quick_runner = Ok (Some 100)
  /\ quickness cold_runner = Ok (Some 100)
  /\ quickness quick_runner_no_speed = Ok (Some 115)
  /\ quickness cold_runner_no_speed = Ok (Some 90).
Proof.
  assert (H15 : 15 <> 0) by discriminate.
  assert (H10 : -10 <> 0) by discriminate.
  split; [| split; [| split]].
  - exact (proj1 (quickness_drops_mutation_bonus quick_runner 15
                    eq_refl eq_refl H15) "100" 100 eq_refl eq_refl).
  - exact (proj1 (quickness_drops_mutation_bonus cold_runner (-10)
                    eq_refl eq_refl H10) "100" 100 eq_refl eq_refl).
  - exact (proj2 (quickness_drops_mutation_bonus quick_runner_no_speed 15
                    eq_refl eq_refl H15) eq_refl).
  - exact (proj2 (quickness_drops_mutation_bonus cold_runner_no_speed (-10)
                    eq_refl eq_refl H10) eq_refl).
Defined.

Lemma projectile_object_raises (E : Env) (obj : QudObject) (e : exn) :
  projectile_object E obj = Raise e -> e = KeyError.
Proof.
  unfold projectile_object.
  destruct (negb (is_none (entry obj "part" "MissileWeapon"))
            || is_specified2 obj "part" "AmmoArrow"); [| discriminate].
  induction projectile_parts as [| part parts IH]; cbn [projectile_loop];
    [discriminate |].
  destruct (field obj "part" part "ProjectileObject") as [[| c n] |];
    try exact IH.
  unfold qindex_get. destruct (assoc (String c n) (qindex E)); cbn [bind];
    [discriminate | intros [= <-]; reflexivity].
Qed.

(** C10 (as amended): the getter of [omniphaseprojectile] returns exactly
    when the projectile lookup yields an object; it then returns [True] when
    the projectile specifies the part [OmniphaseProjectile] or the tag
    [Omniphase], and nothing otherwise.  When the lookup yields nothing the
    getter raises [AttributeError], as it reads an attribute of [None], and
    the attribute fallback of the object answers: the property reads as
    [None].  So the property is [True] exactly when the lookup yields a
    projectile with the part or the tag, it is [None] in every other case
    where the lookup returns, and reading it fails only where the lookup
    fails, with [KeyError]. *)
Theorem omniphaseprojectile_needs_projectile (E : Env) (obj : QudObject) :
  ((exists r, omniphaseprojectile_getter E obj = Ok r)
   <-> (exists p, projectile_object E obj = Ok (Some p)))
  /\ (forall p, projectile_object E obj = Ok (Some p) ->
        (omniphaseprojectile E obj = Ok (Some true)
         <-> (is_specified2 p "part" "OmniphaseProjectile"
              || is_specified2 p "tag" "Omniphase") = true)
        /\ (omniphaseprojectile E obj = Ok None
            <-> (is_specified2 p "part" "OmniphaseProjectile"
                 || is_specified2 p "tag" "Omniphase") = false))
  /\ (projectile_object E obj = Ok None ->
      omniphaseprojectile_getter E obj = Raise AttributeError
      /\ omniphaseprojectile E obj = Ok None)
  /\ (is_none (entry obj "part" "MissileWeapon") = true ->
      is_specified2 obj "part" "AmmoArrow" = false ->
      omniphaseprojectile E obj = Ok None)
  /\ (omniphaseprojectile E obj = Ok (Some true)
      <-> (exists p, projectile_object E obj = Ok (Some p)
                     /\ (is_specified2 p "part" "OmniphaseProjectile"
                         || is_specified2 p "tag" "Omniphase") = true))
  /\ ((exists r, omniphaseprojectile E obj = Ok r)
      <-> (exists q, projectile_object E obj = Ok q))
  /\ (forall e, projectile_object E obj = Raise e ->
        e = KeyError /\ omniphaseprojectile E obj = Raise KeyError).
Proof.
  unfold omniphaseprojectile, omniphaseprojectile_getter.
  split; [| split; [| split; [| split; [| split; [| split]]]]].
  - destruct (projectile_object E obj) as [[p |] | e]; cbn [bind]; split.
    + intros _. exists p. reflexivity.
    + intros _.
      destruct (is_specified2 p "part" "OmniphaseProjectile"
                || is_specified2 p "tag" "Omniphase"); eexists; reflexivity.
    + intros [r Hr]. discriminate Hr.
    + intros [p Hp]. discriminate Hp.
    + intros [r Hr]. discriminate Hr.
    + intros [p Hp]. discriminate Hp.
  - intros p ->. cbn [bind].
    destruct (is_specified2 p "part" "OmniphaseProjectile"
              || is_specified2 p "tag" "Omniphase");
      split; split; intros H; try reflexivity; discriminate H.
  - intros ->. split; reflexivity.
  - intros Hweapon Harrow. unfold projectile_object.
    rewrite Hweapon, Harrow. reflexivity.
  - destruct (projectile_object E obj) as [[p |] | e]; cbn [bind]; split.
    + destruct (is_specified2 p "part" "OmniphaseProjectile"
                || is_specified2 p "tag" "Omniphase") eqn:Hflag;
        [| discriminate].
      intros _. exists p. split; [reflexivity | exact Hflag].
    + intros (p' & [= <-] & ->). reflexivity.
    + discriminate.
    + intros (p' & Hp & _). discriminate Hp.
    + destruct e; discriminate.
    + intros (p' & Hp & _). discriminate Hp.
  - destruct (projectile_object E obj) as [[p |] | e] eqn:Hp; cbn [bind]; split.
    + intros _. eexists. reflexivity.
    + intros _.
      destruct (is_specified2 p "part" "OmniphaseProjectile"
                || is_specified2 p "tag" "Omniphase"); eexists; reflexivity.
    + intros _. eexists. reflexivity.
    + intros _. eexists. reflexivity.
    + rewrite (projectile_object_raises E obj e Hp). intros [r Hr]. discriminate Hr.
    + intros [q Hq]. discriminate Hq.
  - intros e He. pose proof (projectile_object_raises E obj e He) as ->.
    rewrite He. split; reflexivity.
Qed.

Lemma omniphaseprojectile_needs_projectile_witness :
  omniphaseprojectile (plain_env ammunition) (rifle "ProjectilePhaseBolt")
    = Ok (Some true)
  /\ omniphaseprojectile (plain_env ammunition) (rifle "ProjectileLeadSlug")
     = Ok None
  /\ (omniphaseprojectile_getter (plain_env ammunition) (rifle "")
      = Raise AttributeError
      /\ omniphaseprojectile (plain_env ammunition) (rifle "") = Ok None)
  /\ omniphaseprojectile (plain_env ammunition) bandage = Ok None
  /\ omniphaseprojectile (plain_env ammunition) (rifle "ProjectileLost")
     = Raise KeyError.
Proof.
  split; [| split; [| split; [| split]]].
  - exact (proj2 (proj1 (proj1 (proj2 (omniphaseprojectile_needs_projectile
             (plain_env ammunition) (rifle "ProjectilePhaseBolt")))
             phase_bolt eq_refl)) eq_refl).
  - exact (proj2 (proj2 (proj1 (proj2 (omniphaseprojectile_needs_projectile
             (plain_env ammunition) (rifle "ProjectileLeadSlug")))
             lead_slug eq_refl)) eq_refl).
  - exact (proj1 (proj2 (proj2 (omniphaseprojectile_needs_projectile
             (plain_env ammunition) (rifle "")))) eq_refl).
  - exact (proj1 (proj2 (proj2 (proj2 (omniphaseprojectile_needs_projectile
             (plain_env ammunition) bandage)))) eq_refl eq_refl).
  - exact (proj2 (proj2 (proj2 (proj2 (proj2 (proj2 (proj2
             (omniphaseprojectile_needs_projectile
                (plain_env ammunition) (rifle "ProjectileLost")))))))
             KeyError eq_refl)).
Defined.

(** C10 (as stated) fails where the projectile lookup yields nothing: a
    bandage is no weapon, the lookup yields [None], the getter raises
    [AttributeError], and the property reads as [None], so its evaluation
    is defined there and gives the absent value. *)
Lemma omniphaseprojectile_absent_without_projectile :
  projectile_object (plain_env ammunition) bandage = Ok None
  /\ omniphaseprojectile_getter (plain_env ammunition) bandage
     = Raise AttributeError
  /\ omniphaseprojectile (plain_env ammunition) bandage = Ok None.
Proof. repeat split. Qed.

(** * Further properties of the catalog *)

(** The projectile loop returns the object named by the first loader, in
    the fixed order, whose [ProjectileObject] is not empty. *)
Lemma projectile_loop_first (E : Env) (obj : QudObject) (p : QudObject) :
  forall parts : list string,
    projectile_loop E obj parts = Ok (Some p) ->
    exists (before : list string) (part : string) (after : list string) (n : string),
      parts = (before ++ part :: after)%list
      /\ forallb (fun q => negb (truthy (field obj "part" q "ProjectileObject")))
                 before = true
      /\ field obj "part" part "ProjectileObject" = Some n
      /\ n <> ""
      /\ assoc n (qindex E) = Some p.
Proof.
  induction parts as [| part parts IH]; cbn [projectile_loop]; intros H.
  - discriminate H.
  - destruct (field obj "part" part "ProjectileObject") as [[| c s] |] eqn:Hf.
    + destruct (IH H) as (before & part' & after & n & -> & Hb & Hn & Hne & Hp).
      exists (part :: before), part', after, n.
      cbn [forallb app]. rewrite Hf. cbn [truthy negb andb]. repeat split; assumption.
    + unfold qindex_get in H.
      destruct (assoc (String c s) (qindex E)) as [item |] eqn:Hidx;
        cbn [bind] in H; [| discriminate H].
      injection H as <-. exists [], part, parts, (String c s).
      repeat split; [assumption | discriminate | assumption].
    + destruct (IH H) as (before & part' & after & n & -> & Hb & Hn & Hne & Hp).
      exists (part :: before), part', after, n.
      cbn [forallb app]. rewrite Hf. cbn [truthy negb andb]. repeat split; assumption.
Qed.

(** X1: when [projectile_object] yields an object, the object has a
    [MissileWeapon] part or specifies [AmmoArrow], and the result is the
    entry of the index named by the first loader, in the order
    BioAmmoLoader, AmmoArrow, MagazineAmmoLoader, EnergyAmmoLoader,
    LiquidAmmoLoader, whose [ProjectileObject] is not empty. *)
Theorem projectile_object_first_loader (E : Env) (obj p : QudObject) :
  projectile_object E obj = Ok (Some p) ->
  (is_none (entry obj "part" "MissileWeapon") = false
   \/ is_specified2 obj "part" "AmmoArrow" = true)
  /\ exists (before : list string) (part : string) (after : list string) (n : string),
      projectile_parts = (before ++ part :: after)%list
      /\ forallb (fun q => negb (truthy (field obj "part" q "ProjectileObject")))
                 before = true
      /\ field obj "part" part "ProjectileObject" = Some n
      /\ n <> ""
      /\ assoc n (qindex E) = Some p.
Proof.
  unfold projectile_object. intros H.
  destruct (is_none (entry obj "part" "MissileWeapon")) eqn:Hw;
    destruct (is_specified2 obj "part" "AmmoArrow") eqn:Ha;
    cbn [negb orb] in H; try discriminate H;
    (split; [auto | apply (projectile_loop_first E obj p _ H)]).
Qed.

(** The bio loader wins over the magazine loader. *)
Lemma projectile_object_first_loader_witness :
  exists (before : list string) (part : string) (after : list string) (n : string),
    projectile_parts = (before ++ part :: after)%list
    /\ forallb (fun q => negb (truthy (field two_loader_rifle "part" q
                                              "ProjectileObject")))
               before = true
    /\ field two_loader_rifle "part" part "ProjectileObject" = Some n
    /\ n <> ""
    /\ assoc n (qindex (plain_env ammunition)) = Some phase_bolt.
Proof.
  exact (proj2 (projectile_object_first_loader (plain_env ammunition)
                  two_loader_rifle phase_bolt eq_refl)).
Defined.

(** For the element Acid the mutation loop never raises; it ends on 100 once
    it has met SlogGlands. *)
Lemma resistance_acid_loop (ms : entries) :
  forall val : option pyval,
  exists v : option pyval,
    for_each (resistance_mutation "Acid") ms val = Ok v
    /\ (val = Some (VInt 100) -> v = Some (VInt 100))
    /\ (In "SlogGlands" (map fst ms) -> v = Some (VInt 100)).
Proof.
  induction ms as [| [mutation info] ms IH]; intros val; cbn [for_each map In].
  - exists val. repeat split; [auto | intros []].
  - unfold resistance_mutation at 1.
    cbn [String.eqb Ascii.eqb Bool.eqb orb]. rewrite andb_false_r. cbn [bind].
    rewrite andb_true_r.
    destruct (String.eqb mutation "SlogGlands") eqn:Hm; cbn [bind fst].
    + destruct (IH (Some (VInt 100))) as (v & Hv & Hkeep & _).
      exists v. rewrite (Hkeep eq_refl) in *. repeat split; auto.
    + destruct (IH val) as (v & Hv & Hkeep & Hin).
      exists v. repeat split; [assumption | assumption |].
      intros [Heq | Hrest]; [| auto].
      apply String.eqb_neq in Hm. cbn [fst] in Heq. contradiction.
Qed.

(** X2: an object with the mutation SlogGlands has acid resistance 100,
    whatever its stat field, its armor and its other mutations; the
    computation cannot raise. *)
Theorem acid_of_slog_glands (obj : QudObject) :
  In "SlogGlands" (map fst (items (group obj "mutation"))) ->
  acid obj = Ok (Some 100).
Proof.
  intros Hin. unfold acid, resistance.
  rewrite andb_false_r. cbv zeta. rewrite guarded_loop.
  match goal with
  | |- context [for_each _ _ ?val] =>
      destruct (resistance_acid_loop (items (group obj "mutation")) val)
        as (v & Hv & _ & Hslog)
  end.
  rewrite Hv, (Hslog Hin). reflexivity.
Qed.

Lemma acid_of_slog_glands_witness : acid slog = Ok (Some 100).
Proof.
  apply acid_of_slog_glands. right. left. reflexivity.
Defined.

(** X3: a fully roboticized object without mutations has heat and cold
    resistance 25 whatever its stats; its electric resistance is -50 unless
    it is a piece of armor, for which the element was renamed to [Elec]
    before the test and the armor field stays. *)
Theorem resistance_of_roboticized (obj : QudObject) :
  roboticized obj = true ->
  nonempty (group obj "mutation") = false ->
  heat obj = Ok (Some 25)
  /\ cold obj = Ok (Some 25)
  /\ (nonempty (entry obj "part" "Armor") = false -> electric obj = Ok (Some (-50)))
  /\ (nonempty (entry obj "part" "Armor") = true ->
      electric obj = int_or_none (field obj "part" "Armor" "Elec")).
Proof.
  intros Hrobot Hmut. unfold heat, cold, electric, resistance.
  rewrite Hrobot, Hmut. cbn [String.eqb Ascii.eqb Bool.eqb]. cbv zeta.
  rewrite !andb_false_r. cbn [orb bind int_of_pyval].
  repeat split.
  - intros ->. reflexivity.
  - intros ->. cbn [andb String.eqb Ascii.eqb Bool.eqb].
    destruct (field obj "part" "Armor" "Elec") as [s |]; cbn [pyval_of_field
      option_map bind int_of_pyval int_or_none]; reflexivity.
Qed.

Lemma resistance_of_roboticized_witness :
  heat chrome_idol = Ok (Some 25)
  /\ electric chrome_idol = Ok (Some (-50))
  /\ electric chrome_plate = Ok (Some 15).
Proof.
  destruct (resistance_of_roboticized chrome_idol eq_refl eq_refl)
    as (Hheat & _ & Helec & _).
  destruct (resistance_of_roboticized chrome_plate eq_refl eq_refl)
    as (_ & _ & _ & Harmor).
  exact (conj Hheat (conj (Helec eq_refl) (Harmor eq_refl))).
Defined.

(** X4: for a creature that is neither armor nor roboticized and whose only
    mutation is Carapace at level [l], the heat and cold resistances are the
    stat fields, 0 when absent, plus [5 * l + 5]. *)
Theorem resistance_of_carapace
        (obj : QudObject) (info : attrs) (l : Z) (heat0 cold0 : option Z) :
  nonempty (entry obj "part" "Armor") = false ->
  roboticized obj = false ->
  group obj "mutation" = Some [("Carapace", info)] ->
  mutation_level info = Ok l ->
  int_or_none (field obj "stat" "HeatResistance" "Value") = Ok heat0 ->
  int_or_none (field obj "stat" "ColdResistance" "Value") = Ok cold0 ->
  heat obj = Ok (Some (match heat0 with Some b => b | None => 0 end + (l * 5 + 5)))
  /\ cold obj = Ok (Some (match cold0 with Some b => b | None => 0 end + (l * 5 + 5))).
Proof.
  intros Harmor Hrobot Hmut Hlevel Hheat Hcold.
  unfold heat, cold, resistance.
  rewrite Harmor, Hrobot, Hmut. cbn [andb nonempty items for_each]. cbv zeta.
  unfold resistance_mutation. cbn [String.eqb Ascii.eqb Bool.eqb andb orb].
  rewrite Hlevel. cbn [append]. unfold int_or_none in Hheat, Hcold.
  split.
  - destruct (field obj "stat" "HeatResistance" "Value") as [s |];
      cbn [pyval_of_field option_map int_of_pyval bind] in *.
    + destruct (int_of_field (Some s)) as [n |]; cbn [bind] in *;
        [| discriminate Hheat].
      injection Hheat as <-. reflexivity.
    + injection Hheat as <-. reflexivity.
  - destruct (field obj "stat" "ColdResistance" "Value") as [s |];
      cbn [pyval_of_field option_map int_of_pyval bind] in *.
    + destruct (int_of_field (Some s)) as [n |]; cbn [bind] in *;
        [| discriminate Hcold].
      injection Hcold as <-. reflexivity.
    + injection Hcold as <-. reflexivity.
Qed.

Lemma resistance_of_carapace_witness :
  heat fire_crab = Ok (Some 25) /\ cold fire_crab = Ok (Some 15).
Proof.
  exact (resistance_of_carapace fire_crab [("Level", "2")] 2 (Some 10) None
           eq_refl eq_refl eq_refl eq_refl eq_refl eq_refl).
Defined.

Lemma assoc_in_keys {A : Type} (l : list (string * A)) (k : string) :
  In k (map fst l) -> exists v, assoc k l = Some v.
Proof.
  induction l as [| [k' v'] l IH]; cbn [map In assoc fst]; intros H; [destruct H |].
  destruct (String.eqb k k') eqn:Hk; [eexists; reflexivity |].
  destruct H as [<- | H]; [| exact (IH H)].
  rewrite String.eqb_refl in Hk. discriminate Hk.
Qed.

(** The names kept by the loop of [inventory]. *)
Lemma inventory_loop (inv : entries) (names : list string) :
  forall ret : list (string * string * string * string),
    (forall n, In n names -> In n (map fst inv)) ->
    ~ In "" names ->
    exists kept : list (string * string * string * string),
      for_each (inventory_entry inv) names ret = Ok (app ret kept)
      /\ map (fun e => fst (fst (fst e))) kept
         = filter (fun n => match is_placeholder n with
                            | Ok false => true
                            | _ => false
                            end) names
      /\ Forall (fun e =>
                   snd (fst e) = "no"
                   /\ exists data, assoc (fst (fst (fst e))) inv = Some data
                      /\ snd (fst (fst e)) = get_default data "Number" "1"
                      /\ snd e = get_default data "Chance" "100") kept.
Proof.
  induction names as [| n names IH]; intros ret Hkeys Hne; cbn [for_each filter].
  - exists []. rewrite app_nil_r. repeat split. constructor.
  - assert (Hn : n <> "") by (intros ->; apply Hne; left; reflexivity).
    destruct n as [| c s]; [contradiction |].
    unfold inventory_entry at 1. cbn [is_placeholder bind].
    destruct (IH ret (fun n H => Hkeys n (or_intror H))
                 (fun H => Hne (or_intror H))) as (kept0 & Hloop0 & Hnames0 & Hall0).
    destruct (char_in c "*#@") eqn:Hc.
    + exists kept0. repeat split; assumption.
    + destruct (assoc_in_keys inv (String c s) (Hkeys _ (or_introl eq_refl)))
        as [data Hdata].
      rewrite Hdata. cbn [bind].
      set (e := (String c s, get_default data "Number" "1", "no",
                 get_default data "Chance" "100")).
      destruct (IH (app ret [e]) (fun n H => Hkeys n (or_intror H))
                   (fun H => Hne (or_intror H))) as (kept & Hloop & Hnames & Hall).
      exists (e :: kept). rewrite Hloop, <- app_assoc. cbn [app map fst snd].
      rewrite Hnames. repeat split.
      constructor; [| exact Hall].
      cbn [fst snd]. split; [reflexivity |]. exists data. repeat split. exact Hdata.
Qed.

(** X5: the inventory of an object lists, in order, exactly the entries
    whose name does not start with one of [*#@], each with its number
    (default "1"), the constant "no" and its chance (default "100"); an
    object without an inventory has none, and an entry with an empty name
    raises an [IndexError]. *)
Theorem inventory_skips_placeholders (obj : QudObject) (inv : entries) :
  group obj "inventoryobject" = Some inv ->
  (~ In "" (map fst inv) ->
   exists kept : list (string * string * string * string),
     inventory obj = Ok (Some kept)
     /\ map (fun e => fst (fst (fst e))) kept
        = filter (fun n => match is_placeholder n with
                           | Ok false => true
                           | _ => false
                           end) (map fst inv)
     /\ Forall (fun e =>
                  snd (fst e) = "no"
                  /\ exists data, assoc (fst (fst (fst e))) inv = Some data
                     /\ snd (fst (fst e)) = get_default data "Number" "1"
                     /\ snd e = get_default data "Chance" "100") kept)
  /\ (In "" (map fst inv) -> inventory obj = Raise IndexError).
Proof.
  intros Hinv. unfold inventory. rewrite Hinv. split.
  - intros Hne.
    destruct (inventory_loop inv (map fst inv) [] (fun n H => H) Hne)
      as (kept & Hloop & Hnames & Hall).
    exists kept. rewrite Hloop. cbn [bind app]. repeat split; assumption.
  - intros Hin.
    assert (Hloop : forall names ret,
               (forall n, In n names -> In n (map fst inv)) ->
               In "" names ->
               for_each (inventory_entry inv) names ret = Raise IndexError).
    { induction names as [| n names IH]; intros ret Hkeys H; [destruct H |].
      cbn [for_each]. destruct n as [| c s]; [reflexivity |].
      destruct H as [H | H]; [discriminate H |].
      unfold inventory_entry at 1. cbn [is_placeholder bind].
      destruct (char_in c "*#@");
        [exact (IH _ (fun n Hn => Hkeys n (or_intror Hn)) H) |].
      destruct (assoc_in_keys inv (String c s) (Hkeys _ (or_introl eq_refl)))
        as [data Hdata].
      rewrite Hdata. cbn [bind].
      exact (IH _ (fun n Hn => Hkeys n (or_intror Hn)) H). }
    rewrite (Hloop _ _ (fun n H => H) Hin). reflexivity.
Qed.

Lemma inventory_skips_placeholders_witness :
  exists kept : list (string * string * string * string),
    inventory pack_rat = Ok (Some kept)
    /\ map (fun e => fst (fst (fst e))) kept = ["Dagger"; "Torch"].
Proof.
  destruct (inventory_skips_placeholders pack_rat
              [("*Junk 1", []); ("Dagger", [("Number", "2")]);
               ("@Food", [("Chance", "50")]); ("Torch", [("Chance", "75")])]
              eq_refl) as [Hok _].
  assert (Hne : ~ In "" (map fst
              [("*Junk 1", @nil (string * string)); ("Dagger", [("Number", "2")]);
               ("@Food", [("Chance", "50")]); ("Torch", [("Chance", "75")])])).
  { cbn. intros [H | [H | [H | [H | []]]]]; discriminate H. }
  destruct (Hok Hne) as (kept & Hinv & Hnames & _).
  exists kept. split; [exact Hinv | exact Hnames].
Defined.

(** X6: an object drops a corpse only when it has a corpse chance: whenever
    [corpse] returns a blueprint, [corpsechance] returns a positive chance;
    conversely a blueprint with a positive chance is returned. With a
    blueprint and no chance field [corpse] raises a [TypeError] while
    [corpsechance] is absent. *)
Theorem corpse_needs_chance (obj : QudObject) :
  (forall blueprint, corpse obj = Ok (Some blueprint) ->
     field obj "part" "Corpse" "CorpseBlueprint" = Some blueprint
     /\ exists n, corpsechance obj = Ok (Some n) /\ 0 < n)
  /\ (forall blueprint n,
        field obj "part" "Corpse" "CorpseBlueprint" = Some blueprint ->
        corpsechance obj = Ok (Some n) ->
        corpse obj = Ok (Some blueprint))
  /\ (field obj "part" "Corpse" "CorpseBlueprint" <> None ->
      field obj "part" "Corpse" "CorpseChance" = None ->
      corpse obj = Raise TypeError /\ corpsechance obj = Ok None).
Proof.
  unfold corpse, corpsechance. split; [| split].
  - intros blueprint H.
    destruct (field obj "part" "Corpse" "CorpseBlueprint") as [b |];
      [| discriminate H].
    destruct (field obj "part" "Corpse" "CorpseChance") as [chance |];
      [| discriminate H].
    destruct (int_of_field (Some chance)) as [n |]; cbn [bind] in *;
      [| discriminate H].
    destruct (n >? 0) eqn:Hn; cbn [andb] in *; [| discriminate H].
    destruct (leaves_corpse obj); [| discriminate H].
    injection H as <-. split; [reflexivity |].
    exists n. split; [reflexivity | apply Z.gtb_lt; assumption].
  - intros blueprint n -> H.
    destruct (field obj "part" "Corpse" "CorpseChance") as [chance |];
      [| discriminate H].
    destruct (int_of_field (Some chance)) as [m |]; cbn [bind] in *;
      [| discriminate H].
    destruct ((m >? 0) && leaves_corpse obj); [reflexivity | discriminate H].
  - intros Hb ->.
    destruct (field obj "part" "Corpse" "CorpseBlueprint"); [| contradiction].
    split; reflexivity.
Qed.

Lemma corpse_needs_chance_witness :
  exists n, corpsechance boar = Ok (Some n) /\ 0 < n.
Proof.
  exact (proj2 (proj1 (corpse_needs_chance boar) "Boar Corpse" eq_refl)).
Defined.

(** X7: [canbuild] and [candisassemble] are absent together; when present
    they are never both [False], and each is [False] only when the other is
    [True]. *)
Theorem canbuild_candisassemble (obj : QudObject) :
  (canbuild obj = None <-> candisassemble obj = None)
  /\ (canbuild obj = Some false -> candisassemble obj = Some true)
  /\ (candisassemble obj = Some false -> canbuild obj = Some true)
  /\ (canbuild obj = Some true
      <-> field obj "part" "TinkerItem" "CanBuild" = Some "true").
Proof.
  unfold canbuild, candisassemble, is_str.
  destruct (field obj "part" "TinkerItem" "CanBuild") as [b |];
    destruct (field obj "part" "TinkerItem" "CanDisassemble") as [d |];
    try destruct (String.eqb b "true") eqn:Hb;
    try destruct (String.eqb d "true") eqn:Hd;
    try (apply String.eqb_eq in Hb; subst b);
    try (apply String.eqb_neq in Hb);
    repeat split; intros H; try reflexivity; try discriminate H;
    try (injection H as ->; contradiction).
Qed.

Lemma mutations_loop (d : entries) :
  forall ms : list (string * Z),
    forallb level_readable d = true ->
    exists l : list (string * Z),
      for_each mutations_entry d ms = Ok (app ms l)
      /\ map fst l = map (fun m => fst m ++ get_default (snd m) "GasObject" "") d.
Proof.
  induction d as [| [mutation data] d IH]; intros ms H; cbn [for_each map].
  - exists []. rewrite app_nil_r. split; reflexivity.
  - cbn [forallb] in H. apply andb_true_iff in H as [Hm Hd].
    unfold mutations_entry at 1. unfold level_readable in Hm. cbn [snd] in Hm.
    assert (Hlevel : exists level,
               match assoc "Level" data with
               | Some l => int_of_field (Some l)
               | None => Ok 0
               end = Ok level).
    { destruct (assoc "Level" data) as [l |]; [| eexists; reflexivity].
      unfold int_of_field. destruct (python_int l) as [n |];
        [eexists; reflexivity | discriminate Hm]. }
    destruct Hlevel as [level ->]. cbn [bind].
    destruct (IH (app ms [(mutation ++ get_default data "GasObject" "", level)]) Hd)
      as (l & Hl & Hnames).
    exists ((mutation ++ get_default data "GasObject" "", level) :: l).
    rewrite Hl, <- app_assoc. cbn [app map fst snd]. rewrite Hnames.
    split; reflexivity.
Qed.

(** X8: [mutations] lists one entry per mutation, in order, named by the
    mutation followed by its gas object; a fully roboticized object gets the
    entry [("DarkVision", 12)] appended unless a mutation is called
    NightVision or DarkVision, so its list is never absent. *)
Theorem mutations_of_roboticized (obj : QudObject) :
  forallb level_readable (items (group obj "mutation")) = true ->
  exists l : list (string * Z),
    map fst l = map (fun m => fst m ++ get_default (snd m) "GasObject" "")
                    (items (group obj "mutation"))
    /\ (roboticized obj = false ->
        mutations obj = Ok (match l with [] => None | _ => Some l end))
    /\ (roboticized obj = true ->
        existsb sees_in_the_dark (map fst (items (group obj "mutation"))) = true ->
        l <> [] /\ mutations obj = Ok (Some l))
    /\ (roboticized obj = true ->
        existsb sees_in_the_dark (map fst (items (group obj "mutation"))) = false ->
        mutations obj = Ok (Some (app l [("DarkVision", 12)]))).
Proof.
  intros Hread. unfold mutations.
  destruct (group obj "mutation") as [d |] eqn:Hd; cbn [items] in *.
  - destruct (mutations_loop d [] Hread) as (l & Hl & Hnames).
    exists l. rewrite Hl. cbn [app bind]. split; [exact Hnames |].
    split; [| split].
    + intros ->. destruct l; reflexivity.
    + intros -> Hdark. rewrite Hdark. cbn [negb].
      destruct l as [| e l]; [| split; [discriminate | reflexivity]].
      destruct d; [discriminate Hdark | discriminate Hnames].
    + intros -> Hdark. rewrite Hdark. cbn [negb].
      destruct l; reflexivity.
  - exists []. cbn [bind map]. split; [reflexivity |]. split; [| split].
    + intros ->. reflexivity.
    + intros _ Hdark. discriminate Hdark.
    + intros -> _. reflexivity.
Qed.

Lemma mutations_of_roboticized_witness :
  exists l : list (string * Z),
    map fst l = ["Wings"; "GasGenerationSleep"]
    /\ mutations chrome_bat = Ok (Some (app l [("DarkVision", 12)])).
Proof.
  destruct (mutations_of_roboticized chrome_bat eq_refl)
    as (l & Hnames & _ & _ & Hdark).
  exists l. split; [exact Hnames | exact (Hdark eq_refl eq_refl)].
Defined.

(** X9: for an active character without mental shield whose MA stat and
    Willpower modifiers resolve, [marange] is the decimal text of
    [4 + stat + lo] when the modifiers [lo] of the minimum and [hi] of the
    maximum agree, and otherwise the dice text [a+1db] with [a + 1] the
    lowest and [a + b] the highest mental armor; for an inactive character
    it is absent (where [ma] is 0). *)
Theorem marange_encodes_bounds (E : Env) (obj : QudObject) :
  (active_or_inactive_character obj = INACTIVE_CHAR -> marange E obj = Ok None)
  /\ (forall stat lo hi : Z,
         active_or_inactive_character obj = ACTIVE_CHAR ->
         hasmentalshield obj <> Some true ->
         (if truthy (field obj "stat" "MA" "Value")
          then int_of_field (field obj "stat" "MA" "Value")
          else Ok 0) = Ok stat ->
         attribute_helper_mod E obj "Willpower" "min" = Ok (Some lo) ->
         attribute_helper_mod E obj "Willpower" "max" = Ok (Some hi) ->
         exists text : string,
           marange E obj = Ok (Some text)
           /\ (lo = hi -> text = str_of_int (4 + stat + lo))
           /\ (lo <> hi ->
               exists a b : Z,
                 text = str_of_int a ++ "+1d" ++ str_of_int b
                 /\ a + 1 = 4 + stat + lo
                 /\ a + b = 4 + stat + hi)).
Proof.
  split.
  - intros Hkind. unfold marange, hasmentalshield. rewrite Hkind. reflexivity.
  - intros stat lo hi Hkind Hshield Hstat Hlo Hhi.
    assert (Hbody :
      marange E obj
      = if lo =? hi then Ok (Some (str_of_int (4 + stat + lo)))
        else Ok (Some (str_of_int (4 + stat + lo - 1) ++ "+1d"
                       ++ str_of_int (hi - lo + 1)))).
    { unfold marange.
      destruct (hasmentalshield obj) as [[|] |]; try contradiction;
        rewrite Hkind; cbn [Z.eqb Pos.eqb INACTIVE_CHAR ACTIVE_CHAR];
        destruct (truthy (field obj "stat" "MA" "Value"));
        rewrite ?Hstat, Hlo, Hhi; cbn [bind add_opt sub_opt opt_Z_eqb];
        try (injection Hstat as <-); rewrite ?Z.add_0_r;
        destruct (lo =? hi); reflexivity. }
    rewrite Hbody. destruct (lo =? hi) eqn:Heq.
    + apply Z.eqb_eq in Heq. eexists. split; [reflexivity |].
      split; [reflexivity | contradiction].
    + apply Z.eqb_neq in Heq. eexists. split; [reflexivity |].
      split; [contradiction |]. intros _.
      exists (4 + stat + lo - 1), (hi - lo + 1). repeat split; lia.
Qed.

Lemma marange_encodes_bounds_witness :
  exists text : string,
    marange (plain_env []) wise_creature = Ok (Some text)
    /\ exists a b : Z,
        text = str_of_int a ++ "+1d" ++ str_of_int b
        /\ a + 1 = 4 + 2 + 0
        /\ a + b = 4 + 2 + 2.
Proof.
  assert (Hshield : hasmentalshield wise_creature <> Some true) by discriminate.
  assert (Hne : 0 <> 2) by discriminate.
  destruct (proj2 (marange_encodes_bounds (plain_env []) wise_creature)
              2 0 2 eq_refl Hshield eq_refl eq_refl eq_refl)
    as (text & Htext & _ & Hrange).
  exists text. split; [exact Htext | exact (Hrange Hne)].
Defined.

(** X10: the dodge value of an object with a shield DV field is that field,
    whatever the object is; without it an inactive character has -10, and so
    has an active character that specifies [Mobile] as false. *)
Theorem dv_fixed_values (E : Env) (fuel : nat) (obj : QudObject) (armor_dv : option Z) :
  int_or_none (field obj "part" "Armor" "DV") = Ok armor_dv ->
  (forall s, field obj "part" "Shield" "DV" = Some s ->
             dv E (S fuel) obj = int_or_none (Some s))
  /\ (field obj "part" "Shield" "DV" = None ->
      active_or_inactive_character obj = INACTIVE_CHAR ->
      dv E (S fuel) obj = Ok (Some (-10)))
  /\ (field obj "part" "Shield" "DV" = None ->
      active_or_inactive_character obj = ACTIVE_CHAR ->
      is_specified3 obj "part" "Brain" "Mobile" = true ->
      is_str (field obj "part" "Brain" "Mobile") "false"
      || is_str (field obj "part" "Brain" "Mobile") "False" = true ->
      dv E (S fuel) obj = Ok (Some (-10)))
  /\ (field obj "part" "Shield" "DV" = None ->
      active_or_inactive_character obj = 0 ->
      dv E (S fuel) obj = Ok armor_dv).
Proof.
  intros Harmor. cbn [dv]. unfold dv_body. rewrite Harmor. cbn [bind].
  split; [| split; [| split]].
  - intros s ->. reflexivity.
  - intros -> ->. reflexivity.
  - intros -> -> -> ->. reflexivity.
  - intros -> ->. reflexivity.
Qed.

Lemma dv_fixed_values_witness :
  dv (plain_env []) 1 buckler_statue = Ok (Some (-2))
  /\ dv (plain_env []) 1 statue = Ok (Some (-10)).
Proof.
  split.
  - exact (proj1 (dv_fixed_values (plain_env []) 0 buckler_statue None eq_refl)
             "-2" eq_refl).
  - exact (proj1 (proj2 (dv_fixed_values (plain_env []) 0 statue None eq_refl))
             eq_refl eq_refl).
Defined.

Lemma dv_mutations_loop (ms : entries) :
  forall st : Z * bool,
    for_each dv_mutation ms st
    = Ok (fst st - 2 * Z.of_nat (List.length (filter is_carapace ms)),
          snd st || existsb is_carapace ms).
Proof.
  induction ms as [| m ms IH]; intros [d fl]; cbn [for_each filter existsb fst snd].
  - rewrite orb_false_r. cbn [List.length Z.of_nat]. rewrite Z.mul_0_r, Z.sub_0_r.
    reflexivity.
  - unfold dv_mutation at 1.
    change (String.eqb (fst m) "Carapace") with (is_carapace m).
    destruct (is_carapace m); cbn [bind fst snd]; rewrite IH;
      cbn [fst snd List.length orb]; rewrite ?orb_true_r; [| reflexivity].
    rewrite Nat2Z.inj_succ. do 2 f_equal. lia.
Qed.

(** X11: the dodge value of an active, mobile character without shield DV
    is 6 plus its DV stat, 2 for the skill Dodge, 1 for Tumble, its Agility
    modifier, -2 for a Carapace, and the dodge values of its inventory:
    nothing for placeholders nor, under a Carapace, for items worn on the
    body. *)
Theorem dv_of_active_character
        (E : Env) (fuel : nat) (obj : QudObject)
        (armor_dv stat_dv : option Z) (agility : Z) :
  active_or_inactive_character obj = ACTIVE_CHAR ->
  int_or_none (field obj "part" "Armor" "DV") = Ok armor_dv ->
  field obj "part" "Shield" "DV" = None ->
  is_specified3 obj "part" "Brain" "Mobile"
  && (is_str (field obj "part" "Brain" "Mobile") "false"
      || is_str (field obj "part" "Brain" "Mobile") "False") = false ->
  int_or_none (field obj "stat" "DV" "Value") = Ok stat_dv ->
  attribute_helper_mod E obj "Agility" "avg" = Ok (Some agility) ->
  forallb (entry_resolves E (dv E fuel))
          (map fst (items (group obj "inventoryobject"))) = true ->
  dv E (S fuel) obj
  = Ok (Some (6 + match stat_dv with Some n => n | None => 0 end
              + (if truthy (field obj "skill" "Acrobatics" "Dodge") then 2 else 0)
              + (if truthy (field obj "skill" "Acrobatics" "Tumble") then 1 else 0)
              + agility
              - 2 * Z.of_nat (List.length (filter is_carapace
                                        (items (group obj "mutation"))))
              + sum_Z (map (dv_contribution E (dv E fuel)
                              (existsb is_carapace (items (group obj "mutation"))))
                           (map fst (items (group obj "inventoryobject")))))).
Proof.
  intros Hactive Harmor Hshield Hmobile Hstat Hagility Hinv.
  cbn [dv]. unfold dv_body.
  rewrite Harmor, Hshield, Hactive, Hmobile, Hagility.
  cbn [bind Z.eqb Pos.eqb INACTIVE_CHAR ACTIVE_CHAR].
  assert (Hbase :
    match field obj "stat" "DV" "Value" with
    | Some s => n <- int_of_field (Some s) ;; Ok (6 + n)
    | None => Ok 6
    end = Ok (6 + match stat_dv with Some n => n | None => 0 end)).
  { unfold int_or_none in Hstat.
    destruct (field obj "stat" "DV" "Value") as [s |].
    - destruct (int_of_field (Some s)) as [n |]; cbn [bind] in *;
        [injection Hstat as <-; reflexivity | discriminate Hstat].
    - injection Hstat as <-. rewrite Z.add_0_r. reflexivity. }
  rewrite Hbase. cbn [bind add_opt].
  rewrite guarded_loop, dv_mutations_loop. cbn [bind fst snd orb].
  rewrite guarded_loop_map.
  change (dv_inventory E (dv E fuel)) with (av_inventory E (dv E fuel)).
  rewrite (av_inventory_loop _ _ _ _ _ Hinv). unfold dv_contribution.
  cbn [bind]. do 2 f_equal.
  generalize (sum_Z (map (av_contribution E (dv E fuel)
                            (existsb is_carapace (items (group obj "mutation"))))
                         (map fst (items (group obj "inventoryobject"))))).
  generalize (Z.of_nat (List.length (filter is_carapace
                                       (items (group obj "mutation"))))).
  intros carapaces worn.
  destruct stat_dv, (truthy (field obj "skill" "Acrobatics" "Dodge")),
    (truthy (field obj "skill" "Acrobatics" "Tumble")); lia.
Qed.

(** 6 + 1 + 2 (Dodge) + 2 (Agility 20) - 2 (Carapace) + 0 (body armor) + 1. *)
Lemma dv_of_active_character_witness :
  dv (plain_env wardrobe) 2 spry_crab = Ok (Some 10).
Proof.
  exact (dv_of_active_character (plain_env wardrobe) 1 spry_crab None (Some 1) 2
           eq_refl eq_refl eq_refl eq_refl eq_refl eq_refl eq_refl).
Defined.

(** Boosting by a factor that is not negative keeps the order of two raw
    values. *)
Lemma boosted_end_monotone (a b : Z) (f : Q) :
  (inject_Z a <= inject_Z b)%Q -> (0 <= f)%Q ->
  ceil (float_mul (float_of_int a) f) <= ceil (float_mul (float_of_int b) f).
Proof.
  intros Hab Hf. unfold ceil, float_mul, float_of_int.
  apply Qceiling_resp_le. apply binary64_monotone.
  apply Qmult_le_compat_r; [apply binary64_monotone |]; assumption.
Qed.

(** The views of an attribute that has no boost factor. *)
Lemma plain_views (E : Env) (obj : QudObject) (attr mode val_str : string)
      (dice : DiceBag) :
  attribute_helper E obj attr = Ok (Some val_str) ->
  parse_dice val_str = Ok dice ->
  attribute_boost_factor E obj attr = Ok None ->
  attribute_helper_min_max_or_avg E obj attr mode =
    if String.eqb mode "min" then Ok (Some (minimum dice))
    else if String.eqb mode "max" then Ok (Some (maximum dice))
    else Ok (Some (int_of_float (average dice))).
Proof.
  intros Hval Hdice Hboost. unfold attribute_helper_min_max_or_avg.
  rewrite Hval. cbn [bind]. rewrite Hboost. cbn [bind].
  rewrite Hdice. reflexivity.
Qed.

(** X12: when the raw dice value is ordered (minimum <= average <= maximum)
    and the boost factor, if any, is not negative, the resolved minimum,
    average and maximum of an attribute are ordered, and so are the three
    modifiers. *)
Theorem attribute_views_ordered
        (E : Env) (obj : QudObject) (attr val_str : string) (dice : DiceBag)
        (boost : option Q) :
  attribute_helper E obj attr = Ok (Some val_str) ->
  parse_dice val_str = Ok dice ->
  (inject_Z (minimum dice) <= average dice)%Q ->
  (average dice <= inject_Z (maximum dice))%Q ->
  attribute_boost_factor E obj attr = Ok boost ->
  match boost with Some f => (0 <= f)%Q | None => True end ->
  exists lo mid hi : Z,
    attribute_helper_min E obj attr = Ok (Some lo)
    /\ attribute_helper_avg E obj attr = Ok (Some mid)
    /\ attribute_helper_max E obj attr = Ok (Some hi)
    /\ lo <= mid <= hi
    /\ attribute_helper_mod E obj attr "min" = Ok (Some ((lo - 16) / 2))
    /\ attribute_helper_mod E obj attr "avg" = Ok (Some ((mid - 16) / 2))
    /\ attribute_helper_mod E obj attr "max" = Ok (Some ((hi - 16) / 2))
    /\ (lo - 16) / 2 <= (mid - 16) / 2 <= (hi - 16) / 2.
Proof.
  intros Hval Hdice Hlo Hhi Hboost Hsign.
  assert (Hraw : (inject_Z (minimum dice) <= inject_Z (maximum dice))%Q)
    by (eapply Qle_trans; eassumption).
  assert (Hviews : exists lo mid hi : Z,
             attribute_helper_min E obj attr = Ok (Some lo)
             /\ attribute_helper_avg E obj attr = Ok (Some mid)
             /\ attribute_helper_max E obj attr = Ok (Some hi)
             /\ lo <= mid <= hi).
  { unfold attribute_helper_min, attribute_helper_avg, attribute_helper_max.
    destruct boost as [f |].
    - rewrite !(boosted_views E obj attr _ val_str dice f Hval Hdice Hboost).
      cbn [String.eqb Ascii.eqb Bool.eqb]. cbv zeta.
      do 3 eexists. repeat split.
      + apply float_half_between;
          [apply boosted_end_monotone; assumption
          | apply ceiling_is_float, binary64_is_float
          | apply ceiling_is_float, binary64_is_float].
      + apply float_half_between;
          [apply boosted_end_monotone; assumption
          | apply ceiling_is_float, binary64_is_float
          | apply ceiling_is_float, binary64_is_float].
    - rewrite !(plain_views E obj attr _ val_str dice Hval Hdice Hboost).
      cbn [String.eqb Ascii.eqb Bool.eqb].
      do 3 eexists. repeat split;
        apply (int_of_float_between (minimum dice) (maximum dice)); assumption. }
  destruct Hviews as (lo & mid & hi & Hmin & Havg & Hmax & Hle1 & Hle2).
  exists lo, mid, hi.
  unfold attribute_helper_mod. cbn [String.eqb Ascii.eqb Bool.eqb].
  rewrite Hmin, Havg, Hmax. cbn [bind].
  repeat split; try assumption; apply Z.div_le_mono; lia.
Qed.

Lemma attribute_views_ordered_witness :
  exists lo mid hi : Z,
    attribute_helper_min (plain_env []) strong_ape "Strength" = Ok (Some lo)
    /\ attribute_helper_avg (plain_env []) strong_ape "Strength" = Ok (Some mid)
    /\ attribute_helper_max (plain_env []) strong_ape "Strength" = Ok (Some hi)
    /\ lo <= mid <= hi.
Proof.
  assert (H1 : (inject_Z 14 <= 32 # 2)%Q) by (unfold Qle; cbn; lia).
  assert (H2 : (32 # 2 <= inject_Z 18)%Q) by (unfold Qle; cbn; lia).
  assert (H3 : (0 <= 3 # 2)%Q) by (unfold Qle; cbn; lia).
  assert (Hf : attribute_boost_factor (plain_env []) strong_ape "Strength"
               = Ok (Some (3 # 2))) by (vm_compute; reflexivity).
  destruct (attribute_views_ordered (plain_env []) strong_ape "Strength" "14-18"
              {| minimum := 14; maximum := 18; average := 32 # 2 |}
              (Some (3 # 2))
              eq_refl eq_refl H1 H2 Hf H3)
    as (lo & mid & hi & Hmin & Havg & Hmax & Hle & _).
  exists lo, mid, hi. repeat split; try assumption; apply Hle.
Defined.

Lemma digit_of_bounded (c : ascii) (d : Z) : digit_of c = Some d -> 0 <= d <= 9.
Proof.
  unfold digit_of.
  destruct ((48 <=? Z.of_N (N_of_ascii c)) && (Z.of_N (N_of_ascii c) <=? 57))
    eqn:H; [| discriminate].
  apply andb_true_iff in H as [H1 H2].
  apply Z.leb_le in H1, H2. intros [= <-]. lia.
Qed.

(** [int(c)] for one character [c]: its value for a decimal digit, and
    [ValueError] for any other character that passes [isdigit]. *)
Lemma int_of_character (c : ascii) :
  (forall d, digit_of c = Some d ->
     isdigit c = true /\ int_of_field (Some (String c "")) = Ok d)
  /\ (digit_of c = None -> isdigit c = true ->
      int_of_field (Some (String c "")) = Raise ValueError).
Proof.
  destruct c as [[|] [|] [|] [|] [|] [|] [|] [|]]; vm_compute;
    split; intros; try discriminate; try (split; congruence); reflexivity.
Qed.

Lemma last_char_nonempty (s : string) : s <> "" -> exists c, last_char s = Some c.
Proof.
  induction s as [| c s IH]; intros Hne; [contradiction |].
  cbn [last_char]. destruct s as [| c' s']; [eexists; reflexivity |].
  apply IH. discriminate.
Qed.

(** X13: for an object that does not specify its tier, a tinker item with
    bits gets a tier from the last character [c] of the bits: the value of
    [c] when it is a decimal digit, 0 when [c.isdigit()] is false, while for
    a superscript digit, which passes [isdigit], [int(c)] raises
    [ValueError]; so a tier that is returned is between 0 and 9, and empty
    bits raise [IndexError].  An object with a scalar level [n] and no bits
    gets [n // 5], which is also its XP tier. *)
Theorem tier_of_unspecified (obj : QudObject) :
  is_specified3 obj "tag" "Tier" "Value" = false ->
  (forall bits,
      is_specified3 obj "part" "TinkerItem" "Bits" = true ->
      field obj "part" "TinkerItem" "Bits" = Some bits ->
      (bits = "" -> tier obj = Raise IndexError)
      /\ (bits <> "" ->
          exists c,
            last_char bits = Some c
            /\ (forall d, digit_of c = Some d -> tier obj = Ok (Some d))
            /\ (isdigit c = false -> tier obj = Ok (Some 0))
            /\ (digit_of c = None -> isdigit c = true ->
                tier obj = Raise ValueError)
            /\ (forall t, tier obj = Ok (Some t) ->
                  0 <= t <= 9
                  /\ (t <> 0 -> digit_of c = Some t))))
  /\ (forall l n,
         is_specified3 obj "part" "TinkerItem" "Bits" = false ->
         lv obj = Some l ->
         python_int l = Some n ->
         tier obj = Ok (Some (n / 5)) /\ xptier obj = Ok (Some (n / 5))).
Proof.
  intros Htier. unfold tier, xptier. rewrite Htier. cbn [negb]. split.
  - intros bits -> ->. split; [intros ->; reflexivity |]. intros Hne.
    destruct (last_char_nonempty bits Hne) as [c Hc]. exists c. rewrite Hc.
    split; [reflexivity |].
    destruct (int_of_character c) as [Hdigit Hother].
    destruct (digit_of c) as [d |] eqn:Hd.
    + destruct (Hdigit d eq_refl) as [Hisd Hint]. rewrite Hisd, Hint. cbn [bind].
      pose proof (digit_of_bounded c d Hd) as Hb.
      split; [intros d' [= <-]; reflexivity |].
      split; [discriminate |]. split; [discriminate |].
      intros t [= <-]. split; [exact Hb | reflexivity].
    + split; [discriminate |].
      destruct (isdigit c).
      * rewrite (Hother eq_refl eq_refl). cbn [bind].
        split; [discriminate |]. split; [reflexivity |]. discriminate.
      * split; [reflexivity |]. split; [discriminate |].
        intros t [= <-]. split; [lia | intros H; contradiction].
  - intros l n -> Hlv Hn. rewrite Hlv. cbn [is_none negb].
    unfold level_of_lv, level_or_none, int_or_none, int_of_field.
    rewrite Hn. split; reflexivity.
Qed.

Lemma tier_of_unspecified_witness :
  tier fixit_spray = Ok (Some 4)
  /\ (tier level_12 = Ok (Some 2) /\ xptier level_12 = Ok (Some 2)).
Proof.
  split.
  - destruct (proj2 (proj1 (tier_of_unspecified fixit_spray eq_refl) "0034"
                       eq_refl eq_refl) ltac:(discriminate))
      as (c & Hc & Hdigit & _).
    injection Hc as <-. exact (Hdigit 4 eq_refl).
  - exact (proj2 (tier_of_unspecified level_12 eq_refl) "12" 12
             eq_refl eq_refl eq_refl).
Defined.

(** A superscript two at the end of the bits passes [isdigit] and is not
    read by [int]. *)
Example tier_of_superscript_bits :
  tier (mk_object "odd bits"
          [("part", [("TinkerItem", [("Bits", String "1" (String "178" ""))])])])
  = Raise ValueError.
Proof. reflexivity. Qed.

(** X14: for an object without charge override whose charge uses are
    readable, the charge used is absent exactly when no part uses charge;
    when it is present the charge function is present as well, and with a
    single contributing part and no stated reason it is the plain name of
    that part's function, without the amount in brackets. *)
Theorem chargefunction_follows_chargeused
        (E : Env) (obj : QudObject) (parts : list string) :
  part_names obj = Ok parts ->
  forallb (charge_readable obj) parts = true ->
  assoc (name obj) (HARDCODED_CHARGE_USE E) = None ->
  (chargeused E obj = Ok None <-> filter (uses_charge obj) parts = [])
  /\ (forall c, chargeused E obj = Ok (Some c) ->
        exists label, chargefunction E obj = Ok (Some label))
  /\ (assoc (name obj) (CHARGE_USE_REASONS E) = None ->
      (filter (uses_charge obj) parts = [] -> chargefunction E obj = Ok None)
      /\ (forall p, filter (uses_charge obj) parts = [p] ->
            chargefunction E obj = Ok (Some (charge_func obj p)))).
Proof.
  intros Hparts Hread Hover.
  assert (Hused : chargeused E obj
    = Ok (if sum_Z (map (charge_of obj) (filter (uses_charge obj) parts)) >? 0
          then Some (sum_Z (map (charge_of obj) (filter (uses_charge obj) parts)))
          else None)).
  { unfold chargeused. rewrite Hparts. cbn [bind].
    rewrite (chargeused_loop _ _ _ Hread). cbn [bind].
    rewrite Z.add_0_l, Hover, charge_sum_filter.
    destruct (_ >? 0); reflexivity. }
  assert (Hfunc : chargefunction E obj
    = let st :=
        (map (charge_func obj) (filter (uses_charge obj) parts),
         map (fun p => detailed (charge_func obj p) (charge_text obj p))
             (filter (uses_charge obj) parts)) in
      let st :=
        match assoc (name obj) (CHARGE_USE_REASONS E) with
        | Some func => (app (fst st) [func], app (snd st) [func])
        | None => st
        end in
      match fst st with
      | [] => Ok None
      | [func] => Ok (Some func)
      | _ => Ok (Some (join ", " (snd st)))
      end).
  { unfold chargefunction. rewrite Hparts. cbn [bind].
    rewrite (chargefunction_loop _ _ _ Hread). cbn [bind fst snd app].
    rewrite Hover. reflexivity. }
  assert (Hpos : forall p l, filter (uses_charge obj) parts = p :: l ->
             0 < sum_Z (map (charge_of obj) (filter (uses_charge obj) parts))).
  { intros p l Hfilter.
    assert (Hp : uses_charge obj p = true).
    { assert (Hin : In p (filter (uses_charge obj) parts))
        by (rewrite Hfilter; left; reflexivity).
      apply filter_In in Hin. apply Hin. }
    rewrite Hfilter. cbn [map sum_Z fold_right].
    unfold uses_charge in Hp. apply Z.ltb_lt in Hp.
    assert (Hrest : 0 <= fold_right Z.add 0 (map (charge_of obj) l)).
    { clear. induction l as [| q l IH]; cbn [map fold_right]; [lia |].
      pose proof (charge_of_nonneg obj q). lia. }
    lia. }
  split; [| split].
  - rewrite Hused. destruct (filter (uses_charge obj) parts) as [| p l] eqn:Hf.
    + cbn. split; reflexivity.
    + specialize (Hpos p l eq_refl). apply Z.gtb_lt in Hpos. rewrite Hpos.
      split; discriminate.
  - intros c Hc. rewrite Hfunc. cbv zeta.
    destruct (filter (uses_charge obj) parts) as [| p l] eqn:Hf.
    + rewrite Hused in Hc. discriminate Hc.
    + cbn [map fst snd].
      destruct (assoc (name obj) (CHARGE_USE_REASONS E)) as [reason |];
        cbn [fst snd app]; destruct l; cbn [map app]; eexists; reflexivity.
  - intros Hreason. rewrite Hfunc, Hreason. cbv zeta. cbn [fst]. split.
    + intros ->. reflexivity.
    + intros p ->. reflexivity.
Qed.

Lemma chargefunction_follows_chargeused_witness :
  exists label, chargefunction (plain_env []) stun_teleporter = Ok (Some label).
Proof.
  exact (proj1 (proj2 (chargefunction_follows_chargeused (plain_env [])
                         stun_teleporter ["Physics"; "StunOnHit"; "Teleporter"]
                         eq_refl eq_refl eq_refl)) 15 eq_refl).
Defined.

Lemma split_nonempty (sep : ascii) (s : string) : split sep s <> [].
Proof.
  destruct s as [| c s]; cbn [split]; [discriminate |].
  destruct (Ascii.eqb c sep); [discriminate |].
  destruct (split sep s); discriminate.
Qed.

Lemma map_result_length {A B : Type} (f : A -> result B) (l : list A) :
  forall r, map_result f l = Ok r -> List.length r = List.length l.
Proof.
  induction l as [| x l IH]; cbn [map_result]; intros r H.
  - injection H as <-. reflexivity.
  - destruct (f x) as [y |]; cbn [bind] in H; [| discriminate H].
    destruct (map_result f l) as [ys |]; cbn [bind] in H; [| discriminate H].
    injection H as <-. cbn [List.length]. rewrite (IH ys eq_refl). reflexivity.
Qed.

Lemma modcount_loop (keys : list string) :
  forall val : Z,
    fold_left (fun v key => if is_mod key then v + 1 else v) keys val
    = val + Z.of_nat (List.length (filter is_mod keys)).
Proof.
  induction keys as [| key keys IH]; intros val; cbn [fold_left filter].
  - cbn [List.length Z.of_nat]. lia.
  - rewrite IH. destruct (is_mod key); cbn [List.length]; lia.
Qed.

Lemma mods_loop (obj : QudObject) (keys : list string) :
  forall ms r : list (string * Z),
    for_each (mods_part obj) keys ms = Ok r ->
    List.length r = (List.length ms + List.length (filter is_mod keys))%nat.
Proof.
  induction keys as [| key keys IH]; intros ms r H; cbn [for_each filter] in *.
  - injection H as <-. cbn [List.length]. lia.
  - unfold mods_part at 1 in H. destruct (is_mod key); cbn [bind] in H.
    + destruct (entry obj "part" key) as [data |]; [| discriminate H].
      destruct (assoc "Tier" data) as [t |]; cbn [bind] in H.
      * destruct (int_of_field (Some t)) as [n |]; cbn [bind] in H;
          [| discriminate H].
        rewrite (IH _ _ H), length_app. cbn [List.length]. lia.
      * rewrite (IH _ _ H), length_app. cbn [List.length]. lia.
    + exact (IH _ _ H).
Qed.

(** The two getters agree on the number of mods. *)
Lemma mods_getter_within_modcount (obj : QudObject)
      (r : option (list (string * Z))) :
  mods_getter obj = Ok r ->
  match r with
  | Some l =>
      exists n : Z,
        modcount_getter obj = Ok (Some n)
        /\ 0 < n
        /\ Z.of_nat (List.length l) <= n
        /\ (field obj "part" "AddMod" "Tiers" = None -> Z.of_nat (List.length l) = n)
  | None => modcount_getter obj = Ok None
  end.
Proof.
  unfold mods_getter, modcount_getter. intros H.
  destruct (part_keys obj) as [keys |] eqn:Hkeys;
    [| destruct (field obj "part" "AddMod" "Mods");
       [destruct (field obj "part" "AddMod" "Tiers");
        [destruct (map_result _ _) |] |]; discriminate H].
  cbn [bind]. rewrite modcount_loop.
  set (k := List.length (filter is_mod keys)) in *.
  assert (Hend : forall (added : list (string * Z)) (a : Z),
             Z.of_nat (List.length added) <= a ->
             (added = [] -> a = 0) ->
             (ms <- for_each (mods_part obj) keys added ;;
              match ms with [] => Ok None | _ => Ok (Some ms) end) = Ok r ->
             match r with
             | Some l =>
                 exists n : Z,
                   (if a + Z.of_nat k >? 0 then Ok (Some (a + Z.of_nat k))
                    else Ok None) = Ok (Some n)
                   /\ 0 < n
                   /\ Z.of_nat (List.length l) <= n
                   /\ (Z.of_nat (List.length added) = a ->
                       Z.of_nat (List.length l) = n)
             | None => (if a + Z.of_nat k >? 0 then Ok (Some (a + Z.of_nat k))
                        else Ok None) = Ok None
             end).
  { intros added a Hle Hzero Hloop.
    destruct (for_each (mods_part obj) keys added) as [ms |] eqn:Hms;
      cbn [bind] in Hloop; [| discriminate Hloop].
    pose proof (mods_loop obj keys added ms Hms) as Hlen. fold k in Hlen.
    destruct ms as [| e ms]; injection Hloop as <-.
    - cbn [List.length] in Hlen. destruct added; [| discriminate Hlen].
      rewrite (Hzero eq_refl). assert (k = 0%nat) by lia. subst k.
      replace (List.length (filter is_mod keys)) with 0%nat by lia.
      reflexivity.
    - assert (Hpos : 0 < a + Z.of_nat k) by (cbn [List.length] in Hlen; lia).
      exists (a + Z.of_nat k). apply Z.gtb_lt in Hpos as Hgt. rewrite Hgt.
      repeat split; lia. }
  destruct (field obj "part" "AddMod" "Mods") as [m |].
  - set (names := split "," m) in *.
    destruct (field obj "part" "AddMod" "Tiers") as [t |].
    + destruct (map_result (fun tier => int_of_field (Some tier)) (split "," t))
        as [tiers |] eqn:Htiers; cbn [bind] in H; [| discriminate H].
      assert (Hne : combine names tiers <> []).
      { pose proof (split_nonempty "," m) as Hn. fold names in Hn.
        pose proof (split_nonempty "," t) as Ht.
        apply map_result_length in Htiers.
        destruct names; [contradiction |].
        destruct tiers; [destruct (split "," t); [contradiction | discriminate] |].
        discriminate. }
      specialize (Hend (combine names tiers) (0 + Z.of_nat (List.length names))).
      assert (Hle : Z.of_nat (List.length (combine names tiers))
                    <= 0 + Z.of_nat (List.length names))
        by (rewrite length_combine; lia).
      specialize (Hend Hle (fun Hnil => False_ind _ (Hne Hnil)) H).
      destruct r as [l |]; [| exact Hend].
      destruct Hend as (n & Hn & Hpos & Hlen & _).
      exists n. repeat split; try assumption. intros Hnone. discriminate Hnone.
    + cbn [bind] in H.
      specialize (Hend (combine names (repeat 1 (List.length names)))
                       (0 + Z.of_nat (List.length names))).
      assert (Heq : List.length (combine names (repeat 1 (List.length names)))
                    = List.length names)
        by (rewrite length_combine, repeat_length; lia).
      assert (Hne : combine names (repeat 1 (List.length names)) <> []).
      { pose proof (split_nonempty "," m) as Hn. fold names in Hn.
        destruct names; [contradiction | discriminate]. }
      assert (Hle : Z.of_nat (List.length
                                (combine names (repeat 1 (List.length names))))
                    <= 0 + Z.of_nat (List.length names)) by lia.
      specialize (Hend Hle (fun Hnil => False_ind _ (Hne Hnil)) H).
      destruct r as [l |]; [| exact Hend].
      destruct Hend as (n & Hn & Hpos & Hlen & Hexact).
      exists n. repeat split; try assumption. intros _. apply Hexact. lia.
  - cbn [bind] in H.
    specialize (Hend [] 0 ltac:(cbn; lia) (fun _ => eq_refl) H).
    destruct r as [l |]; [| exact Hend].
    destruct Hend as (n & Hn & Hpos & Hlen & Hexact).
    exists n. repeat split; try assumption. intros _. apply Hexact. reflexivity.
Qed.

Lemma int_of_field_raises (v : option string) (e : exn) :
  int_of_field v = Raise e -> e = TypeError \/ e = ValueError.
Proof.
  unfold int_of_field. destruct v as [s |]; [destruct (python_int s) |];
    intros [= <-]; [right | left]; reflexivity.
Qed.

Lemma mods_loop_raises (obj : QudObject) (e : exn) :
  forall (keys : list string) (ms : list (string * Z)),
    for_each (mods_part obj) keys ms = Raise e -> e <> AttributeError.
Proof.
  induction keys as [| key keys IH]; intros ms H; cbn [for_each] in H;
    [discriminate H |].
  destruct (mods_part obj ms key) as [ms' | e'] eqn:Hpart; cbn [bind] in H;
    [exact (IH _ H) |].
  injection H as <-. unfold mods_part in Hpart.
  destruct (is_mod key); [| discriminate Hpart].
  destruct (entry obj "part" key) as [data |];
    [| injection Hpart as <-; discriminate].
  destruct (assoc "Tier" data) as [t |]; [| discriminate Hpart].
  destruct (int_of_field (Some t)) as [n | e''] eqn:Hint; cbn [bind] in Hpart;
    [discriminate Hpart |].
  injection Hpart as <-.
  destruct (int_of_field_raises _ _ Hint) as [-> | ->]; discriminate.
Qed.

Lemma map_result_raises {A B : Type} (f : A -> result B) (P : exn -> Prop) :
  (forall x e, f x = Raise e -> P e) ->
  forall l e, map_result f l = Raise e -> P e.
Proof.
  intros Hf. induction l as [| x l IH]; cbn [map_result]; intros e H;
    [discriminate H |].
  destruct (f x) as [y | e'] eqn:Hx; cbn [bind] in H;
    [| injection H as <-; exact (Hf x e' Hx)].
  destruct (map_result f l) as [ys | e'']; cbn [bind] in H; [discriminate H |].
  injection H as <-. exact (IH e'' eq_refl).
Qed.

(** The getter of [mods] raises [AttributeError] only for an object without
    parts, where the getter of [modcount] raises it as well. *)
Lemma mods_getter_attribute_error (obj : QudObject) :
  mods_getter obj = Raise AttributeError ->
  modcount_getter obj = Raise AttributeError.
Proof.
  unfold mods_getter, modcount_getter, part_keys.
  destruct (group obj "part") as [ps |]; [| reflexivity].
  intros H. exfalso. cbn [bind] in H.
  match type of H with
  | (ms <- ?c ;; _) = _ => destruct c as [ms | e] eqn:Hms
  end; cbn [bind] in H.
  - destruct (for_each (mods_part obj) (map fst ps) ms) as [ms' | e] eqn:Hloop;
      cbn [bind] in H; [destruct ms'; discriminate H |].
    injection H as ->. exact (mods_loop_raises obj _ _ _ Hloop eq_refl).
  - injection H as ->.
    destruct (field obj "part" "AddMod" "Mods") as [m |]; [| discriminate Hms].
    destruct (field obj "part" "AddMod" "Tiers") as [t |];
      cbn [bind] in Hms; [| discriminate Hms].
    destruct (map_result (fun tier => int_of_field (Some tier)) (split "," t))
      as [tiers | e] eqn:Htiers; cbn [bind] in Hms; [discriminate Hms |].
    injection Hms as ->.
    apply (map_result_raises _ (fun e => e = TypeError \/ e = ValueError)) in Htiers;
      [destruct Htiers; discriminate |].
    intros x e. apply int_of_field_raises.
Qed.

(** X15: whenever [mods] returns a list, [modcount] returns a count that is
    at least the length of the list, and exactly its length when the item
    gives no tiers for its added mods (a shorter list of tiers cuts the
    pairs short); when [mods] returns nothing, so does [modcount]. *)
Theorem mods_within_modcount (obj : QudObject) (r : option (list (string * Z))) :
  mods obj = Ok r ->
  match r with
  | Some l =>
      exists n : Z,
        modcount obj = Ok (Some n)
        /\ 0 < n
        /\ Z.of_nat (List.length l) <= n
        /\ (field obj "part" "AddMod" "Tiers" = None -> Z.of_nat (List.length l) = n)
  | None => modcount obj = Ok None
  end.
Proof.
  unfold mods, modcount. intros H.
  apply property_access_inv in H as [H | [H ->]].
  - apply mods_getter_within_modcount in H. destruct r as [l |].
    + destruct H as (n & Hn & Hrest). exists n.
      split; [exact (property_access_ok _ _ Hn) | exact Hrest].
    + exact (property_access_ok _ _ H).
  - rewrite (mods_getter_attribute_error obj H). reflexivity.
Qed.

Lemma mods_within_modcount_witness :
  exists n : Z,
    modcount plain_sword = Ok (Some n)
    /\ 0 < n
    /\ Z.of_nat (List.length [("ModCounterweighted", 1); ("ModElectrified", 1);
                              ("ModMasterwork", 1)]) <= n
    /\ (field plain_sword "part" "AddMod" "Tiers" = None ->
        Z.of_nat (List.length [("ModCounterweighted", 1); ("ModElectrified", 1);
                               ("ModMasterwork", 1)]) = n).
Proof.
  exact (mods_within_modcount plain_sword
           (Some [("ModCounterweighted", 1); ("ModElectrified", 1);
                  ("ModMasterwork", 1)]) eq_refl).
Defined.

Lemma assoc_Forall {A : Type} (Q : A -> Prop) (l : list (string * A)) (k : string)
      (v : A) :
  Forall (fun e => Q (snd e)) l -> assoc k l = Some v -> Q v.
Proof.
  induction l as [| [k' v'] l IH]; cbn [assoc]; intros Hall H; [discriminate H |].
  inversion Hall as [| e l' He Hl]; subst.
  destruct (String.eqb k k'); [injection H as <-; exact He | exact (IH Hl H)].
Qed.

Lemma add_mod_complexity_grows (modprops : mod_props) (val : Z) (m : string) :
  Forall (fun e => 0 <= snd (snd e)) modprops ->
  val <= add_mod_complexity modprops val m.
Proof.
  intros Hall. unfold add_mod_complexity.
  destruct (assoc m modprops) as [[ifcomplex c] |] eqn:Hm; [| lia].
  pose proof (assoc_Forall (fun p => 0 <= snd p) modprops m _ Hall Hm) as Hc.
  cbn [snd] in Hc. destruct (ifcomplex && (val <=? 0)); lia.
Qed.

Lemma add_mod_complexity_stays (modprops : mod_props) (val : Z) (m : string) :
  Forall (fun e => fst (snd e) = true) modprops ->
  val <= 0 ->
  add_mod_complexity modprops val m = val.
Proof.
  intros Hall Hval. unfold add_mod_complexity.
  destruct (assoc m modprops) as [[ifcomplex c] |] eqn:Hm; [| reflexivity].
  pose proof (assoc_Forall (fun p => fst p = true) modprops m _ Hall Hm) as Hc.
  cbn [fst] in Hc. subst ifcomplex.
  apply Z.leb_le in Hval. rewrite Hval. reflexivity.
Qed.

Lemma complexity_loops (modprops : mod_props) (P : Z -> Prop) :
  (forall val m, P val -> P (add_mod_complexity modprops val m)) ->
  forall (names keys : list string) (val : Z),
    P val ->
    P (fold_left (fun v key => if is_mod key then add_mod_complexity modprops v key
                               else v) keys
         (fold_left (add_mod_complexity modprops) names val)).
Proof.
  intros Hstep names keys.
  assert (H1 : forall val, P val ->
                 P (fold_left (add_mod_complexity modprops) names val)).
  { induction names as [| m names IH]; intros val Hval; cbn [fold_left];
      [exact Hval | apply IH, Hstep, Hval]. }
  assert (H2 : forall val, P val ->
                 P (fold_left (fun v key => if is_mod key
                                            then add_mod_complexity modprops v key
                                            else v) keys val)).
  { induction keys as [| key keys IH]; intros val Hval; cbn [fold_left];
      [exact Hval |].
    apply IH. destruct (is_mod key); [apply Hstep, Hval | exact Hval]. }
  intros val Hval. apply H2, H1, Hval.
Qed.

(** X16: with a table whose complexities are not negative, the complexity of
    an item is never below its Examiner complexity; and mods that count only
    on complex items leave an item of complexity 0 or less as it is, so such
    an item has a complexity only if it can be built. *)
Theorem complexity_of_mods (modprops : mod_props) (obj : QudObject) (base : Z) :
  match field obj "part" "Examiner" "Complexity" with
  | None => Ok 0
  | Some s => int_of_field (Some s)
  end = Ok base ->
  (Forall (fun e => 0 <= snd (snd e)) modprops ->
   forall v, complexity modprops obj = Ok (Some v) -> base <= v)
  /\ (Forall (fun e => fst (snd e) = true) modprops ->
      base <= 0 ->
      group obj "part" <> None ->
      complexity modprops obj
      = Ok (match canbuild obj with Some true => Some base | _ => None end)).
Proof.
  intros Hbase.
  assert (Hrun : forall keys, part_keys obj = Ok keys ->
    complexity_getter modprops obj
    = let val :=
        fold_left (fun v key => if is_mod key
                                then add_mod_complexity modprops v key else v) keys
          (fold_left (add_mod_complexity modprops)
             (match field obj "part" "AddMod" "Mods" with
              | Some m => split "," m
              | None => []
              end) base) in
      if (val >? 0) || match canbuild obj with Some true => true | _ => false end
      then Ok (Some val) else Ok None).
  { intros keys Hkeys. unfold complexity_getter. rewrite Hbase. cbn [bind].
    rewrite Hkeys. cbn [bind].
    destruct (field obj "part" "AddMod" "Mods"); reflexivity. }
  split.
  - intros Hall v H. unfold complexity in H.
    apply property_access_inv in H as [H | [_ H]]; [| discriminate H].
    destruct (part_keys obj) as [keys |] eqn:Hkeys;
      [| unfold complexity_getter in H; rewrite Hbase, Hkeys in H; discriminate H].
    rewrite (Hrun keys eq_refl) in H. cbv zeta in H.
    match type of H with
    | (if _ then Ok (Some ?val) else _) = _ =>
        assert (Hle : base <= val)
    end.
    { apply (complexity_loops modprops (fun x => base <= x)); [| lia].
      intros val m Hval.
      pose proof (add_mod_complexity_grows modprops val m Hall). lia. }
    destruct (_ || _); [| discriminate H]. injection H as <-. exact Hle.
  - intros Hall Hlow Hparts.
    unfold part_keys in Hrun.
    destruct (group obj "part") as [ps |]; [| contradiction].
    unfold complexity. apply property_access_ok.
    rewrite (Hrun _ eq_refl). cbv zeta.
    match goal with
    | |- (if (?val >? 0) || _ then _ else _) = _ =>
        assert (Heq : val = base)
    end.
    { apply (complexity_loops modprops (fun x => x = base)); [| reflexivity].
      intros val m ->. apply add_mod_complexity_stays; assumption. }
    rewrite Heq.
    assert (Hgt : (base >? 0) = false) by (rewrite Z.gtb_ltb; apply Z.ltb_ge; lia).
    rewrite Hgt. cbn [orb]. destruct (canbuild obj) as [[|] |]; reflexivity.
Qed.

Lemma complexity_of_mods_witness :
  1 <= 2 /\ complexity complex_only_props plain_sword = Ok None.
Proof.
  destruct (complexity_of_mods sample_mod_props svensword 1 eq_refl) as [Hgrow _].
  destruct (complexity_of_mods complex_only_props plain_sword 0 eq_refl)
    as [_ Hstay].
  split.
  - apply Hgrow; [| reflexivity].
    repeat constructor; cbn; lia.
  - apply Hstay; [repeat constructor | lia | discriminate].
Defined.

(** X17: an item has an unknown name and an alternate name only while it is
    not understood: both are absent when the complexity is absent or not
    positive, and when the understanding reaches the complexity; otherwise
    they are the Examiner names, by default "weird artifact" and "device",
    unless the name is ["*med"]. *)
Theorem unknown_names_gated (modprops : mod_props) (obj : QudObject)
        (c : option Z) :
  complexity modprops obj = Ok c ->
  (match c with Some n => n <= 0 | None => True end ->
   unknownname modprops obj = Ok None /\ unknownaltname modprops obj = Ok None)
  /\ (forall n u k,
         c = Some n ->
         field obj "part" "Examiner" "Understanding" = Some u ->
         python_int u = Some k ->
         n <= k ->
         unknownname modprops obj = Ok None
         /\ unknownaltname modprops obj = Ok None)
  /\ (forall n,
         c = Some n -> 0 < n ->
         match field obj "part" "Examiner" "Understanding" with
         | None => True
         | Some u => exists k, python_int u = Some k /\ k < n
         end ->
         unknownname modprops obj
         = Ok (match field obj "part" "Examiner" "UnknownDisplayName" with
               | None => Some "weird artifact"
               | Some s => if String.eqb s "*med" then None else Some s
               end)
         /\ unknownaltname modprops obj
            = Ok (match field obj "part" "Examiner" "AlternateDisplayName" with
                  | None => Some "device"
                  | Some s => if String.eqb s "*med" then None else Some s
                  end)).
Proof.
  intros Hc. unfold unknownname, unknownaltname. rewrite Hc. cbn [bind].
  split; [| split].
  - destruct c as [n |]; [| split; reflexivity].
    intros Hn. assert (Hgt : (n >? 0) = false)
      by (rewrite Z.gtb_ltb; apply Z.ltb_ge; lia).
    rewrite Hgt. split; reflexivity.
  - intros n u k -> Hu Hk Hle. rewrite Hu. unfold int_of_field. rewrite Hk.
    cbn [bind]. assert (Hlt : (k <? n) = false) by (apply Z.ltb_ge; lia).
    rewrite Hlt. destruct (n >? 0); split; reflexivity.
  - intros n -> Hpos Hu. apply Z.gtb_lt in Hpos. rewrite Hpos.
    assert (Hhidden :
      match field obj "part" "Examiner" "Understanding" with
      | None => Ok true
      | Some u => k <- int_of_field (Some u) ;; Ok (k <? n)
      end = Ok true).
    { destruct (field obj "part" "Examiner" "Understanding") as [u |];
        [| reflexivity].
      destruct Hu as (k & Hk & Hlt). unfold int_of_field. rewrite Hk.
      cbn [bind]. apply Z.ltb_lt in Hlt. rewrite Hlt. reflexivity. }
    rewrite Hhidden. cbn [bind]. split.
    + destruct (field obj "part" "Examiner" "UnknownDisplayName") as [s |];
        [destruct (String.eqb s "*med") |]; reflexivity.
    + destruct (field obj "part" "Examiner" "AlternateDisplayName") as [s |];
        [destruct (String.eqb s "*med") |]; reflexivity.
Qed.

Lemma unknown_names_gated_witness :
  unknownname sample_mod_props svensword = Ok (Some "weird artifact")
  /\ unknownaltname sample_mod_props svensword = Ok (Some "device").
Proof.
  refine (proj2 (proj2 (unknown_names_gated sample_mod_props svensword (Some 2)
                          eq_refl)) 2 eq_refl _ _).
  - lia.
  - exists 0. split; [reflexivity | lia].
Defined.

(** X18: whenever the penetration of an object with a [ThrownWeapon] part
    is computed, it is the thrown penetration, 1 by default, plus 4, with no
    share of the melee or projectile penetration; and an object without
    penetration has no maximal penetration either. *)
Theorem pv_of_thrown_weapon (E : Env) (obj : QudObject) :
  (forall r, entry obj "part" "ThrownWeapon" <> None ->
     pv E obj = Ok r ->
     exists thrown,
       int_or_none (field obj "part" "ThrownWeapon" "Penetration") = Ok thrown
       /\ r = Some (match thrown with Some n => n | None => 1 end + 4))
  /\ (pv E obj = Ok None -> maxpv E obj = Ok None)
  /\ (forall p, pv E obj = Ok (Some p) ->
        inherits_from obj "MeleeWeapon" || is_specified2 obj "part" "MeleeWeapon"
        = false ->
        maxpv E obj = Ok (Some p)).
Proof.
  split; [| split].
  - intros r Hthrown. unfold pv.
    destruct (entry obj "part" "ThrownWeapon"); [| contradiction].
    cbn [is_none negb].
    match goal with
    | |- (pv0 <- ?c ;; _) = _ -> _ => destruct c as [pv0 |]
    end; cbn [bind]; [| discriminate].
    destruct (projectile_field E obj "part" "Projectile" "BasePenetration")
      as [[s |] |]; cbn [bind]; try discriminate.
    + destruct (int_of_field (Some s)); cbn [bind]; [| discriminate].
      destruct (int_or_none (field obj "part" "ThrownWeapon" "Penetration"))
        as [thrown |]; cbn [bind]; [| discriminate].
      intros [= <-]. exists thrown. split; reflexivity.
    + destruct (int_or_none (field obj "part" "ThrownWeapon" "Penetration"))
        as [thrown |]; cbn [bind]; [| discriminate].
      intros [= <-]. exists thrown. split; reflexivity.
  - intros H. unfold maxpv. rewrite H. reflexivity.
  - intros p H Hmelee. unfold maxpv. rewrite H, Hmelee. reflexivity.
Qed.

Lemma pv_of_thrown_weapon_witness :
  exists thrown,
    int_or_none (field boulder "part" "ThrownWeapon" "Penetration") = Ok thrown
    /\ Some 5 = Some (match thrown with Some n => n | None => 1 end + 4).
Proof.
  assert (Hthrown : entry boulder "part" "ThrownWeapon" <> None) by discriminate.
  exact (proj1 (pv_of_thrown_weapon (plain_env []) boulder) (Some 5) Hthrown
           eq_refl).
Defined.

(** * Properties of the tiles *)

Lemma upper_char_idempotent (c : ascii) : upper_char (upper_char c) = upper_char c.
Proof. destruct c as [[] [] [] [] [] [] [] []]; reflexivity. Qed.

Lemma lower_upper_char (c : ascii) : lower_char (upper_char c) = lower_char c.
Proof. destruct c as [[] [] [] [] [] [] [] []]; reflexivity. Qed.

Lemma lower_char_underscore (c : ascii) : lower_char c = "_"%char -> c = "_"%char.
Proof. destruct c as [[] [] [] [] [] [] [] []]; cbv; congruence. Qed.

Lemma replace_first_shape (s : string) :
  ~ underscore_at_6 (replace_first "_" "/" s).
Proof.
  destruct s as [| c0 [| c1 [| c2 [| c3 [| c4 [| c5 [| c6 s]]]]]]];
    cbn [replace_first underscore_at_6];
    repeat match goal with
           | |- context [Ascii.eqb ?c "_"] =>
               let H := fresh "H" in
               destruct (Ascii.eqb c "_") eqn:H; cbn [replace_first underscore_at_6]
           end;
    try tauto;
    try (intros (H0' & H1' & H2' & H3' & H4' & H5' & H6'); congruence).
  intros (_ & _ & _ & _ & _ & _ & ->). rewrite Ascii.eqb_refl in *. discriminate.
Qed.

Lemma lower_prefix_shape (c : ascii) (rest : string) :
  prefix "assets_content_textures" (lower (String (upper_char c) rest)) = true ->
  underscore_at_6 (String c rest).
Proof.
  destruct rest as [| c1 [| c2 [| c3 [| c4 [| c5 [| c6 rest]]]]]];
    cbn [lower prefix]; rewrite lower_upper_char;
    repeat match goal with
           | |- context [ascii_dec ?a ?b] => destruct (ascii_dec a b); try discriminate
           end.
  intros _. cbn [underscore_at_6].
  repeat split;
    try (intros ->; match goal with H : _ = lower_char "/" |- _ => discriminate H end).
  apply lower_char_underscore. congruence.
Qed.

(** X19: [fix_filename] is idempotent: a repaired name is left as it is by a
    second repair; the repair fails with an [IndexError] on the empty name
    and on a name that is nothing but the broken prefix. *)
Theorem fix_filename_idempotent (filename : string) :
  (forall fixed, fix_filename filename = Ok fixed -> fix_filename fixed = Ok fixed)
  /\ fix_filename "" = Raise IndexError
  /\ (prefix "assets_content_textures" (lower filename) = true ->
      (String.length filename <= 24)%nat ->
      fix_filename filename = Raise IndexError).
Proof.
  split; [| split].
  - intros fixed. unfold fix_filename at 1.
    destruct (prefix "assets_content_textures" (lower filename)) eqn:Hprefix.
    + destruct (replace_first "_" "/" (drop 24 filename)) as [| c rest] eqn:Hr;
        [discriminate |].
      intros [= <-]. unfold fix_filename.
      destruct (prefix "assets_content_textures"
                  (lower (String (upper_char c) rest))) eqn:Hagain.
      * exfalso. apply lower_prefix_shape in Hagain.
        apply (replace_first_shape (drop 24 filename)). rewrite Hr. exact Hagain.
      * rewrite upper_char_idempotent. reflexivity.
    + destruct filename as [| c rest]; [discriminate |].
      intros [= <-]. unfold fix_filename.
      cbn [lower] in *. rewrite lower_upper_char, Hprefix, upper_char_idempotent.
      reflexivity.
  - reflexivity.
  - intros Hprefix Hlen. unfold fix_filename. rewrite Hprefix.
    assert (Hdrop : forall n s, (String.length s <= n)%nat -> drop n s = "").
    { induction n as [| n IH]; intros [| c s] H; cbn [drop String.length] in *;
        try reflexivity; [lia | apply IH; lia]. }
    rewrite (Hdrop 24%nat filename Hlen). reflexivity.
Qed.

Lemma fix_filename_idempotent_witness :
  fix_filename "Creatures/sw_ape.bmp" = Ok "Creatures/sw_ape.bmp"
  /\ fix_filename "Assets_Content_Textures" = Raise IndexError.
Proof.
  split.
  - exact (proj1 (fix_filename_idempotent
                    "assets_content_textures_creatures_sw_ape.bmp") _ eq_refl).
  - refine (proj2 (proj2 (fix_filename_idempotent "Assets_Content_Textures"))
              eq_refl _).
    cbn. lia.
Defined.

Section Tint.

(** The rounding of a float operation: monotone, and exact on the integers
    at hand. *)
Variable fl : Q -> Q.
Hypothesis fl_monotone : forall x y : Q, (x <= y)%Q -> (fl x <= fl y)%Q.
Hypothesis fl_integer : forall n : Z, (fl (inject_Z n) == inject_Z n)%Q.






End Tint.


(** * Properties of the list-valued fields *)

Lemma char_in_cons (x c : ascii) (s : string) :
  char_in x (String c s) = false -> Ascii.eqb x c = false /\ char_in x s = false.
Proof. cbn [char_in]. apply orb_false_iff. Qed.

(** The segments of a split are free of the separator, and of any character
    the string is free of. *)
Lemma split_segments_clean (sep : ascii) (s : string) :
  Forall (fun seg => char_in sep seg = false) (split sep s).
Proof.
  induction s as [| c s IH]; cbn [split]; [repeat constructor |].
  destruct (Ascii.eqb c sep) eqn:Hc; [constructor; [reflexivity | exact IH] |].
  destruct (split sep s) as [| h t]; [repeat constructor; cbn;
    rewrite Ascii.eqb_sym, Hc; reflexivity |].
  inversion IH as [| h' t' Hh Ht]; subst. constructor; [| exact Ht].
  cbn [char_in]. rewrite Ascii.eqb_sym, Hc, Hh. reflexivity.
Qed.

Lemma split_segments_free (x sep : ascii) (s : string) :
  char_in x s = false ->
  Forall (fun seg => char_in x seg = false) (split sep s).
Proof.
  induction s as [| c s IH]; cbn [split]; intros H; [repeat constructor |].
  apply char_in_cons in H as [Hx Hs]. specialize (IH Hs).
  destruct (Ascii.eqb c sep); [constructor; [reflexivity | exact IH] |].
  destruct (split sep s) as [| h t]; [repeat constructor; cbn;
    rewrite Hx; reflexivity |].
  inversion IH as [| h' t' Hh Ht]; subst. constructor; [| exact Ht].
  cbn [char_in]. rewrite Hx, Hh. reflexivity.
Qed.

Lemma split_without_separator (sep : ascii) (s : string) :
  char_in sep s = false -> split sep s = [s].
Proof.
  induction s as [| c s IH]; cbn [split]; intros H; [reflexivity |].
  apply char_in_cons in H as [Hx Hs]. rewrite Ascii.eqb_sym, Hx, (IH Hs).
  reflexivity.
Qed.

Lemma map_result_each {A B : Type} (f : A -> result B) (P : A -> B -> Prop) :
  (forall x y, f x = Ok y -> P x y) ->
  forall l r, map_result f l = Ok r -> Forall2 P l r.
Proof.
  intros Hf. induction l as [| x l IH]; cbn [map_result]; intros r H.
  - injection H as <-. constructor.
  - destruct (f x) as [y |] eqn:Hx; cbn [bind] in H; [| discriminate H].
    destruct (map_result f l) as [ys |]; cbn [bind] in H; [| discriminate H].
    injection H as <-. constructor; [exact (Hf x y Hx) | exact (IH ys eq_refl)].
Qed.

(** X21: when [reputationbonus] returns, it gives one pair per
    comma-separated segment of the Faction field, in order, and the faction
    of a pair contains neither a comma nor a colon. *)
Theorem reputationbonus_pairs (obj : QudObject) (reps : list (string * Z)) :
  reputationbonus obj = Ok (Some reps) ->
  exists factions : string,
    field obj "part" "AddsRep" "Faction" = Some factions
    /\ Forall2 (fun part r =>
                  char_in "," (fst r) = false /\ char_in ":" (fst r) = false
                  /\ (char_in ":" part = false ->
                      fst r = part
                      /\ int_of_field (field obj "part" "AddsRep" "Value")
                         = Ok (snd r)))
               (split "," factions) reps.
Proof.
  unfold reputationbonus. intros H.
  apply property_access_inv in H as [H | [_ H]]; [| discriminate H].
  revert H. unfold reputationbonus_getter.
  destruct (nonempty (entry obj "part" "AddsRep")); [| discriminate].
  destruct (field obj "part" "AddsRep" "Faction") as [factions |]; [| discriminate].
  destruct (map_result (reputation_entry obj) (split "," factions)) as [r |] eqn:Hr;
    cbn [bind]; [| discriminate].
  intros [= <-]. exists factions. split; [reflexivity |].
  pose proof (split_segments_clean "," factions) as Hclean.
  assert (Hall : Forall2 (fun part r' => reputation_entry obj part = Ok r')
                         (split "," factions) r)
    by (apply (map_result_each _ _ (fun x y H => H) _ _ Hr)).
  clear Hr. induction Hall as [| part r' parts rs Hentry Hrest IH]; [constructor |].
  inversion Hclean as [| p ps Hpart Hparts]; subst.
  constructor; [| exact (IH Hparts)].
  unfold reputation_entry in Hentry.
  destruct (char_in ":" part) eqn:Hcolon; cbn [bind] in Hentry.
  - destruct (split ":" part) as [| a [| b [| c l]]] eqn:Hsplit;
      cbn [unpack2 bind fst snd] in Hentry; try discriminate Hentry.
    destruct (int_of_field (Some b)) as [n |]; cbn [bind] in Hentry;
      [| discriminate Hentry].
    injection Hentry as <-. cbn [fst].
    pose proof (split_segments_clean ":" part) as H1.
    pose proof (split_segments_free "," ":" part Hpart) as H2.
    rewrite Hsplit in H1, H2.
    inversion H1; inversion H2; subst.
    split; [assumption | split; [assumption |]].
    intros Hno. congruence.
  - cbn [fst snd] in Hentry.
    destruct (int_of_field (field obj "part" "AddsRep" "Value")) as [n |] eqn:Hn;
      cbn [bind] in Hentry; [| discriminate Hentry].
    injection Hentry as <-. cbn [fst snd].
    split; [assumption | split; [assumption |]].
    intros _. split; reflexivity.
Qed.

Lemma reputationbonus_pairs_witness :
  exists factions : string,
    field fungal_ring "part" "AddsRep" "Faction" = Some factions
    /\ List.length (split "," factions) = 3%nat.
Proof.
  destruct (reputationbonus_pairs fungal_ring
              [("Fungi", 200); ("Consortium", -200); ("Apes", 50)] eq_refl)
    as (factions & Hf & Hall).
  exists factions. split; [exact Hf |].
  apply Forall2_length in Hall. exact Hall.
Defined.

Lemma faction_entry_raises (ret : list (string * Z)) (part : string) (e : exn) :
  faction_entry ret part = Raise e -> e = ValueError.
Proof.
  unfold faction_entry, int_of_field.
  destruct (char_in "-" part); [| discriminate].
  destruct (split "-" part) as [| a [| b [| c l]]]; cbn [unpack2 bind snd];
    try (intros [= <-]; reflexivity).
  destruct (python_int b); cbn [bind]; [discriminate | intros [= <-]; reflexivity].
Qed.

Lemma faction_loop (parts : list string) :
  forall ret : list (string * Z),
    (forall r, for_each faction_entry parts ret = Ok r ->
       exists added,
         r = app ret added
         /\ List.length added
            = List.length (filter (fun p => char_in "-" p) parts)
         /\ Forall (fun f => char_in "-" (fst f) = false) added
         /\ Forall (fun p => (List.length (split "-" p) <= 2)%nat) parts)
    /\ (forall e, for_each faction_entry parts ret = Raise e -> e = ValueError).
Proof.
  induction parts as [| part parts IH]; intros ret; cbn [for_each filter].
  - split; [| discriminate]. intros r [= <-]. exists [].
    rewrite app_nil_r. repeat split; constructor.
  - destruct (faction_entry ret part) as [ret' |] eqn:Hpart; cbn [bind].
    + destruct (IH ret') as [Hok Hraise]. split; [| exact Hraise].
      intros r Hr. destruct (Hok r Hr) as (added & -> & Hlen & Hclean & Hshort).
      unfold faction_entry in Hpart.
      destruct (char_in "-" part) eqn:Hdash.
      * destruct (split "-" part) as [| a [| b [| c l]]] eqn:Hsplit;
          cbn [unpack2 bind fst snd] in Hpart; try discriminate Hpart.
        destruct (int_of_field (Some b)) as [n |]; cbn [bind] in Hpart;
          [| discriminate Hpart].
        injection Hpart as <-. exists ((a, n) :: added).
        rewrite <- app_assoc. cbn [app List.length]. rewrite Hlen.
        repeat split.
        -- constructor; [| exact Hclean]. cbn [fst].
           pose proof (split_segments_clean "-" part) as H1. rewrite Hsplit in H1.
           inversion H1; assumption.
        -- constructor; [rewrite Hsplit; cbn; lia | exact Hshort].
      * injection Hpart as <-. exists added. repeat split; try assumption.
        constructor; [| exact Hshort].
        rewrite (split_without_separator "-" part Hdash). cbn. lia.
    + split; [discriminate |]. intros e' [= <-].
      exact (faction_entry_raises ret part _ Hpart).
Qed.

(** X22: when [faction] returns a list, it has one pair for each
    comma-separated segment of the Factions field that contains a dash, the
    names are free of dashes, and no segment has more than one dash; the
    only exception it raises is a [ValueError], which a segment with two
    dashes (a negative value such as [Joppa--100]) always causes. *)
Theorem faction_pairs (obj : QudObject) (factions : string) :
  field obj "part" "Brain" "Factions" = Some factions ->
  factions <> "" ->
  (forall l, faction obj = Ok (Some l) ->
     List.length l
     = List.length (filter (fun p => char_in "-" p) (split "," factions))
     /\ Forall (fun f => char_in "-" (fst f) = false) l
     /\ Forall (fun p => (List.length (split "-" p) <= 2)%nat)
               (split "," factions))
  /\ (forall e, faction obj = Raise e -> e = ValueError)
  /\ (Exists (fun p => (2 < List.length (split "-" p))%nat) (split "," factions) ->
      faction obj = Raise ValueError).
Proof.
  intros Hf Hne. unfold faction. rewrite Hf.
  destruct factions as [| c s]; [contradiction |]. cbn [truthy].
  destruct (faction_loop (split "," (String c s)) []) as [Hok Hraise].
  destruct (for_each faction_entry (split "," (String c s)) []) as [ret | e0] eqn:Hloop;
    cbn [bind].
  - destruct (Hok ret eq_refl) as (added & -> & Hlen & Hclean & Hshort).
    cbn [app]. split; [| split].
    + intros l [= <-]. repeat split; assumption.
    + discriminate.
    + intros Hex. exfalso. apply Exists_exists in Hex as (p & Hin & Hlong).
      rewrite Forall_forall in Hshort. specialize (Hshort p Hin). lia.
  - split; [discriminate |]. split.
    + intros e [= <-]. exact (Hraise e0 eq_refl).
    + intros _. rewrite (Hraise e0 eq_refl). reflexivity.
Qed.

Lemma faction_pairs_witness :
  faction (villager "Joppa--100") = Raise ValueError
  /\ (forall l, faction (villager "Joppa-100,Wardens,Apes-5") = Ok (Some l) ->
        List.length l = 2%nat).
Proof.
  split.
  - refine (proj2 (proj2 (faction_pairs (villager "Joppa--100") "Joppa--100"
                            eq_refl _)) _); [discriminate |].
    left. cbn. lia.
  - intros l Hl.
    refine (proj1 (proj1 (faction_pairs (villager "Joppa-100,Wardens,Apes-5")
                            "Joppa-100,Wardens,Apes-5" eq_refl _) l Hl)).
    discriminate.
Defined.
